(** * darkchan: the upload pipeline, the storage gateway, the orphan
      reconciler, tripcodes and the thread controller

    A shallow embedding of [utils/fileStorage.js], [utils/cleanup.js],
    [utils/fileUtils.js], [utils/validations.js] and of the storage-backed
    [controllers/thread.js].  The two storage buckets and the two tables are
    finite maps; every handler is a computation in a state-and-exception
    monad over the [World]; the services the code only calls (the object
    store, the relational store, sharp, uuid, crypto, URL) are the fields of
    an environment [Env], so that every theorem holds for each behaviour of
    those services, failures included. *)

From Stdlib Require Import String Ascii List Bool Arith ZArith Lia.
From stdpp Require Import base option gmap strings list fin_maps.

Local Open Scope string_scope.
Set Warnings "-clear-no-such-hyp".

(** ** Strings, as the JavaScript code uses them *)

Module Js.

(** JavaScript truthiness of a value that is [undefined]/[null] or a
    string: only a non-empty string is truthy. *)
Definition truthy (v : option string) : bool :=
  match v with
  | Some s => negb (String.eqb s "")
  | None => false
  end.

(** [a || b] on strings. *)
Definition or_else (v : option string) (d : string) : string :=
  if truthy v then default d v else d.

(** [s.startsWith(p)] *)
Definition startsWith (p s : string) : bool := String.prefix p s.

(** [s.split('/')] read from its end: the last element of the array. *)
Fixpoint split_last (sep : ascii) (acc s : string) : string :=
  match s with
  | EmptyString => acc
  | String c s' =>
      if Ascii.eqb c sep then split_last sep "" s'
      else split_last sep (acc ++ String c "") s'
  end.

Definition last_segment (s : string) : string := split_last "/"%char "" s.

(** [s.replace(/c/g, d)] for a one-character pattern. *)
Fixpoint replace_all (c d : ascii) (s : string) : string :=
  match s with
  | EmptyString => EmptyString
  | String x s' => String (if Ascii.eqb x c then d else x) (replace_all c d s')
  end.

(** A string is held as the bytes of its UTF-8 encoding, which is how
    the text of a request reaches the process.  [s.length] counts UTF-16
    code units: one for a character of one, two or three bytes, two for a
    character of four bytes (a character beyond U+FFFF is a surrogate
    pair); the bytes that continue a character count for nothing. *)
Definition code_units (c : ascii) : N :=
  let n := N_of_ascii c in
  if N.ltb n 128 then 1%N
  else if N.ltb n 192 then 0%N
  else if N.ltb n 240 then 1%N
  else 2%N.

Fixpoint length (s : string) : N :=
  match s with
  | EmptyString => 0%N
  | String c s' => (code_units c + length s')%N
  end.

(** The white space and the line terminators of ECMAScript, which
    [String.prototype.trim] removes and [parseInt] skips.  In the ASCII
    range: the space, and U+0009 to U+000D. *)
Definition is_space (c : ascii) : bool :=
  let n := nat_of_ascii c in
  Nat.eqb n 32 || (Nat.leb 9 n && Nat.leb n 13).

(** Of two bytes: U+00A0. *)
Definition white2 (a b : ascii) : bool :=
  Nat.eqb (nat_of_ascii a) 194 && Nat.eqb (nat_of_ascii b) 160.

(** Of three bytes: U+1680, U+2000 to U+200A, U+2028, U+2029, U+202F,
    U+205F, U+3000 and U+FEFF. *)
Definition white3 (a b c : ascii) : bool :=
  let a := nat_of_ascii a in
  let b := nat_of_ascii b in
  let c := nat_of_ascii c in
  (Nat.eqb a 225 && Nat.eqb b 154 && Nat.eqb c 128)
  || (Nat.eqb a 226 && Nat.eqb b 128
      && ((Nat.leb 128 c && Nat.leb c 138) || Nat.eqb c 168 || Nat.eqb c 169
          || Nat.eqb c 175))
  || (Nat.eqb a 226 && Nat.eqb b 129 && Nat.eqb c 159)
  || (Nat.eqb a 227 && Nat.eqb b 128 && Nat.eqb c 128)
  || (Nat.eqb a 239 && Nat.eqb b 187 && Nat.eqb c 191).

(** What is left of a string once the white space at its head is gone. *)
Fixpoint skip_white (l : list ascii) : list ascii :=
  match l with
  | a :: l1 =>
      if is_space a then skip_white l1
      else
        match l1 with
        | b :: l2 =>
            if white2 a b then skip_white l2
            else
              match l2 with
              | c :: l3 => if white3 a b c then skip_white l3 else l
              | [] => l
              end
        | [] => l
        end
  | [] => []
  end.

(** [s.trim() === '']: the string is white space from end to end. *)
Definition trim_is_empty (s : string) : bool :=
  match skip_white (list_ascii_of_string s) with
  | [] => true
  | _ :: _ => false
  end.

End Js.

(** ** The state of the outside world *)

Definition bytes := list Byte.byte.

Inductive bucket := IMAGES_BUCKET | THUMBNAILS_BUCKET.

Definition bucket_name (b : bucket) : string :=
  match b with
  | IMAGES_BUCKET => "board-images"
  | THUMBNAILS_BUCKET => "board-thumbnails"
  end.

#[global] Instance bucket_eq_dec : EqDecision bucket.
Proof. solve_decision. Defined.

Inductive table := THREADS | POSTS.

#[global] Instance table_eq_dec : EqDecision table.
Proof. solve_decision. Defined.

(** A row of [threads]; the columns the controller writes. *)
Record Thread := mkThread {
  t_id : string;
  t_subject : option string;
  t_comment : option string;
  t_name : string;
  t_tripcode : option string;
  t_is_nsfw : bool;
  t_file_name : option string;
  t_file_path : option string;
  t_file_size : option nat;
  t_file_type : option string;
  t_thumbnail_path : option string;
  t_storage_path : option string;
  t_images_count : option nat
}.

(** A row of [posts]. *)
Record Post := mkPost {
  p_id : string;
  p_thread_id : string;
  p_comment : option string;
  p_name : string;
  p_tripcode : option string;
  p_is_nsfw : bool;
  p_reply_to : option string;
  p_file_name : option string;
  p_file_path : option string;
  p_file_size : option nat;
  p_file_type : option string;
  p_thumbnail_path : option string;
  p_storage_path : option string
}.

(** What the program asks of its collaborators. *)
Inductive call :=
| StorageUpload (b : bucket) (key : string) (contentType : string)
| StorageRemove (b : bucket) (key : string)
| StorageList (b : bucket)
| DbSelectPaths (t : table)
| DbSelectSingle (t : table) (id : string)
| DbSelectPostsOf (thread_id : string)
| DbInsert (t : table) (id : string)
| DbDelete (t : table) (id : string)
| DbDeletePostsOf (thread_id : string)
| DbUpdateBump (thread_id : string)
| DbRpc (name : string) (thread_id : string)
| SharpResize (width : nat).

(** What an observer sees of a run: the calls made, with their outcome, and
    the lines written with [console.error]. *)
Inductive event :=
| Called (c : call) (ok : bool)
| ConsoleError (msg : string).

Record World := mkWorld {
  images : gmap string bytes;
  thumbnails : gmap string bytes;
  threads : gmap string Thread;
  posts : gmap string Post;
  rng : nat;
  trace : list event
}.

Definition objects (b : bucket) (w : World) : gmap string bytes :=
  match b with
  | IMAGES_BUCKET => images w
  | THUMBNAILS_BUCKET => thumbnails w
  end.

Definition set_objects (b : bucket) (m : gmap string bytes) (w : World) : World :=
  match b with
  | IMAGES_BUCKET =>
      mkWorld m (thumbnails w) (threads w) (posts w) (rng w) (trace w)
  | THUMBNAILS_BUCKET =>
      mkWorld (images w) m (threads w) (posts w) (rng w) (trace w)
  end.

Definition set_threads (m : gmap string Thread) (w : World) : World :=
  mkWorld (images w) (thumbnails w) m (posts w) (rng w) (trace w).

Definition set_posts (m : gmap string Post) (w : World) : World :=
  mkWorld (images w) (thumbnails w) (threads w) m (rng w) (trace w).

Definition emit (e : event) (w : World) : World :=
  mkWorld (images w) (thumbnails w) (threads w) (posts w) (rng w)
          (trace w ++ [e]).

Definition tick (w : World) : World :=
  mkWorld (images w) (thumbnails w) (threads w) (posts w) (S (rng w)) (trace w).

(** The services behind the program.  [fails] decides which calls the
    object store and the relational store answer with an error (a call is
    answered the same way each time it is made with the same arguments); [cascade]
    says whether the foreign key of [posts] deletes the posts of a deleted
    thread; [list_names] is what one [list()] returns of the names of a
    bucket (all of them, for a store that lists every key); [update_thread_counts] is the stored procedure of that name,
    applied to the row of the thread it is called for. *)
Record Env := mkEnv {
  TRIPCODE_SALT : option string;
  sha256_base64 : string -> string;
  uuidv4 : nat -> string;
  extname : string -> string;
  readFileSync : string -> option bytes;
  sharp_resize : nat -> bytes -> option bytes;
  publicUrl : bucket -> string -> string;
  URL_pathname : string -> option string;
  list_names : bucket -> list string -> list string;
  update_thread_counts : Z -> Z -> Thread -> Thread;
  fails : call -> bool;
  cascade : bool
}.

(** ** Computations: state and exceptions *)

Inductive outcome (A : Type) :=
| Ret (a : A)
| Throw (err : string).

Arguments Ret {A} a.
Arguments Throw {A} err.

Definition M (A : Type) : Type := World -> outcome A * World.

Definition ret {A} (a : A) : M A := fun w => (Ret a, w).

Definition throw {A} (err : string) : M A := fun w => (Throw err, w).

Definition bind {A B} (m : M A) (k : A -> M B) : M B :=
  fun w =>
    match m w with
    | (Ret a, w') => k a w'
    | (Throw e, w') => (Throw e, w')
    end.

(** [try { m } catch (err) { h err }]: what [m] did before it threw stays
    done. *)
Definition try_catch {A} (m : M A) (h : string -> M A) : M A :=
  fun w =>
    match m w with
    | (Ret a, w') => (Ret a, w')
    | (Throw e, w') => h e w'
    end.

Declare Scope js_scope.
Delimit Scope js_scope with js.
Notation "x <- m ;; k" := (bind m (fun x => k))
  (at level 20, m at level 99, k at level 200, only parsing) : js_scope.
Notation "'run' m ;; k" := (bind m (fun _ => k))
  (at level 20, m at level 99, k at level 200, only parsing) : js_scope.
Local Open Scope js_scope.

Definition console_error (msg : string) : M unit :=
  fun w => (Ret tt, emit (ConsoleError msg) w).

(** ** The storage gateway and the relational store, as the code calls them

    The client reports a failure in the [error] field of its answer, which
    the code reads after each call; it does not throw. *)

Section Program.

Context (env : Env).

(** [supabase.storage.from(b).upload(key, buf, { contentType, upsert: false })];
    the result is whether [error] is unset.  With [upsert: false] an
    existing object is never overwritten. *)
Definition storage_upload (b : bucket) (key : string) (buf : bytes)
    (contentType : string) : M bool :=
  fun w =>
    let c := StorageUpload b key contentType in
    if fails env c || bool_decide (is_Some (objects b w !! key))
    then (Ret false, emit (Called c false) w)
    else (Ret true, emit (Called c true) (set_objects b (<[key := buf]> (objects b w)) w)).

(** [supabase.storage.from(b).remove([key])]: removing a key that names no
    object is not an error. *)
Definition storage_remove (b : bucket) (key : string) : M bool :=
  fun w =>
    let c := StorageRemove b key in
    if fails env c
    then (Ret false, emit (Called c false) w)
    else (Ret true, emit (Called c true) (set_objects b (delete key (objects b w)) w)).

(** [supabase.storage.from(b).list()]: the names the store lists for the
    bucket, or an error. *)
Definition storage_list (b : bucket) : M (option (list string)) :=
  fun w =>
    let c := StorageList b in
    if fails env c
    then (Ret None, emit (Called c false) w)
    else (Ret (Some (list_names env b (map_to_list (objects b w)).*1)),
          emit (Called c true) w).

(** [supabase.storage.from(b).getPublicUrl(key).data.publicUrl] *)
Definition getPublicUrl (b : bucket) (key : string) : string :=
  publicUrl env b key.

(** [uuidv4()] *)
Definition fresh_uuid : M string :=
  fun w => (Ret (uuidv4 env (rng w)), tick w).

(** [await sharp(buf).resize(width).toBuffer()], which throws on bytes it
    cannot decode. *)
Definition sharp (width : nat) (buf : bytes) : M bytes :=
  fun w =>
    match sharp_resize env width buf with
    | Some out => (Ret out, emit (Called (SharpResize width) true) w)
    | None => (Throw "Input buffer contains unsupported image format",
               emit (Called (SharpResize width) false) w)
    end.

(** ** utils/fileStorage.js *)

(** The file object that multer hands over. *)
Record File := mkFile {
  originalname : option string;
  mimetype : string;
  size : nat;
  buffer : option bytes;
  path : string
}.

(** The metadata [uploadFile] returns. *)
Record UploadedFile := mkUploadedFile {
  fileName : option string;
  fileSize : nat;
  fileType : string;
  filePath : string;
  thumbnailPath : option string;
  storagePath : string
}.

Definition nsfw_prefix (isNsfw : bool) : string :=
  if isNsfw then "nsfw/" else "".

Definition uploadFile (file : option File) (isNsfw : bool) : M (option UploadedFile) :=
  match file with
  | None => run console_error "No file provided" ;; ret None
  | Some file =>
    try_catch
      (let fileExt := extname env (Js.or_else (originalname file) "unknown.jpg") in
       uuid <- fresh_uuid ;;
       let fileName := uuid ++ fileExt in
       let storagePath := nsfw_prefix isNsfw ++ fileName in
       fileBuffer <-
         match buffer file with
         | Some buf => ret buf
         | None =>
             match readFileSync env (path file) with
             | Some buf => ret buf
             | None => throw "ENOENT: no such file or directory"
             end
         end ;;
       uploaded <- storage_upload IMAGES_BUCKET storagePath fileBuffer (mimetype file) ;;
       if negb uploaded
       then run console_error "Error uploading file:" ;; throw "uploadError"
       else
         let urlData := getPublicUrl IMAGES_BUCKET storagePath in
         let isImage := Js.startsWith "image/" (mimetype file) in
         thumbnailUrl <-
           (if isImage then
              try_catch
                (thumbnailBuffer <- sharp 200 fileBuffer ;;
                 let thumbnailPath := nsfw_prefix isNsfw ++ fileName in
                 thumbed <- storage_upload THUMBNAILS_BUCKET thumbnailPath
                              thumbnailBuffer "image/jpeg" ;;
                 if negb thumbed
                 then run console_error "Error creating thumbnail:" ;; ret None
                 else ret (Some (getPublicUrl THUMBNAILS_BUCKET thumbnailPath)))
                (fun thumbErr => run console_error "Error processing thumbnail:" ;; ret None)
            else ret None) ;;
         ret (Some {| fileName := originalname file;
                      fileSize := size file;
                      fileType := mimetype file;
                      filePath := urlData;
                      thumbnailPath := thumbnailUrl;
                      storagePath := storagePath |}))
      (fun err => run console_error "Error in uploadFile:" ;; ret None)
  end.

(** [deleteFile(storagePath, thumbnailPath = null)].  The local [path] the
    source computes from [storagePath] is never used and is left out. *)
Definition deleteFile (storagePath thumbnailPath : option string) : M bool :=
  try_catch
    (run (if Js.truthy storagePath then
        removed <- storage_remove IMAGES_BUCKET (default "" storagePath) ;;
        if negb removed then console_error "Error deleting file:" else ret tt
        else ret tt) ;;
     run (if Js.truthy thumbnailPath then
        let thumbnailPath := default "" thumbnailPath in
        thumbnailStoragePath <-
          (if Js.startsWith "http" thumbnailPath then
             match URL_pathname env thumbnailPath with
             | Some pathname => ret (Js.last_segment pathname)
             | None => throw "TypeError: Invalid URL"
             end
           else ret thumbnailPath) ;;
        removed <- storage_remove THUMBNAILS_BUCKET thumbnailStoragePath ;;
        if negb removed then console_error "Error deleting thumbnail:" else ret tt
        else ret tt) ;;
     ret true)
    (fun err => run console_error "Error during file deletion:" ;; ret false).

End Program.

(** ** utils/fileUtils.js: tripcodes *)

Section Tripcode.

Context (env : Env).

Definition generateTripcode (password : option string) : option string :=
  if negb (Js.truthy password) then None
  else
    let salt := Js.or_else (TRIPCODE_SALT env) "defaultsalt" in
    let digest := sha256_base64 env (default "" password ++ salt) in
    let hash :=
      Js.replace_all "=" "-"
        (Js.replace_all "/" ","
           (Js.replace_all "+" "." (String.substring 0 10 digest))) in
    Some hash.

(** [generatedTripcode === tripcode] *)
Definition verifyTripcode (password tripcode : option string) : bool :=
  bool_decide (generateTripcode password = tripcode).

End Tripcode.

(** ** utils/cleanup.js: the orphan reconciler *)

Section Cleanup.

Context (env : Env).

(** [supabase.from(t).select('storage_path').not('storage_path', 'is', null)]:
    the non-null [storage_path] of every row, or an error. *)
Definition db_select_storage_paths (t : table) : M (option (list string)) :=
  fun w =>
    let c := DbSelectPaths t in
    if fails env c then (Ret None, emit (Called c false) w)
    else
      let paths :=
        match t with
        | THREADS => omap t_storage_path (map_to_list (threads w)).*2
        | POSTS => omap p_storage_path (map_to_list (posts w)).*2
        end in
      (Ret (Some paths), emit (Called c true) w).

(** [records.forEach(record => { if (record.storage_path) validPaths.add(...) })] *)
Definition add_paths (validPaths : gset string) (records : list string) : gset string :=
  foldl (fun acc p => if Js.truthy (Some p) then acc ∪ {[ p ]} else acc)
        validPaths records.

(** One [for (const file of files)] loop of the sweep. *)
Fixpoint sweep (b : bucket) (validPaths : gset string) (files : list string)
    (deletedCount : nat) : M nat :=
  match files with
  | [] => ret deletedCount
  | name :: rest =>
      if bool_decide (name ∈ validPaths) then sweep b validPaths rest deletedCount
      else
        removed <- storage_remove env b name ;;
        sweep b validPaths rest (if removed then S deletedCount else deletedCount)
  end.

Definition cleanupOrphanedFiles : M nat :=
  try_catch
    (imageFiles <- storage_list env IMAGES_BUCKET ;;
     match imageFiles with
     | None => throw "imgError"
     | Some imageFiles =>
     thumbnailFiles <- storage_list env THUMBNAILS_BUCKET ;;
     match thumbnailFiles with
     | None => throw "thumbError"
     | Some thumbnailFiles =>
     threadPaths <- db_select_storage_paths THREADS ;;
     match threadPaths with
     | None => throw "threadError"
     | Some threadPaths =>
     postPaths <- db_select_storage_paths POSTS ;;
     match postPaths with
     | None => throw "postError"
     | Some postPaths =>
         let validPaths := add_paths (add_paths ∅ threadPaths) postPaths in
         deletedCount <- sweep IMAGES_BUCKET validPaths imageFiles 0 ;;
         deletedCount <- sweep THUMBNAILS_BUCKET validPaths thumbnailFiles deletedCount ;;
         ret deletedCount
     end end end end)
    (fun err => run console_error "Error during file cleanup:" ;; ret 0).

End Cleanup.

(** ** utils/validations.js *)

(** A value of a request body, before validation. *)
Inductive jsval :=
| JUndefined
| JNull
| JBool (b : bool)
| JNumber (n : Z)
| JString (s : string).

(** The body of [POST /thread], by key; the schema turns down a body with
    any other key. *)
Record ThreadBody := mkThreadBody {
  subject : jsval;
  comment : jsval;
  name : jsval;
  password : jsval;
  is_nsfw : jsval
}.

(** The body once Joi has accepted it, its defaults filled in. *)
Record ThreadValue := mkThreadValue {
  v_subject : option string;
  v_comment : option string;
  v_name : string;
  v_password : option string;
  v_is_nsfw : bool
}.

(** The body of [POST /thread/:id/reply], as [validatePost] leaves it. *)
Record PostValue := mkPostValue {
  r_comment : option string;
  r_name : string;
  r_password : option string;
  r_is_nsfw : bool;
  r_reply_to : option string
}.

Module Joi.

(** Joi's error codes, for the rules the schemas use. *)
Inductive error :=
| any_required (key : string)
| string_base (key : string)
| string_empty (key : string)
| string_min (key : string) (limit : N)
| string_max (key : string) (limit : N)
| boolean_base (key : string).

(** [Joi.string()] with the rules the schemas add to it.  The result is
    the validated value; [None] stands for [undefined] or [null].  The
    limits of [min] and [max] are compared with [value.length], the number
    of UTF-16 code units. *)
Record string_rule := mkStringRule {
  required : bool;
  min : option N;
  max : option N;
  allow_empty_null : bool;
  default_value : option string
}.

Definition string_ (key : string) (r : string_rule) (v : jsval)
    : error + option string :=
  match v with
  | JUndefined =>
      if required r then inl (any_required key) else inr (default_value r)
  | JNull =>
      if allow_empty_null r then inr None else inl (string_base key)
  | JString s =>
      if String.eqb s "" then
        if allow_empty_null r then inr (Some s) else inl (string_empty key)
      else
        match min r with
        | Some n =>
            if N.ltb (Js.length s) n then inl (string_min key n) else
            match max r with
            | Some m => if N.ltb m (Js.length s) then inl (string_max key m) else inr (Some s)
            | None => inr (Some s)
            end
        | None =>
            match max r with
            | Some m => if N.ltb m (Js.length s) then inl (string_max key m) else inr (Some s)
            | None => inr (Some s)
            end
        end
  | JBool _ | JNumber _ => inl (string_base key)
  end.

Definition lower (c : ascii) : ascii :=
  let n := nat_of_ascii c in
  if Nat.leb 65 n && Nat.leb n 90 then ascii_of_nat (n + 32) else c.

Fixpoint lowercase (s : string) : string :=
  match s with
  | EmptyString => EmptyString
  | String c s' => String (lower c) (lowercase s')
  end.

(** [Joi.boolean().default(false)]: the strings [true] and [false] are
    converted, whatever their case. *)
Definition boolean_ (key : string) (v : jsval) : error + bool :=
  match v with
  | JUndefined => inr false
  | JBool b => inr b
  | JString s =>
      if String.eqb (lowercase s) "true" then inr true
      else if String.eqb (lowercase s) "false" then inr false
      else inl (boolean_base key)
  | JNull | JNumber _ => inl (boolean_base key)
  end.

End Joi.

(** The schema of [validateThread]; the keys are checked in the order the
    schema lists them, and the first error ends the validation. *)
Definition thread_schema (body : ThreadBody) : Joi.error + ThreadValue :=
  match Joi.string_ "subject" (Joi.mkStringRule false None (Some 100%N) true None) (subject body) with
  | inl e => inl e
  | inr subject =>
  match Joi.string_ "comment" (Joi.mkStringRule true (Some 1%N) (Some 10000%N) false None) (comment body) with
  | inl e => inl e
  | inr comment =>
  match Joi.string_ "name" (Joi.mkStringRule false None (Some 50%N) false (Some "Anonymous")) (name body) with
  | inl e => inl e
  | inr name =>
  match Joi.string_ "password" (Joi.mkStringRule false None None true None) (password body) with
  | inl e => inl e
  | inr password =>
  match Joi.boolean_ "is_nsfw" (is_nsfw body) with
  | inl e => inl e
  | inr is_nsfw =>
      inr {| v_subject := subject; v_comment := comment;
             v_name := default "Anonymous" name;
             v_password := password; v_is_nsfw := is_nsfw |}
  end end end end end.

(** What a handler answers. *)
Inductive payload :=
| ErrorMessage (error : string)
| ValidationError (details : list Joi.error)
| Message (message : string)
| Created (message : string) (thread : Thread)
| Replied (message : string) (post : Post).

Record response := mkResponse {
  status : nat;
  json : payload
}.

(** [!req.body.comment || req.body.comment.trim() === ''].  The schema has
    already rejected every comment that is not a string when this runs
    (a truthy one would have no [trim]). *)
Definition comment_is_blank (c : jsval) : bool :=
  match c with
  | JString s => String.eqb s "" || Js.trim_is_empty s
  | JUndefined | JNull => true
  | JBool b => negb b
  | JNumber n => Z.eqb n 0
  end.

(** [validateThread(req, res, next)]: a response, or [next()] with the body
    replaced by the validated value. *)
Definition validateThread (has_file : bool) (body : ThreadBody)
    : response + ThreadValue :=
  match thread_schema body with
  | inl e => inl (mkResponse 400 (ValidationError [e]))
  | inr value =>
      if negb has_file && comment_is_blank (comment body)
      then inl (mkResponse 400 (ErrorMessage "Either an image or comment is required"))
      else inr value
  end.

(** ** middlewares/fileUpload.js and controllers/thread.js *)

(** The answer of [.single()]: the row, no row ([PGRST116]) or another
    error. *)
Inductive single (A : Type) :=
| Row (a : A)
| PGRST116
| DbError.

Arguments Row {A} a.
Arguments PGRST116 {A}.
Arguments DbError {A}.

Section Controller.

Context (env : Env).

(** [processUpload]: uploads [req.file], if any, and sets [req.fileData].
    The temporary file it unlinks afterwards lives on a disk that the
    [World] does not hold. *)
Definition processUpload (file : option File) (is_nsfw : jsval)
    : M (response + option UploadedFile) :=
  match file with
  | None => ret (inr None)
  | Some _ =>
      let isNsfw :=
        match is_nsfw with
        | JString s => String.eqb s "true"
        | JBool b => b
        | _ => false
        end in
      fileData <- uploadFile env file isNsfw ;;
      match fileData with
      | None =>
          run console_error "File upload to Supabase failed" ;;
          ret (inl (mkResponse 500 (ErrorMessage "Failed to upload file")))
      | Some fileData => ret (inr (Some fileData))
      end
  end.

(** [supabase.from('threads').insert([threadData]).select()]; the
    identifier is the primary key. *)
Definition db_insert_thread (row : Thread) : M (option Thread) :=
  fun w =>
    let c := DbInsert THREADS (t_id row) in
    if fails env c || bool_decide (is_Some (threads w !! t_id row))
    then (Ret None, emit (Called c false) w)
    else (Ret (Some row),
          emit (Called c true) (set_threads (<[t_id row := row]> (threads w)) w)).

(** [supabase.from('threads').select('*').eq('id', id).single()] *)
Definition db_single_thread (id : string) : M (single Thread) :=
  fun w =>
    let c := DbSelectSingle THREADS id in
    if fails env c then (Ret DbError, emit (Called c false) w)
    else
      match threads w !! id with
      | Some row => (Ret (Row row), emit (Called c true) w)
      | None => (Ret PGRST116, emit (Called c false) w)
      end.

(** [supabase.from('posts').select('*').eq('id', id).single()] *)
Definition db_single_post (id : string) : M (single Post) :=
  fun w =>
    let c := DbSelectSingle POSTS id in
    if fails env c then (Ret DbError, emit (Called c false) w)
    else
      match posts w !! id with
      | Some row => (Ret (Row row), emit (Called c true) w)
      | None => (Ret PGRST116, emit (Called c false) w)
      end.

Definition posts_of (thread_id : string) (m : gmap string Post) : gmap string Post :=
  filter (fun kv => p_thread_id kv.2 = thread_id) m.

Definition posts_not_of (thread_id : string) (m : gmap string Post) : gmap string Post :=
  filter (fun kv => p_thread_id kv.2 <> thread_id) m.

(** [supabase.from('threads').delete().eq('id', id)]; where the foreign
    key cascades, the posts of the thread go with it. *)
Definition db_delete_thread (id : string) : M bool :=
  fun w =>
    let c := DbDelete THREADS id in
    if fails env c then (Ret false, emit (Called c false) w)
    else
      let w1 := set_threads (delete id (threads w)) w in
      let w2 := if cascade env then set_posts (posts_not_of id (posts w1)) w1 else w1 in
      (Ret true, emit (Called c true) w2).

(** [supabase.from('posts').delete().eq('id', id)] *)
Definition db_delete_post (id : string) : M bool :=
  fun w =>
    let c := DbDelete POSTS id in
    if fails env c then (Ret false, emit (Called c false) w)
    else (Ret true, emit (Called c true) (set_posts (delete id (posts w)) w)).

(** [supabase.from('posts').select('storage_path, thumbnail_path').eq('thread_id', id)];
    [data] is [null] on error. *)
Definition db_select_posts_of (thread_id : string) : M (option (list Post)) :=
  fun w =>
    let c := DbSelectPostsOf thread_id in
    if fails env c then (Ret None, emit (Called c false) w)
    else (Ret (Some (map_to_list (posts_of thread_id (posts w))).*2),
          emit (Called c true) w).

(** [supabase.from('posts').delete().eq('thread_id', id)] *)
Definition db_delete_posts_of (thread_id : string) : M bool :=
  fun w =>
    let c := DbDeletePostsOf thread_id in
    if fails env c then (Ret false, emit (Called c false) w)
    else (Ret true, emit (Called c true) (set_posts (posts_not_of thread_id (posts w)) w)).

(** [supabase.rpc('update_thread_counts', { thread_id, images_adjustment, posts_adjustment })] *)
Definition db_rpc_update_thread_counts (thread_id : string)
    (images_adjustment posts_adjustment : Z) : M bool :=
  fun w =>
    let c := DbRpc "update_thread_counts" thread_id in
    if fails env c then (Ret false, emit (Called c false) w)
    else (Ret true,
          emit (Called c true)
            (set_threads
               (alter (update_thread_counts env images_adjustment posts_adjustment)
                      thread_id (threads w)) w)).

(** [createThread]: [req.body] is the value [validateThread] left there.
    The columns [ip_address], [created_at] and [bumped_at] are not part of
    the rows of the [World]. *)
Definition createThread (body : ThreadValue) (fileData : option UploadedFile)
    : M response :=
  try_catch
    (let tripcode :=
       if Js.truthy (v_password body) then generateTripcode env (v_password body)
       else None in
     id <- fresh_uuid env ;;
     let threadData :=
       {| t_id := id;
          t_subject := if Js.truthy (v_subject body) then v_subject body else None;
          t_comment := v_comment body;
          t_name := Js.or_else (Some (v_name body)) "Anonymous";
          t_tripcode := tripcode;
          t_is_nsfw := v_is_nsfw body;
          t_file_name := None; t_file_path := None; t_file_size := None;
          t_file_type := None; t_thumbnail_path := None;
          t_storage_path := None; t_images_count := None |} in
     let threadData :=
       match fileData with
       | Some fileData =>
           {| t_id := t_id threadData;
              t_subject := t_subject threadData;
              t_comment := t_comment threadData;
              t_name := t_name threadData;
              t_tripcode := t_tripcode threadData;
              t_is_nsfw := t_is_nsfw threadData;
              t_file_name := fileName fileData;
              t_file_path := Some (filePath fileData);
              t_file_size := Some (fileSize fileData);
              t_file_type := Some (fileType fileData);
              t_thumbnail_path := thumbnailPath fileData;
              t_storage_path := Some (storagePath fileData);
              t_images_count := Some 1 |}
       | None => threadData
       end in
     inserted <- db_insert_thread threadData ;;
     match inserted with
     | None => throw "error"
     | Some row => ret (mkResponse 201 (Created "Thread created successfully" row))
     end)
    (fun err =>
       run console_error "Error creating thread:" ;;
       run (match fileData with
            | Some fileData =>
                if Js.truthy (Some (storagePath fileData))
                then _ <- deleteFile env (Some (storagePath fileData))
                                    (thumbnailPath fileData) ;; ret tt
                else ret tt
            | None => ret tt
            end) ;;
       ret (mkResponse 500 (ErrorMessage "Failed to create thread"))).

(** [supabase.from('posts').insert([postData]).select()] *)
Definition db_insert_post (row : Post) : M (option Post) :=
  fun w =>
    let c := DbInsert POSTS (p_id row) in
    if fails env c || bool_decide (is_Some (posts w !! p_id row))
    then (Ret None, emit (Called c false) w)
    else (Ret (Some row),
          emit (Called c true) (set_posts (<[p_id row := row]> (posts w)) w)).

(** [supabase.from('threads').update({ bumped_at: new Date() }).eq('id', id)];
    the rows of the [World] carry no time. *)
Definition db_bump_thread (thread_id : string) : M bool :=
  fun w =>
    let c := DbUpdateBump thread_id in
    if fails env c then (Ret false, emit (Called c false) w)
    else (Ret true, emit (Called c true) w).

(** [replyToThread]: [req.body] is the value [validatePost] left there. *)
Definition replyToThread (threadId : string) (body : PostValue)
    (fileData : option UploadedFile) : M response :=
  try_catch
    (found <- db_single_thread threadId ;;
     match found with
     | PGRST116 => ret (mkResponse 404 (ErrorMessage "Thread not found"))
     | DbError => throw "threadError"
     | Row thread =>
         let tripcode :=
           if Js.truthy (r_password body) then generateTripcode env (r_password body)
           else None in
         id <- fresh_uuid env ;;
         let postData :=
           {| p_id := id;
              p_thread_id := threadId;
              p_comment := r_comment body;
              p_name := Js.or_else (Some (r_name body)) "Anonymous";
              p_tripcode := tripcode;
              p_is_nsfw := r_is_nsfw body;
              p_reply_to := if Js.truthy (r_reply_to body) then r_reply_to body else None;
              p_file_name := None; p_file_path := None; p_file_size := None;
              p_file_type := None; p_thumbnail_path := None;
              p_storage_path := None |} in
         let postData :=
           match fileData with
           | Some fileData =>
               {| p_id := p_id postData;
                  p_thread_id := p_thread_id postData;
                  p_comment := p_comment postData;
                  p_name := p_name postData;
                  p_tripcode := p_tripcode postData;
                  p_is_nsfw := p_is_nsfw postData;
                  p_reply_to := p_reply_to postData;
                  p_file_name := fileName fileData;
                  p_file_path := Some (filePath fileData);
                  p_file_size := Some (fileSize fileData);
                  p_file_type := Some (fileType fileData);
                  p_thumbnail_path := thumbnailPath fileData;
                  p_storage_path := Some (storagePath fileData) |}
           | None => postData
           end in
         inserted <- db_insert_post postData ;;
         match inserted with
         | None => throw "error"
         | Some row =>
             _ <- db_bump_thread threadId ;;
             ret (mkResponse 201 (Replied "Reply posted successfully" row))
         end
     end)
    (fun err =>
       run console_error "Error creating reply:" ;;
       run (match fileData with
            | Some fileData =>
                if Js.truthy (Some (storagePath fileData))
                then _ <- deleteFile env (Some (storagePath fileData))
                                    (thumbnailPath fileData) ;; ret tt
                else ret tt
            | None => ret tt
            end) ;;
       ret (mkResponse 500 (ErrorMessage "Failed to post reply"))).

(** The [for (const post of posts)] loop of [deleteThread]. *)
Fixpoint delete_post_files (posts : list Post) : M unit :=
  match posts with
  | [] => ret tt
  | post :: rest =>
      run (if Js.truthy (p_storage_path post)
           then _ <- deleteFile env (p_storage_path post) (p_thumbnail_path post) ;; ret tt
           else ret tt) ;;
      delete_post_files rest
  end.

Definition deleteThread (threadId : string) (password : option string) : M response :=
  try_catch
    (if negb (Js.truthy password)
     then ret (mkResponse 400 (ErrorMessage "Password is required"))
     else
       found <- db_single_thread threadId ;;
       match found with
       | PGRST116 => ret (mkResponse 404 (ErrorMessage "Thread not found"))
       | DbError => throw "threadError"
       | Row thread =>
           if negb (Js.truthy (t_tripcode thread))
              || negb (verifyTripcode env password (t_tripcode thread))
           then ret (mkResponse 403 (ErrorMessage "Invalid password"))
           else
             deleted <- db_delete_thread threadId ;;
             if negb deleted then throw "error"
             else
               run (if Js.truthy (t_storage_path thread)
                    then _ <- deleteFile env (t_storage_path thread)
                                        (t_thumbnail_path thread) ;; ret tt
                    else ret tt) ;;
               posts <- db_select_posts_of threadId ;;
               run (match posts with
                    | Some posts => delete_post_files posts
                    | None => ret tt
                    end) ;;
               _ <- db_delete_posts_of threadId ;;
               ret (mkResponse 200 (Message "Thread deleted successfully"))
       end)
    (fun err =>
       run console_error "Error deleting thread:" ;;
       ret (mkResponse 500 (ErrorMessage "Failed to delete thread"))).

Definition deletePost (postId : string) (password : option string) : M response :=
  try_catch
    (if negb (Js.truthy password)
     then ret (mkResponse 400 (ErrorMessage "Password is required"))
     else
       found <- db_single_post postId ;;
       match found with
       | PGRST116 => ret (mkResponse 404 (ErrorMessage "Post not found"))
       | DbError => throw "postError"
       | Row post =>
           if negb (Js.truthy (p_tripcode post))
              || negb (verifyTripcode env password (p_tripcode post))
           then ret (mkResponse 403 (ErrorMessage "Invalid password"))
           else
             deleted <- db_delete_post postId ;;
             if negb deleted then throw "error"
             else
               run (if Js.truthy (p_storage_path post)
                    then _ <- deleteFile env (p_storage_path post)
                                        (p_thumbnail_path post) ;; ret tt
                    else ret tt) ;;
               _ <- db_rpc_update_thread_counts (p_thread_id post)
                      (if Js.truthy (p_file_path post) then (-1)%Z else 0%Z) (-1)%Z ;;
               ret (mkResponse 200 (Message "Post deleted successfully"))
       end)
    (fun err =>
       run console_error "Error deleting post:" ;;
       ret (mkResponse 500 (ErrorMessage "Failed to delete post"))).

(** [POST /thread]: [fileUpload.single('file')], then [validateThread],
    then [createThread]. *)
Definition post_thread (file : option File) (body : ThreadBody) : M response :=
  uploaded <- processUpload file (is_nsfw body) ;;
  match uploaded with
  | inl res => ret res
  | inr fileData =>
      match validateThread (bool_decide (is_Some file)) body with
      | inl res => ret res
      | inr value => createThread value fileData
      end
  end.

(** [POST /thread/:id/reply] for a body that [validatePost] accepts:
    [fileUpload.single('file')], then [replyToThread]. *)
Definition post_reply (threadId : string) (file : option File) (body : PostValue)
    : M response :=
  uploaded <- processUpload file (JBool (r_is_nsfw body)) ;;
  match uploaded with
  | inl res => ret res
  | inr fileData => replyToThread threadId body fileData
  end.

End Controller.

(** ** The Node.js platform, for running the program on concrete inputs *)

Module Sha256.

Local Open Scope N_scope.

Definition w32 (x : N) : N := N.land x 0xffffffff.
Definition add32 (a b : N) : N := w32 (a + b).
Definition rotr (n x : N) : N := N.lor (N.shiftr x n) (w32 (N.shiftl x (32 - n))).
Definition shr (n x : N) : N := N.shiftr x n.
Definition not32 (x : N) : N := N.lxor x 0xffffffff.

Definition Ch (x y z : N) : N := N.lxor (N.land x y) (N.land (not32 x) z).
Definition Maj (x y z : N) : N :=
  N.lxor (N.lxor (N.land x y) (N.land x z)) (N.land y z).
Definition Sigma0 (x : N) : N := N.lxor (N.lxor (rotr 2 x) (rotr 13 x)) (rotr 22 x).
Definition Sigma1 (x : N) : N := N.lxor (N.lxor (rotr 6 x) (rotr 11 x)) (rotr 25 x).
Definition sigma0 (x : N) : N := N.lxor (N.lxor (rotr 7 x) (rotr 18 x)) (shr 3 x).
Definition sigma1 (x : N) : N := N.lxor (N.lxor (rotr 17 x) (rotr 19 x)) (shr 10 x).

(** The first [n] primes below [bound]. *)
Definition is_prime (p : nat) : bool :=
  forallb (fun d => negb (Nat.eqb (Nat.modulo p d) 0)) (seq 2 (p - 2)).

Definition primes (n bound : nat) : list N :=
  firstn n (map N.of_nat (List.filter is_prime (seq 2 bound))).

(** The integer cube root, one bit at a time. *)
Fixpoint cube_root (bits : nat) (x r : N) : N :=
  match bits with
  | O => r
  | S b =>
      let c := r + N.shiftl 1 (N.of_nat b) in
      if c * c * c <=? x then cube_root b x c else cube_root b x r
  end.

(** The round constants: the first thirty-two bits of the fractional parts
    of the cube roots of the first sixty-four primes. *)
Definition K : list N :=
  map (fun p => w32 (cube_root 40 (N.shiftl p 96) 0)) (primes 64 312).

(** The initial hash value: the first thirty-two bits of the fractional
    parts of the square roots of the first eight primes. *)
Definition H0 : list N :=
  map (fun p => w32 (N.sqrt (N.shiftl p 64))) (primes 8 20).

(** The message, a one bit, zeros, and the bit length on eight bytes. *)
Definition pad (msg : list N) : list N :=
  let len := length msg in
  let zeros := ((64 - (len + 9) mod 64) mod 64)%nat in
  let bits := 8 * N.of_nat len in
  msg ++ [0x80] ++ repeat 0 zeros
      ++ map (fun i => N.land (N.shiftr bits (8 * i)) 0xff) [7; 6; 5; 4; 3; 2; 1; 0].

(** Big-endian words of a block. *)
Fixpoint words (block : list N) : list N :=
  match block with
  | a :: b :: c :: d :: rest =>
      (N.shiftl a 24 + N.shiftl b 16 + N.shiftl c 8 + d) :: words rest
  | _ => []
  end.

(** The message schedule, latest word first. *)
Fixpoint schedule (n : nat) (rev_w : list N) : list N :=
  match n with
  | O => rev_w
  | S n' =>
      let w := add32 (add32 (sigma1 (nth 1 rev_w 0)) (nth 6 rev_w 0))
                     (add32 (sigma0 (nth 14 rev_w 0)) (nth 15 rev_w 0)) in
      schedule n' (w :: rev_w)
  end.

Definition round (s : list N) (kw : N * N) : list N :=
  match s with
  | [a; b; c; d; e; f; g; h] =>
      let t1 := add32 (add32 (add32 h (Sigma1 e)) (add32 (Ch e f g) kw.1)) kw.2 in
      let t2 := add32 (Sigma0 a) (Maj a b c) in
      [add32 t1 t2; a; b; c; add32 d t1; e; f; g]
  | _ => s
  end.

Definition compress (h : list N) (block : list N) : list N :=
  let w := rev (schedule 48 (rev (words block))) in
  let s := fold_left round (combine K w) h in
  map (fun p => add32 p.1 p.2) (combine h s).

Fixpoint blocks (n : nat) (h : list N) (msg : list N) : list N :=
  match n with
  | O => h
  | S n' => blocks n' (compress h (firstn 64 msg)) (skipn 64 msg)
  end.

(** The digest, as thirty-two bytes. *)
Definition digest (msg : list N) : list N :=
  let padded := pad msg in
  let h := blocks (length padded / 64) H0 padded in
  flat_map (fun x => map (fun i => N.land (N.shiftr x (8 * i)) 0xff) [3; 2; 1; 0]) h.

End Sha256.

Module Node.

Definition code (c : ascii) : N := N_of_ascii c.

Definition alphabet : string :=
  "ABCDEFGHIJKLMNOPQRSTUVWXYZabcdefghijklmnopqrstuvwxyz0123456789+/".

Definition b64 (n : N) : ascii :=
  default "="%char (String.get (N.to_nat (N.land n 63)) alphabet).

(** [Buffer.prototype.toString('base64')] *)
Fixpoint base64 (data : list N) : string :=
  match data with
  | a :: b :: c :: rest =>
      let n := (N.shiftl a 16 + N.shiftl b 8 + c)%N in
      String (b64 (N.shiftr n 18)) (String (b64 (N.shiftr n 12))
        (String (b64 (N.shiftr n 6)) (String (b64 n) (base64 rest))))
  | [a; b] =>
      let n := (N.shiftl a 16 + N.shiftl b 8)%N in
      String (b64 (N.shiftr n 18)) (String (b64 (N.shiftr n 12))
        (String (b64 (N.shiftr n 6)) "="))
  | [a] =>
      let n := N.shiftl a 16 in
      String (b64 (N.shiftr n 18)) (String (b64 (N.shiftr n 12)) "==")
  | [] => ""
  end.

(** [crypto.createHash('sha256').update(s).digest('base64')] *)
Definition sha256_base64 (s : string) : string :=
  base64 (Sha256.digest (map code (list_ascii_of_string s))).

Fixpoint take_while (p : ascii -> bool) (l : list ascii) : list ascii :=
  match l with
  | c :: l' => if p c then c :: take_while p l' else []
  | [] => []
  end.

Fixpoint drop_while (p : ascii -> bool) (l : list ascii) : list ascii :=
  match l with
  | c :: l' => if p c then drop_while p l' else l
  | [] => []
  end.

Definition same (c : ascii) : ascii -> bool := Ascii.eqb c.
Definition other (c : ascii) : ascii -> bool := fun x => negb (Ascii.eqb c x).

(** [path.extname] of the POSIX flavour: from the last dot of the last
    segment to its end; nothing when that segment has no dot, when its
    only dot comes first, or when it is [..]. *)
Definition extname (p : string) : string :=
  let rev_base := take_while (other "/") (drop_while (same "/") (rev (list_ascii_of_string p))) in
  let rev_ext := take_while (other ".") rev_base in
  match skipn (length rev_ext) rev_base with
  | [] => ""
  | _ :: [] => ""
  | _ :: _ =>
      if bool_decide (rev_base = ["."; "."]%char) then ""
      else string_of_list_ascii (rev (rev_ext ++ ["."%char]))
  end.

Definition hex_digit (n : N) : ascii :=
  default "0"%char (String.get (N.to_nat (N.land n 15)) "0123456789ABCDEF").

(** Characters [encodeURI] leaves as they are. *)
Definition uri_plain (c : ascii) : bool :=
  let n := nat_of_ascii c in
  (Nat.leb 65 n && Nat.leb n 90) || (Nat.leb 97 n && Nat.leb n 122)
  || (Nat.leb 48 n && Nat.leb n 57)
  || existsb (Ascii.eqb c) (list_ascii_of_string ";,/?:@&=+$-_.!~*'()#").

(** [encodeURI], on the UTF-8 bytes of its argument. *)
Fixpoint encodeURI (s : string) : string :=
  match s with
  | EmptyString => EmptyString
  | String c s' =>
      if uri_plain c then String c (encodeURI s')
      else String "%" (String (hex_digit (N.shiftr (code c) 4))
                         (String (hex_digit (code c)) (encodeURI s')))
  end.

(** [getPublicUrl] of the storage client created for [SUPABASE_URL]. *)
Definition getPublicUrl (SUPABASE_URL : string) (b : bucket) (key : string) : string :=
  encodeURI (SUPABASE_URL ++ "/storage/v1/object/public/" ++ bucket_name b ++ "/" ++ key).

Definition strip_prefix (p s : string) : option string :=
  if String.prefix p s
  then Some (String.substring (String.length p) (String.length s - String.length p) s)
  else None.

(** [new URL(u).pathname] for an absolute [http] or [https] URL whose
    path needs no normalisation: what follows the host, up to the query
    or the fragment.  Anything else is reported as not a URL. *)
Definition URL_pathname (u : string) : option string :=
  match (match strip_prefix "https://" u with
         | Some rest => Some rest
         | None => strip_prefix "http://" u
         end) with
  | None => None
  | Some rest =>
      let l := list_ascii_of_string rest in
      let host := take_while (fun c => other "/" c && other "?" c && other "#" c) l in
      match host with
      | [] => None
      | _ =>
          let after := skipn (length host) l in
          let path := take_while (fun c => other "?" c && other "#" c) after in
          Some (match path with
                | [] => "/"
                | _ => string_of_list_ascii path
                end)
      end
  end.

Fixpoint hex (digits : nat) (n : N) : string :=
  match digits with
  | O => ""
  | S d => hex d (N.shiftr n 4) ++ String (Ascii.ascii_of_nat
             (nat_of_ascii (hex_digit n) + (if N.leb 10 (N.land n 15) then 32 else 0))) ""
  end.

(** An identifier per draw of the random source: a version-4 UUID whose
    last group counts the draws. *)
Definition uuid (draw : nat) : string :=
  "6f1c2a9e-5b7d-4c3a-9e21-" ++ hex 12 (N.of_nat draw).

(** The stored procedure [update_thread_counts], as far as the row of the
    thread goes: the image count moves by [images_adjustment]. *)
Definition update_thread_counts (images_adjustment posts_adjustment : Z)
    (t : Thread) : Thread :=
  {| t_id := t_id t; t_subject := t_subject t; t_comment := t_comment t;
     t_name := t_name t; t_tripcode := t_tripcode t; t_is_nsfw := t_is_nsfw t;
     t_file_name := t_file_name t; t_file_path := t_file_path t;
     t_file_size := t_file_size t; t_file_type := t_file_type t;
     t_thumbnail_path := t_thumbnail_path t; t_storage_path := t_storage_path t;
     t_images_count :=
       (fun n => Z.to_nat (Z.of_nat n + images_adjustment)) <$> t_images_count t |}.

(** A stand-in for sharp: it decodes what starts with the two bytes of a
    JPEG stream, and its output is the two bytes and the width. *)
Definition sharp_resize (width : nat) (buf : bytes) : option bytes :=
  match buf with
  | Byte.xff :: Byte.xd8 :: _ =>
      Some [Byte.xff; Byte.xd8; default Byte.x00 (Byte.of_nat width)]
  | _ => None
  end.

(** The environment of a server whose project lives at
    [https://darkchan.supabase.co], with [TRIPCODE_SALT] unset, on a store
    that lists every key. *)
Definition env (fails : call -> bool) (cascade : bool) : Env :=
  mkEnv None sha256_base64 uuid extname (fun _ => None) sharp_resize
        (getPublicUrl "https://darkchan.supabase.co") URL_pathname
        (fun _ names => names) update_thread_counts fails cascade.

End Node.

(** ** Inputs for running the program *)

Module Sample.

(** A state with nothing stored and no rows. *)
Definition empty_world : World := mkWorld ∅ ∅ ∅ ∅ 0 [].

(** A service that never fails. *)
Definition no_faults : call -> bool := fun _ => false.

(** The image bucket refuses every upload. *)
Definition images_down : call -> bool :=
  fun c => match c with StorageUpload IMAGES_BUCKET _ _ => true | _ => false end.

(** The image bucket refuses every removal. *)
Definition images_stuck : call -> bool :=
  fun c => match c with StorageRemove IMAGES_BUCKET _ => true | _ => false end.

(** A JPEG file, as multer's memory storage hands it over. *)
Definition cat_jpeg : File :=
  mkFile (Some "cat.jpg") "image/jpeg" 3 (Some [Byte.xff; Byte.xd8; Byte.x00]) "uploads/cat".

(** A file declared as a JPEG whose bytes are no image. *)
Definition broken_jpeg : File :=
  mkFile (Some "broken.jpg") "image/jpeg" 2 (Some [Byte.x00; Byte.x01]) "uploads/broken".

(** A file that is no image. *)
Definition notes_txt : File :=
  mkFile (Some "notes.txt") "text/plain" 2 (Some [Byte.x68; Byte.x69]) "uploads/notes".

(** A thread whose file is stored under [A.jpg]. *)
Definition thread_A : Thread :=
  {| t_id := "thread-1"; t_subject := None; t_comment := Some "first";
     t_name := "Anonymous"; t_tripcode := None; t_is_nsfw := false;
     t_file_name := Some "a.jpg";
     t_file_path := Some "https://darkchan.supabase.co/storage/v1/object/public/board-images/A.jpg";
     t_file_size := Some 3; t_file_type := Some "image/jpeg";
     t_thumbnail_path := None; t_storage_path := Some "A.jpg";
     t_images_count := Some 1 |}.

(** The image bucket holds [A.jpg], [B.jpg] and [C.jpg], the thumbnail bucket
    [A.jpg] and [B.jpg]; only [A.jpg] is referenced, by [thread_A]. *)
Definition world_abc : World :=
  {| images := {[ "A.jpg" := [Byte.x01]; "B.jpg" := [Byte.x02]; "C.jpg" := [Byte.x03] ]};
     thumbnails := {[ "A.jpg" := [Byte.x0a]; "B.jpg" := [Byte.x0b] ]};
     threads := {[ "thread-1" := thread_A ]};
     posts := ∅;
     rng := 0;
     trace := [] |}.

(** A new thread, NSFW, under the password [deletepass]. *)
Definition nsfw_thread_body : ThreadBody :=
  {| subject := JUndefined; comment := JString "hello"; name := JUndefined;
     password := JString "deletepass"; is_nsfw := JString "true" |}.

(** A reply without a password. *)
Definition reply : PostValue :=
  {| r_comment := Some "me too"; r_name := "Anonymous"; r_password := None;
     r_is_nsfw := false; r_reply_to := None |}.

(** An NSFW reply under the password [replypass]. *)
Definition nsfw_reply : PostValue :=
  {| r_comment := Some "look"; r_name := "Anonymous"; r_password := Some "replypass";
     r_is_nsfw := true; r_reply_to := None |}.

(** A post of [thread_A] without a tripcode, and a state that holds it. *)
Definition post_1 : Post :=
  {| p_id := "post-1"; p_thread_id := "thread-1"; p_comment := Some "second";
     p_name := "Anonymous"; p_tripcode := None; p_is_nsfw := false;
     p_reply_to := None; p_file_name := None; p_file_path := None;
     p_file_size := None; p_file_type := None; p_thumbnail_path := None;
     p_storage_path := None |}.

Definition world_with_post : World :=
  {| images := images world_abc; thumbnails := thumbnails world_abc;
     threads := threads world_abc; posts := {[ "post-1" := post_1 ]};
     rng := 0; trace := [] |}.

End Sample.

(** * The vocabulary of the properties *)

(** The names the [list] of the gateway returns for a bucket. *)
Definition keys (env : Env) (b : bucket) (w : World) : list string :=
  list_names env b (map_to_list (objects b w)).*1.

(** An object is reachable in a bucket when the [list] of the gateway
    returns its name. *)
Definition listed (env : Env) (b : bucket) (key : string) (w : World) : Prop :=
  key ∈ keys env b w.

(** A bucket holds an object under a key. *)
Definition stored (b : bucket) (key : string) (w : World) : Prop :=
  is_Some (objects b w !! key).

#[global] Instance stored_dec b key w : Decision (stored b key w).
Proof. unfold stored. apply _. Defined.

(** A store that lists every key. *)
Definition lists_all (env : Env) : Prop :=
  forall b names, list_names env b names = names.

(** The events a run adds to the trace. *)
Definition added (w w' : World) (evs : list event) : Prop :=
  trace w' = (trace w ++ evs)%list.

(** The thumbnail key [deleteFile] works out of its second argument: the
    last segment of the path of a URL, the argument itself otherwise;
    nothing when the argument starts with [http] and is no URL. *)
Definition thumbnail_key (env : Env) (thumbnailPath : string) : option string :=
  if Js.startsWith "http" thumbnailPath
  then Js.last_segment <$> URL_pathname env thumbnailPath
  else Some thumbnailPath.

(** The two halves of the body of [deleteFile], under names. *)
Definition remove_original (env : Env) (storagePath : option string) : M unit :=
  if Js.truthy storagePath then
    removed <- storage_remove env IMAGES_BUCKET (default "" storagePath) ;;
    if negb removed then console_error "Error deleting file:" else ret tt
  else ret tt.

(** The second half: the thumbnail. *)
Definition remove_thumbnail (env : Env) (thumbnailPath : option string) : M unit :=
  if Js.truthy thumbnailPath then
    let thumbnailPath := default "" thumbnailPath in
    thumbnailStoragePath <-
      (if Js.startsWith "http" thumbnailPath then
         match URL_pathname env thumbnailPath with
         | Some pathname => ret (Js.last_segment pathname)
         | None => throw "TypeError: Invalid URL"
         end
       else ret thumbnailPath) ;;
    removed <- storage_remove env THUMBNAILS_BUCKET thumbnailStoragePath ;;
    if negb removed then console_error "Error deleting thumbnail:" else ret tt
  else ret tt.

(** What a removal leaves of a bucket. *)
Definition after_remove (env : Env) (b : bucket) (key : string)
    (m : gmap string bytes) : gmap string bytes :=
  if fails env (StorageRemove b key) then m else delete key m.

(** A run touched neither table nor the random source. *)
Definition same_rows (w w' : World) : Prop :=
  threads w' = threads w /\ posts w' = posts w /\ rng w' = rng w.

(** A run removed or wrote no object and no row. *)
Definition nothing_removed (w w' : World) : Prop :=
  images w' = images w /\ thumbnails w' = thumbnails w /\
  threads w' = threads w /\ posts w' = posts w.

(** The bytes [uploadFile] sends: the buffer multer kept in memory, or the
    content of the temporary file. *)
Definition file_bytes (env : Env) (file : File) : option bytes :=
  match buffer file with
  | Some buf => Some buf
  | None => readFileSync env (path file)
  end.

(** The key [uploadFile] makes for a file, in a state of the random source. *)
Definition upload_key (env : Env) (file : File) (isNsfw : bool) (w : World) : string :=
  nsfw_prefix isNsfw ++ uuidv4 env (rng w)
    ++ extname env (Js.or_else (originalname file) "unknown.jpg").

(** The store answers an upload with an error: it fails, or the key is
    taken. *)
Definition upload_refused (env : Env) (b : bucket) (key contentType : string)
    (w : World) : bool :=
  fails env (StorageUpload b key contentType) || bool_decide (is_Some (objects b w !! key)).

(** The record of a completed upload. *)
Definition record_of (env : Env) (file : File) (key : string)
    (thumbnailUrl : option string) : UploadedFile :=
  {| fileName := originalname file;
     fileSize := size file;
     fileType := mimetype file;
     filePath := publicUrl env IMAGES_BUCKET key;
     thumbnailPath := thumbnailUrl;
     storagePath := key |}.

(** [file.mimetype.startsWith('image/')] *)
Definition is_image (file : File) : bool := Js.startsWith "image/" (mimetype file).

(** The state once a bucket has taken an object. *)
Definition put (b : bucket) (key : string) (buf : bytes) (w : World) : World :=
  set_objects b (<[key := buf]> (objects b w)) w.

(** The state once a list of events has been observed. *)
Definition emits (evs : list event) (w : World) : World :=
  fold_left (fun w e => emit e w) evs w.

(** The thumbnail the pipeline stores for the bytes of an image: the output
    of the 200-pixel-wide resize, when sharp decodes the bytes and the
    thumbnail bucket takes the object. *)
Definition thumbnail_made (env : Env) (key : string) (buf : bytes) (w : World)
    : option bytes :=
  match sharp_resize env 200 buf with
  | Some thumb =>
      if upload_refused env THUMBNAILS_BUCKET key "image/jpeg" w then None else Some thumb
  | None => None
  end.

(** A body with a comment and nothing else. *)
Definition body_with_comment (c : jsval) : ThreadBody :=
  {| subject := JUndefined; comment := c; name := JUndefined;
     password := JUndefined; is_nsfw := JUndefined |}.

(** A key is referenced when it is the [storage_path] of a thread or of a
    post ([null] and the empty string are no key). *)
Definition referenced (w : World) (k : string) : Prop :=
  k <> "" /\
  ((exists id t, threads w !! id = Some t /\ t_storage_path t = Some k) \/
   (exists id p, posts w !! id = Some p /\ p_storage_path p = Some k)).

(** The set [validPaths] that [cleanupOrphanedFiles] builds from the rows. *)
Definition valid_paths (w : World) : gset string :=
  add_paths
    (add_paths ∅ (omap t_storage_path (map_to_list (threads w)).*2))
    (omap p_storage_path (map_to_list (posts w)).*2).

(** An orphan whose removal the store carries out. *)
Definition removed_by_sweep (env : Env) (b : bucket) (validPaths : gset string)
    (k : string) : Prop :=
  (k ∉ validPaths) /\ fails env (StorageRemove b k) = false.

#[global] Instance removed_by_sweep_dec env b validPaths k :
  Decision (removed_by_sweep env b validPaths k).
Proof. unfold removed_by_sweep. apply _. Defined.

(** The event of asking the store to remove a key, with its outcome. *)
Definition attempt (env : Env) (b : bucket) (k : string) : event :=
  Called (StorageRemove b k) (negb (fails env (StorageRemove b k))).

(** What [deleteThread] answers when it stops before the row is deleted. *)
Definition thread_refusal (env : Env) (id : string) (password : option string)
    : response :=
  if negb (Js.truthy password) then mkResponse 400 (ErrorMessage "Password is required")
  else if fails env (DbSelectSingle THREADS id)
       then mkResponse 500 (ErrorMessage "Failed to delete thread")
       else mkResponse 403 (ErrorMessage "Invalid password").

(** What [deletePost] answers when it stops before the row is deleted. *)
Definition post_refusal (env : Env) (id : string) (password : option string)
    : response :=
  if negb (Js.truthy password) then mkResponse 400 (ErrorMessage "Password is required")
  else if fails env (DbSelectSingle POSTS id)
       then mkResponse 500 (ErrorMessage "Failed to delete post")
       else mkResponse 403 (ErrorMessage "Invalid password").

(** What a state holds: the names listed in the image bucket and in the
    thumbnail bucket, the identifiers of the threads and of the posts. *)
Definition contents (env : Env) (w : World)
    : list string * list string * list string * list string :=
  (keys env IMAGES_BUCKET w, keys env THUMBNAILS_BUCKET w,
   (map_to_list (threads w)).*1, (map_to_list (posts w)).*1).

(** The status a handler answered with. *)
Definition status_of (o : outcome response) : option nat :=
  match o with
  | Ret res => Some (status res)
  | Throw _ => None
  end.

(** A thread is created with a JPEG, NSFW, under the password [deletepass],
    and a reply with a JPEG is posted to it; then [DELETE /thread/:id] is
    called on that state, once with a wrong password and once with the
    right one.  The result: the statuses of the two creations and what the
    state then holds; the status of each deletion and what is left after
    it. *)
Definition delete_scenario (cascade : bool)
    : option nat * option nat
      * (list string * list string * list string * list string)
      * (option nat * (list string * list string * list string * list string))
      * (option nat * (list string * list string * list string * list string)) :=
  let env := Node.env Sample.no_faults cascade in
  let thread_id := Node.uuid 1 in
  let '(created, w1) :=
    post_thread env (Some Sample.cat_jpeg) Sample.nsfw_thread_body Sample.empty_world in
  let '(replied, w2) := post_reply env thread_id (Some Sample.cat_jpeg) Sample.reply w1 in
  let '(refused, w3) := deleteThread env thread_id (Some "wrongpassword") w2 in
  let '(deleted, w4) := deleteThread env thread_id (Some "deletepass") w2 in
  (status_of created, status_of replied, contents env w2,
   (status_of refused, contents env w3), (status_of deleted, contents env w4)).

(** A thread is created without a file, and an NSFW reply with a JPEG is
    posted to it under the password [replypass]; then [DELETE /post/:id] is
    called on that state, once with a wrong password and once with the
    right one. *)
Definition delete_post_scenario (cascade : bool)
    : option nat * option nat
      * (list string * list string * list string * list string)
      * (option nat * (list string * list string * list string * list string))
      * (option nat * (list string * list string * list string * list string)) :=
  let env := Node.env Sample.no_faults cascade in
  let thread_id := Node.uuid 0 in
  let post_id := Node.uuid 2 in
  let '(created, w1) :=
    post_thread env None (body_with_comment (JString "hello")) Sample.empty_world in
  let '(replied, w2) :=
    post_reply env thread_id (Some Sample.cat_jpeg) Sample.nsfw_reply w1 in
  let '(refused, w3) := deletePost env post_id (Some "wrongpassword") w2 in
  let '(deleted, w4) := deletePost env post_id (Some "replypass") w2 in
  (status_of created, status_of replied, contents env w2,
   (status_of refused, contents env w3), (status_of deleted, contents env w4)).

(** A thread is created without a file under the password [deletepass],
    and a reply with a JPEG is posted to it without a password, so that the
    row of the post carries no tripcode.  On that state [DELETE /post/:id]
    is called with the password of the thread, and [DELETE /thread/:id]
    with the same password.  The result: the statuses of the two
    creations, the tripcode of the post and what the state holds; the
    status of each deletion and what is left after it. *)
Definition passwordless_post_scenario (cascade : bool)
    : option nat * option nat * option (option string)
      * (list string * list string * list string * list string)
      * (option nat * (list string * list string * list string * list string))
      * (option nat * (list string * list string * list string * list string)) :=
  let env := Node.env Sample.no_faults cascade in
  let thread_id := Node.uuid 0 in
  let post_id := Node.uuid 2 in
  let '(created, w1) :=
    post_thread env None Sample.nsfw_thread_body Sample.empty_world in
  let '(replied, w2) := post_reply env thread_id (Some Sample.cat_jpeg) Sample.reply w1 in
  let '(refused, w3) := deletePost env post_id (Some "deletepass") w2 in
  let '(deleted, w4) := deleteThread env thread_id (Some "deletepass") w2 in
  (status_of created, status_of replied, p_tripcode <$> posts w2 !! post_id,
   contents env w2,
   (status_of refused, contents env w3), (status_of deleted, contents env w4)).

(** * Around the handlers

    Node's [path], the upload of a file read from a path, the filter of the
    upload middleware, the validation of replies and of deletions, the
    window of the thread listing, and the reconciler of
    [utils/fileUtils.js] that works on the upload directory. *)

(** ** Strings and numbers, continued *)

Module Str.

(** [s.toLowerCase()], on the letters of ASCII.  (The two characters
    outside ASCII whose lower case holds an ASCII letter give [k] and an
    [i] followed by a combining dot.) *)
Definition toLowerCase (s : string) : string := Joi.lowercase s.

(** [s.split(sep)] for a one-character separator: the pieces between the
    separators, the empty ones included, so never an empty array. *)
Fixpoint split (sep : ascii) (acc s : string) : list string :=
  match s with
  | EmptyString => [acc]
  | String c s' =>
      if Ascii.eqb c sep then acc :: split sep "" s'
      else split sep (acc ++ String c "") s'
  end.

(** [array.includes(x)], on strings *)
Definition includes (x : string) (l : list string) : bool :=
  existsb (String.eqb x) l.

(** [pieces.join(sep)] *)
Definition join (sep : string) (pieces : list string) : string :=
  String.concat sep pieces.

(** A JavaScript number, as far as the configuration and the query string
    go: not a number, or an integer. *)
Inductive number :=
| NaN
| Int (z : Z).

(** The value of a digit in a radix, if it is one. *)
Definition digit_value (radix : Z) (c : ascii) : option Z :=
  let n := Z.of_nat (nat_of_ascii c) in
  let v :=
    if ((48 <=? n) && (n <=? 57))%Z then Some (n - 48)%Z
    else if ((97 <=? n) && (n <=? 122))%Z then Some (n - 87)%Z
    else if ((65 <=? n) && (n <=? 90))%Z then Some (n - 55)%Z
    else None in
  match v with
  | Some d => if (d <? radix)%Z then Some d else None
  | None => None
  end.

(** The digits at the head of a string, read in a radix; [acc] is what has
    been read, [None] before the first digit. *)
Fixpoint digits (radix : Z) (acc : option Z) (l : list ascii) : option Z :=
  match l with
  | c :: l' =>
      match digit_value radix c with
      | Some d => digits radix (Some (default 0 acc * radix + d)%Z) l'
      | None => acc
      end
  | [] => acc
  end.

(** The sign at the head of a string, if any, and what follows it. *)
Definition sign (l : list ascii) : bool * list ascii :=
  match l with
  | "-"%char :: l' => (true, l')
  | "+"%char :: l' => (false, l')
  | _ => (false, l)
  end.

(** The radix [parseInt] reads in when it is given none: 16 after [0x] or
    [0X], which it strips, and 10 otherwise. *)
Definition radix (l : list ascii) : Z * list ascii :=
  match l with
  | "0"%char :: "x"%char :: l' => (16%Z, l')
  | "0"%char :: "X"%char :: l' => (16%Z, l')
  | _ => (10%Z, l)
  end.

(** [parseInt(v)] for a value that is [undefined] or a string: white space,
    a sign, [0x] or [0X] for radix 16, then the digits up to the first
    character that is none; [NaN] without a digit.  This is the integer the
    digits spell; the [Number] that the code receives is the double nearest
    to it, [to_double] below, which is the same integer among the safe
    ones. *)
Definition parseInt (v : option string) : number :=
  match v with
  | None => NaN
  | Some s =>
      let '(negative, l) := sign (Js.skip_white (list_ascii_of_string s)) in
      let '(radix, l) := radix l in
      match digits radix None l with
      | Some n => Int (if negative then - n else n)
      | None => NaN
      end
  end.

(** [n || d] on numbers: [NaN] and zero are falsy. *)
Definition or_default (n : number) (d : Z) : Z :=
  match n with
  | Int z => if (z =? 0)%Z then d else z
  | NaN => d
  end.

Definition MAX_SAFE_INTEGER : Z := 2 ^ 53 - 1.

(** The integers a [Number] holds exactly; the arithmetic of the code is
    followed among these. *)
Definition safe (z : Z) : bool :=
  ((- MAX_SAFE_INTEGER <=? z) && (z <=? MAX_SAFE_INTEGER))%Z.

(** A [Number] that is no [NaN], as far as integers lead: an integer
    that a double holds, or an infinity. *)
Inductive double :=
| Finite (z : Z)
| Infinity (negative : bool).

(** The [Number] for an integer: the nearest double, a tie going to the
    even significand.  Below [2 ^ 53] it is the integer; from there on the
    significand keeps 53 bits and [e] bits are dropped; what rounds to
    [2 ^ 1024] or beyond is an infinity. *)
Definition to_double (z : Z) : double :=
  let a := Z.abs z in
  if (a <? 2 ^ 53)%Z then Finite z
  else
    let e := (Z.log2 a - 52)%Z in
    let q := Z.shiftr a e in
    let r := (a - Z.shiftl q e)%Z in
    let half := (2 ^ (e - 1))%Z in
    let q' := if (half <? r)%Z || ((r =? half)%Z && Z.odd q) then (q + 1)%Z else q in
    let v := Z.shiftl q' e in
    if (2 ^ 1024 <=? v)%Z then Infinity (z <? 0)%Z
    else Finite (if (z <? 0)%Z then (- v)%Z else v).

End Str.

(** ** [path], of the POSIX flavour *)

Module Path.

Definition isAbsolute (p : string) : bool := String.prefix "/" p.

(** [normalizeString]: the segments that remain, the last one first.  An
    empty segment and [.] are dropped; [..] takes back the segment before
    it, and is kept, when the path may climb above its start, where there
    is none to take back. *)
Fixpoint normalizeString (allowAboveRoot : bool) (res segs : list string)
    : list string :=
  match segs with
  | [] => res
  | seg :: rest =>
      if String.eqb seg "" || String.eqb seg "."
      then normalizeString allowAboveRoot res rest
      else if String.eqb seg ".." then
        match res with
        | last :: res' =>
            if String.eqb last ".."
            then normalizeString allowAboveRoot
                   (if allowAboveRoot then ".." :: res else res) rest
            else normalizeString allowAboveRoot res' rest
        | [] =>
            normalizeString allowAboveRoot
              (if allowAboveRoot then [".."] else []) rest
        end
      else normalizeString allowAboveRoot (seg :: res) rest
  end.

Definition endsWithSlash (p : string) : bool :=
  match rev (list_ascii_of_string p) with
  | c :: _ => Ascii.eqb c "/"
  | [] => false
  end.

(** [path.normalize] *)
Definition normalize (p : string) : string :=
  if String.eqb p "" then "."
  else
    let isAbsolute := isAbsolute p in
    let trailingSeparator := endsWithSlash p in
    let body :=
      Str.join "/" (rev (normalizeString (negb isAbsolute) [] (Str.split "/" "" p))) in
    if String.eqb body "" then
      if isAbsolute then "/" else if trailingSeparator then "./" else "."
    else
      (if isAbsolute then "/" else "") ++ body
        ++ (if trailingSeparator then "/" else "").

(** [path.join(...args)]: the arguments that are not empty, joined by the
    separator, then normalised. *)
Definition join (args : list string) : string :=
  match List.filter (fun a => negb (String.eqb a "")) args with
  | [] => "."
  | joined => normalize (Str.join "/" joined)
  end.

(** [path.basename(p)]: the last segment, the separators that end the path
    set aside. *)
Definition basename (p : string) : string :=
  string_of_list_ascii
    (rev (Node.take_while (Node.other "/")
            (Node.drop_while (Node.same "/") (rev (list_ascii_of_string p))))).

End Path.

(** ** The disk, as the code reads it *)

(** What [fs.statSync] tells of a path. *)
Record Stats := mkStats {
  st_size : nat;
  isDirectory : bool
}.

(** The file system calls besides [readFileSync]; [None] stands for a call
    that throws.  [unlinkSync] tells whether the removal goes through. *)
Record Fs := mkFs {
  existsSync : string -> bool;
  statSync : string -> option Stats;
  readdirSync : string -> option (list string);
  unlinkSync : string -> bool
}.

(** ** utils/fileStorage.js: the upload of a file on disk *)

Section FromPath.

Context (env : Env) (fs : Fs).

(** The table of [getMimeType].  The key looked up is the value of
    [path.extname], in lower case: empty or with a dot in front, so never
    the name of a property that every object inherits. *)
Definition mimeTypes : list (string * string) :=
  [(".jpg", "image/jpeg"); (".jpeg", "image/jpeg"); (".png", "image/png");
   (".gif", "image/gif"); (".webp", "image/webp"); (".svg", "image/svg+xml")].

Fixpoint property (key : string) (object : list (string * string)) : option string :=
  match object with
  | (k, v) :: rest => if String.eqb k key then Some v else property key rest
  | [] => None
  end.

Definition getMimeType (filename : string) : string :=
  let ext := Str.toLowerCase (extname env filename) in
  Js.or_else (property ext mimeTypes) "application/octet-stream".

Definition uploadFileFromPath (filePath : option string) (isNsfw : bool)
    : M (option UploadedFile) :=
  if negb (Js.truthy filePath) || negb (existsSync fs (default "" filePath))
  then run console_error "File not found:" ;; ret None
  else
    let filePath := default "" filePath in
    try_catch
      (let fileName := Path.basename filePath in
       fileBuffer <-
         match readFileSync env filePath with
         | Some buf => ret buf
         | None => throw "EISDIR: illegal operation on a directory, read"
         end ;;
       fileStats <-
         match statSync fs filePath with
         | Some stats => ret stats
         | None => throw "ENOENT: no such file or directory, stat"
         end ;;
       let contentType := getMimeType fileName in
       let fileExt := extname env fileName in
       uuid <- fresh_uuid env ;;
       let uniqueFileName := uuid ++ fileExt in
       let storagePath := nsfw_prefix isNsfw ++ uniqueFileName in
       uploaded <- storage_upload env IMAGES_BUCKET storagePath fileBuffer contentType ;;
       if negb uploaded
       then run console_error "Error uploading file:" ;; throw "uploadError"
       else
         let urlData := getPublicUrl env IMAGES_BUCKET storagePath in
         let isImage := Js.startsWith "image/" contentType in
         thumbnailUrl <-
           (if isImage then
              try_catch
                (thumbnailBuffer <- sharp env 200 fileBuffer ;;
                 let thumbnailPath := nsfw_prefix isNsfw ++ uniqueFileName in
                 thumbed <- storage_upload env THUMBNAILS_BUCKET thumbnailPath
                              thumbnailBuffer "image/jpeg" ;;
                 if negb thumbed
                 then run console_error "Error creating thumbnail:" ;; ret None
                 else ret (Some (getPublicUrl env THUMBNAILS_BUCKET thumbnailPath)))
                (fun thumbErr => run console_error "Error processing thumbnail:" ;; ret None)
            else ret None) ;;
         ret (Some {| fileName := Some fileName;
                      fileSize := st_size fileStats;
                      fileType := contentType;
                      filePath := urlData;
                      thumbnailPath := thumbnailUrl;
                      storagePath := storagePath |}))
      (fun err => run console_error "Error uploading file:" ;; ret None).

End FromPath.

(** ** middlewares/fileUpload.js: what multer is configured with *)

(** [fileFilter]: whether the file is let through, for a value of
    [ALLOWED_FILE_TYPES]. *)
Definition fileFilter (ALLOWED_FILE_TYPES : option string) (file : File) : bool :=
  let allowedTypes :=
    Str.split "," ""
      (Js.or_else ALLOWED_FILE_TYPES "image/jpeg,image/png,image/gif,image/webp") in
  Str.includes (mimetype file) allowedTypes.

(** [limits.fileSize], for a value of [MAX_FILE_SIZE]:
    [parseInt(process.env.MAX_FILE_SIZE) || 5 * 1024 * 1024], where [NaN]
    and zero are falsy. *)
Definition fileSize_limit (MAX_FILE_SIZE : option string) : Str.double :=
  match Str.parseInt MAX_FILE_SIZE with
  | Str.Int z =>
      match Str.to_double z with
      | Str.Finite 0 => Str.Finite (5 * 1024 * 1024)
      | d => d
      end
  | Str.NaN => Str.Finite (5 * 1024 * 1024)
  end.

(** ** utils/validations.js: replies and deletions *)

(** The body of [POST /thread/:id/reply], by key. *)
Record PostBody := mkPostBody {
  b_comment : jsval;
  b_name : jsval;
  b_password : jsval;
  b_is_nsfw : jsval;
  b_reply_to : jsval
}.

(** The errors of the schema of a reply: those of the thread schema, and
    [string.guid]. *)
Inductive post_error :=
| schema_error (e : Joi.error)
| string_guid (key : string).

(** What [validatePost] answers when it does not call [next()]. *)
Inductive rejection :=
| InvalidPost (details : list post_error)
| NoImageNoComment.

Section Replies.

(** The test behind [Joi.string().uuid()]. *)
Context (guid : string -> bool).

(** [Joi.string().uuid().allow(null)] *)
Definition uuid_ (key : string) (v : jsval) : post_error + option string :=
  match v with
  | JUndefined | JNull => inr None
  | JString s =>
      if String.eqb s "" then inl (schema_error (Joi.string_empty key))
      else if guid s then inr (Some s) else inl (string_guid key)
  | JBool _ | JNumber _ => inl (schema_error (Joi.string_base key))
  end.

(** The schema of [validatePost], its keys in the order it lists them. *)
Definition post_schema (body : PostBody) : post_error + PostValue :=
  match Joi.string_ "comment" (Joi.mkStringRule true (Some 1%N) (Some 10000%N) false None) (b_comment body) with
  | inl e => inl (schema_error e)
  | inr comment =>
  match Joi.string_ "name" (Joi.mkStringRule false None (Some 50%N) false (Some "Anonymous")) (b_name body) with
  | inl e => inl (schema_error e)
  | inr name =>
  match Joi.string_ "password" (Joi.mkStringRule false None None true None) (b_password body) with
  | inl e => inl (schema_error e)
  | inr password =>
  match Joi.boolean_ "is_nsfw" (b_is_nsfw body) with
  | inl e => inl (schema_error e)
  | inr is_nsfw =>
  match uuid_ "reply_to" (b_reply_to body) with
  | inl e => inl e
  | inr reply_to =>
      inr {| r_comment := comment; r_name := default "Anonymous" name;
             r_password := password; r_is_nsfw := is_nsfw;
             r_reply_to := reply_to |}
  end end end end end.

(** [validatePost(req, res, next)]: status 400 with what went wrong, or
    [next()] with the body replaced by the validated value. *)
Definition validatePost (has_file : bool) (body : PostBody)
    : (nat * rejection) + PostValue :=
  match post_schema body with
  | inl e => inl (400, InvalidPost [e])
  | inr value =>
      if negb has_file && comment_is_blank (b_comment body)
      then inl (400, NoImageNoComment)
      else inr value
  end.

End Replies.

(** A reply with a comment and nothing else. *)
Definition reply_with_comment (c : jsval) : PostBody :=
  {| b_comment := c; b_name := JUndefined; b_password := JUndefined;
     b_is_nsfw := JUndefined; b_reply_to := JUndefined |}.

(** [validateDelete(req, res, next)], for the one key of its schema. *)
Definition validateDelete (password : jsval) : response + string :=
  match Joi.string_ "password" (Joi.mkStringRule true None None false None) password with
  | inl e => inl (mkResponse 400 (ValidationError [e]))
  | inr value => inr (default "" value)
  end.

(** ** controllers/thread.js: the window of [getThreads] *)

(** The pagination of [getThreads]: the page and its size, and the two
    bounds handed to [range]. *)
Record Window := mkWindow {
  page : Z;
  pageSize : Z;
  offset : Z;
  range_to : Z
}.

(** The head of [getThreads], for the two parameters of the query string;
    [None] where a value leaves the integers that a [Number] holds
    exactly. *)
Definition getThreads_window (query_page query_pageSize : option string)
    : option Window :=
  let page := Str.or_default (Str.parseInt query_page) 1 in
  let pageSize := Str.or_default (Str.parseInt query_pageSize) 15 in
  let offset := ((page - 1) * pageSize)%Z in
  if Str.safe page && Str.safe pageSize && Str.safe offset
     && Str.safe (offset + pageSize)
  then Some {| page := page; pageSize := pageSize; offset := offset;
               range_to := (offset + pageSize - 1)%Z |}
  else None.

(** [Math.ceil(count / pageSize)], for a page size that is not zero. *)
Definition totalPages (count pageSize : Z) : Z := (- ((- count) / pageSize))%Z.

(** A row of the listing, by its rank in the order of the query, is in a
    window. *)
Definition in_window (win : Window) (rank : Z) : Prop :=
  (offset win <= rank <= range_to win)%Z.

(** ** utils/fileUtils.js: the reconciler of the upload directory *)

Module FileUtils.

Section Disk.

(** [UPLOAD_DIRECTORY] is the variable of the environment and [dirname]
    the [__dirname] of the module. *)
Context (env : Env) (fs : Fs) (UPLOAD_DIRECTORY : option string) (dirname : string).

(** [supabase.from(t).select('file_path, thumbnail_path').not('file_path', 'is', null)];
    [data] is [null] on error. *)
Definition db_select_file_paths (t : table)
    : M (option (list (option string * option string))) :=
  fun w =>
    let c := DbSelectPaths t in
    if fails env c then (Ret None, emit (Called c false) w)
    else
      let records :=
        match t with
        | THREADS =>
            (fun row => (t_file_path row, t_thumbnail_path row))
              <$> (map_to_list (threads w)).*2
        | POSTS =>
            (fun row => (p_file_path row, p_thumbnail_path row))
              <$> (map_to_list (posts w)).*2
        end in
      (Ret (Some (List.filter (fun record => bool_decide (is_Some record.1)) records)),
       emit (Called c true) w).

(** [fs.readdirSync(dir)] *)
Definition readdir (dir : string) : M (list string) :=
  match readdirSync fs dir with
  | Some names => ret names
  | None => throw "ENOENT: no such file or directory, scandir"
  end.

(** [names.filter(file => !fs.statSync(path.join(uploadDir, file)).isDirectory())] *)
Fixpoint not_directories (uploadDir : string) (names : list string)
    : M (list string) :=
  match names with
  | [] => ret []
  | file :: rest =>
      match statSync fs (Path.join [uploadDir; file]) with
      | None => throw "ENOENT: no such file or directory, stat"
      | Some stats =>
          kept <- not_directories uploadDir rest ;;
          ret (if isDirectory stats then kept else file :: kept)
      end
  end.

(** The two [forEach] over the records of a table. *)
Definition add_records (valid : gset string * gset string)
    (records : list (option string * option string)) : gset string * gset string :=
  foldl (fun acc record =>
           (if Js.truthy record.1
            then acc.1 ∪ {[ Path.join [dirname; ".."; default "" record.1] ]}
            else acc.1,
            if Js.truthy record.2
            then acc.2 ∪ {[ Path.join [dirname; ".."; default "" record.2] ]}
            else acc.2))
        valid records.

(** One of the two loops that delete: each path that is not in the set is
    handed to [fs.unlinkSync], and a removal that throws is logged.  The
    value is the list of the paths handed over, each with whether its
    removal went through. *)
Fixpoint unlink_orphans (what : string) (valid : gset string) (files : list string)
    : M (list (string * bool)) :=
  match files with
  | [] => ret []
  | file :: rest =>
      if bool_decide (file ∈ valid) then unlink_orphans what valid rest
      else
        run (if unlinkSync fs file then ret tt
             else console_error ("Error deleting " ++ what ++ " " ++ file ++ ":")) ;;
        unlinked <- unlink_orphans what valid rest ;;
        ret ((file, unlinkSync fs file) :: unlinked)
  end.

(** [cleanupOrphanedFiles(supabase)].  The value is what the run handed to
    [fs.unlinkSync], in order. *)
Definition cleanupOrphanedFiles : M (list (string * bool)) :=
  let uploadDir := Js.or_else UPLOAD_DIRECTORY "./uploads" in
  let thumbnailDir := Path.join [uploadDir; "thumbnails"] in
  try_catch
    (names <- readdir uploadDir ;;
     kept <- not_directories uploadDir names ;;
     let files := (fun file => Path.join [uploadDir; file]) <$> kept in
     thumbnails <-
       (if existsSync fs thumbnailDir
        then names <- readdir thumbnailDir ;;
             ret ((fun file => Path.join [thumbnailDir; file]) <$> names)
        else ret []) ;;
     threadFiles <- db_select_file_paths THREADS ;;
     postFiles <- db_select_file_paths POSTS ;;
     match threadFiles with
     | None => throw "TypeError: Cannot read properties of null (reading 'forEach')"
     | Some threadFiles =>
     match postFiles with
     | None => throw "TypeError: Cannot read properties of null (reading 'forEach')"
     | Some postFiles =>
         let valid := add_records (add_records (∅, ∅) threadFiles) postFiles in
         unlinkedFiles <- unlink_orphans "file" valid.1 files ;;
         unlinkedThumbnails <- unlink_orphans "thumbnail" valid.2 thumbnails ;;
         ret (unlinkedFiles ++ unlinkedThumbnails)%list
     end end)
    (fun err => run console_error "Error during file cleanup:" ;; ret []).

End Disk.

End FileUtils.

(** ** routes/api.js: the route of a reply *)

(** [POST /thread/:id/reply]: [fileUpload.single('file')], then
    [validatePost], then [replyToThread].  The answer of [validatePost] is
    kept apart from those of the two others. *)
Definition reply_route (env : Env) (guid : string -> bool) (threadId : string)
    (file : option File) (body : PostBody)
    : M ((nat * rejection) + response) :=
  uploaded <- processUpload env file (b_is_nsfw body) ;;
  match uploaded with
  | inl res => ret (inr res)
  | inr fileData =>
      match validatePost guid (bool_decide (is_Some file)) body with
      | inl refusal => ret (inl refusal)
      | inr value => res <- replyToThread env threadId value fileData ;; ret (inr res)
      end
  end.

(** ** More vocabulary *)

(** The calls of a trace, without the lines of the log. *)
Definition calls (evs : list event) : list (call * bool) :=
  omap (fun e => match e with Called c ok => Some (c, ok) | ConsoleError _ => None end) evs.

(** The flag [processUpload] reads off the raw body. *)
Definition nsfw_requested (is_nsfw : jsval) : bool :=
  match is_nsfw with
  | JString s => String.eqb s "true"
  | JBool b => b
  | _ => false
  end.

(** The characters of a string. *)
Definition chars (s : string) : list ascii := list_ascii_of_string s.

(** Whether a name of the upload directory is kept as a file by the
    reconciler of [utils/fileUtils.js]. *)
Definition is_file (fs : Fs) (uploadDir name : string) : bool :=
  match statSync fs (Path.join [uploadDir; name]) with
  | Some stats => negb (isDirectory stats)
  | None => false
  end.

(** A set of absolute paths. *)
Definition all_absolute (valid : gset string) : Prop :=
  forall x, x ∈ valid -> Path.isAbsolute x = true.

(** What [deleteFile] leaves of the image bucket and of the thumbnail
    bucket. *)
Definition images_after_deleteFile (env : Env) (storagePath : option string)
    (m : gmap string bytes) : gmap string bytes :=
  if Js.truthy storagePath
  then after_remove env IMAGES_BUCKET (default "" storagePath) m
  else m.

Definition thumbnails_after_deleteFile (env : Env) (thumbnailPath : option string)
    (m : gmap string bytes) : gmap string bytes :=
  if Js.truthy thumbnailPath then
    match thumbnail_key env (default "" thumbnailPath) with
    | Some key => after_remove env THUMBNAILS_BUCKET key m
    | None => m
    end
  else m.

(** The status [deleteThread] answers with, read off the request, the
    rows and the faults of the relational store. *)
Definition deleteThread_status (env : Env) (id : string) (password : option string)
    (w : World) : nat :=
  if negb (Js.truthy password) then 400
  else if fails env (DbSelectSingle THREADS id) then 500
  else
    match threads w !! id with
    | None => 404
    | Some thread =>
        if negb (Js.truthy (t_tripcode thread))
           || negb (verifyTripcode env password (t_tripcode thread))
        then 403
        else if fails env (DbDelete THREADS id) then 500 else 200
    end.

(** The status [deletePost] answers with. *)
Definition deletePost_status (env : Env) (id : string) (password : option string)
    (w : World) : nat :=
  if negb (Js.truthy password) then 400
  else if fails env (DbSelectSingle POSTS id) then 500
  else
    match posts w !! id with
    | None => 404
    | Some post =>
        if negb (Js.truthy (p_tripcode post))
           || negb (verifyTripcode env password (p_tripcode post))
        then 403
        else if fails env (DbDelete POSTS id) then 500 else 200
    end.

(** The posts left once [deleteThread] has answered 200: those of other
    threads, and those of the thread where neither the foreign key nor the
    deletion by [thread_id] removed them. *)
Definition posts_after_deleteThread (env : Env) (id : string) (m : gmap string Post)
    : gmap string Post :=
  if cascade env || negb (fails env (DbDeletePostsOf id)) then posts_not_of id m else m.

(** The row of the thread of a deleted post, once the counts have been
    updated. *)
Definition threads_after_deletePost (env : Env) (post : Post) (m : gmap string Thread)
    : gmap string Thread :=
  if fails env (DbRpc "update_thread_counts" (p_thread_id post)) then m
  else alter (update_thread_counts env
                (if Js.truthy (p_file_path post) then (-1)%Z else 0%Z) (-1)%Z)
             (p_thread_id post) m.

(** A character that the URL of a key spells as it is and that ends
    neither the path nor a segment of it: one that [encodeURI] leaves
    alone, other than the slash, the question mark and the hash. *)
Definition segment_char (c : ascii) : bool :=
  Node.uri_plain c && Node.other "/" c && Node.other "?" c && Node.other "#" c.

(** A key made of one segment of such characters, which is not a dot
    segment. *)
Definition one_segment (key : string) : Prop :=
  key <> "" /\ key <> "." /\ key <> ".." /\ forallb segment_char (chars key) = true.

(** A password of a request body, as the handlers read it: a string, or
    nothing. *)
Definition password_value (password : option string) : jsval :=
  match password with
  | Some s => JString s
  | None => JUndefined
  end.

(** The image bucket cannot be listed. *)
Definition listing_fails : call -> bool :=
  fun c => match c with StorageList IMAGES_BUCKET => true | _ => false end.

(** The values of [is_nsfw] that read the same before and after the
    validation. *)
Definition plain_flag (is_nsfw : jsval) : Prop :=
  is_nsfw ∈ [JUndefined; JBool true; JBool false; JString "true"; JString "false"].

(** The file object that stands for a file on disk: what multer would
    hand over for it, its type read off its name. *)
Definition file_at (env : Env) (filePath : string) (buf : bytes) (stats : Stats) : File :=
  {| originalname := Some (Path.basename filePath);
     mimetype := getMimeType env (Path.basename filePath);
     size := st_size stats;
     buffer := Some buf;
     path := filePath |}.

(** The types the filter of the upload middleware lets through when
    [ALLOWED_FILE_TYPES] is not set. *)
Definition default_types : list string :=
  ["image/jpeg"; "image/png"; "image/gif"; "image/webp"].

(** The extensions [getMimeType] knows. *)
Definition image_extensions : list string :=
  [".jpg"; ".jpeg"; ".png"; ".gif"; ".webp"; ".svg"].

(** The four reads of the reconciler succeed: the listing of each bucket
    and the query of each table. *)
Definition reads_succeed (env : Env) : Prop :=
  fails env (StorageList IMAGES_BUCKET) = false /\
  fails env (StorageList THUMBNAILS_BUCKET) = false /\
  fails env (DbSelectPaths THREADS) = false /\
  fails env (DbSelectPaths POSTS) = false.

(** A parameter of the query string that holds no minus sign. *)
Definition unsigned (query : option string) : Prop :=
  forall s, query = Some s -> "-"%char ∉ chars s.

(** ** Inputs for running this part *)

Module Fixture.

(** An upload directory that holds one image and the directory of the
    thumbnails, which holds the thumbnail of that image. *)
Definition disk : Fs :=
  {| existsSync := fun p =>
       String.eqb p "uploads/9b2d6c1e.jpg" || String.eqb p "uploads/thumbnails"
       || String.eqb p "uploads/thumbnails/thumb_9b2d6c1e.jpg"
       || String.eqb p "./uploads";
     statSync := fun p =>
       if String.eqb p "uploads/thumbnails" then Some (mkStats 4096 true)
       else if String.eqb p "uploads/9b2d6c1e.jpg" then Some (mkStats 3 false)
       else if String.eqb p "uploads/thumbnails/thumb_9b2d6c1e.jpg"
            then Some (mkStats 3 false)
       else None;
     readdirSync := fun dir =>
       if String.eqb dir "./uploads" then Some ["9b2d6c1e.jpg"; "thumbnails"]
       else if String.eqb dir "uploads/thumbnails" then Some ["thumb_9b2d6c1e.jpg"]
       else None;
     unlinkSync := fun _ => true |}.

(** A thread whose row names that image and that thumbnail, the way the
    disk-based handlers write them. *)
Definition thread_on_disk : Thread :=
  {| t_id := "thread-1"; t_subject := None; t_comment := Some "first";
     t_name := "Anonymous"; t_tripcode := None; t_is_nsfw := false;
     t_file_name := Some "cat.jpg";
     t_file_path := Some "uploads/9b2d6c1e.jpg";
     t_file_size := Some 3; t_file_type := Some "image/jpeg";
     t_thumbnail_path := Some "uploads/thumbnails/thumb_9b2d6c1e.jpg";
     t_storage_path := None; t_images_count := Some 1 |}.

(** A stand-in for the test behind [Joi.string().uuid()]: 36 characters
    with a hyphen after the eighth. *)
Definition guid (s : string) : bool :=
  Nat.eqb (String.length s) 36 && bool_decide (String.get 8 s = Some "-"%char).

(** A reply to the post [6f1c2a9e-5b7d-4c3a-9e21-000000000002]. *)
Definition reply_body : PostBody :=
  {| b_comment := JString "me too"; b_name := JUndefined; b_password := JString "";
     b_is_nsfw := JString "false";
     b_reply_to := JString "6f1c2a9e-5b7d-4c3a-9e21-000000000002" |}.

(** A thread without a file, under the password [deletepass], as
    [validateThread] hands it over. *)
Definition thread_value : ThreadValue :=
  {| v_subject := None; v_comment := Some "hello"; v_name := "Anonymous";
     v_password := Some "deletepass"; v_is_nsfw := false |}.

(** The record of an upload under the key [A.jpg], its thumbnail under
    the same key. *)
Definition upload_A : UploadedFile :=
  {| fileName := Some "a.jpg"; fileSize := 3; fileType := "image/jpeg";
     filePath := "https://darkchan.supabase.co/storage/v1/object/public/board-images/A.jpg";
     thumbnailPath :=
       Some "https://darkchan.supabase.co/storage/v1/object/public/board-thumbnails/A.jpg";
     storagePath := "A.jpg" |}.

(** The relational store refuses every insertion. *)
Definition inserts_fail : call -> bool :=
  fun c => match c with DbInsert _ _ => true | _ => false end.

(** The server of [Node.env], with one file on its disk. *)
Definition env_on_disk : Env :=
  mkEnv None Node.sha256_base64 Node.uuid Node.extname
        (fun p => if String.eqb p "uploads/9b2d6c1e.JPG"
                  then Some [Byte.xff; Byte.xd8; Byte.x00] else None)
        Node.sharp_resize (Node.getPublicUrl "https://darkchan.supabase.co")
        Node.URL_pathname (fun _ names => names) Node.update_thread_counts
        Sample.no_faults true.

Definition disk_with_upload : Fs :=
  {| existsSync := fun p => String.eqb p "uploads/9b2d6c1e.JPG";
     statSync := fun p =>
       if String.eqb p "uploads/9b2d6c1e.JPG" then Some (mkStats 3 false) else None;
     readdirSync := fun _ => None;
     unlinkSync := fun _ => true |}.

(** A new thread whose NSFW flag is spelled in upper case. *)
Definition shouted_body : ThreadBody :=
  {| subject := JUndefined; comment := JString "hello"; name := JUndefined;
     password := JUndefined; is_nsfw := JString "TRUE" |}.

Definition world_on_disk : World :=
  {| images := ∅; thumbnails := ∅; threads := {[ "thread-1" := thread_on_disk ]};
     posts := ∅; rng := 0; trace := [] |}.

End Fixture.

(** * Properties *)

(** ** The platform functions on known values *)

Example sha256_abc :
  Node.sha256_base64 "abc" = "ungWv48Bz+pBQUDeXa4iI7ADYaOWF3qctBD/YfIAFa0=".
Proof. vm_compute. reflexivity. Qed.

Example sha256_empty :
  Node.sha256_base64 "" = "47DEQpj8HBSa+/TImW+5JCeuQeRkm5NMpJWZG3hSuFU=".
Proof. vm_compute. reflexivity. Qed.

Example sha256_round_constants :
  firstn 2 Sha256.K = [0x428a2f98; 0x71374491]%N /\
  last Sha256.K = Some 0xc67178f2%N /\
  firstn 2 Sha256.H0 = [0x6a09e667; 0xbb67ae85]%N.
Proof. vm_compute. by repeat split. Qed.

Example extname_samples :
  map Node.extname
      ["index.html"; "index.coffee.md"; "index."; "index"; ".index"; ".index.md";
       ".."; "unknown.jpg"; "a/b.c/d"; "photo.JPG/"]
  = [".html"; ".md"; "."; ""; ""; ".md"; ""; ".jpg"; ""; ".JPG"].
Proof. vm_compute. reflexivity. Qed.

Example public_url_sample :
  Node.getPublicUrl "https://darkchan.supabase.co" THUMBNAILS_BUCKET "nsfw/a b.jpg"
  = "https://darkchan.supabase.co/storage/v1/object/public/board-thumbnails/nsfw/a%20b.jpg".
Proof. vm_compute. reflexivity. Qed.

Example thumbnail_key_samples :
  let env := Node.env Sample.no_faults true in
  thumbnail_key env (publicUrl env THUMBNAILS_BUCKET "abc.jpg") = Some "abc.jpg" /\
  thumbnail_key env (publicUrl env THUMBNAILS_BUCKET "nsfw/abc.jpg") = Some "abc.jpg" /\
  thumbnail_key env "nsfw/abc.jpg" = Some "nsfw/abc.jpg" /\
  thumbnail_key env "http" = None.
Proof. vm_compute. by repeat split. Qed.

Example validateThread_samples :
  validateThread false (body_with_comment (JString "hello"))
    = inr {| v_subject := None; v_comment := Some "hello"; v_name := "Anonymous";
             v_password := None; v_is_nsfw := false |} /\
  validateThread false (body_with_comment (JString ""))
    = inl (mkResponse 400 (ValidationError [Joi.string_empty "comment"])) /\
  validateThread false (body_with_comment (JString "   "))
    = inl (mkResponse 400 (ErrorMessage "Either an image or comment is required")) /\
  validateThread true (body_with_comment (JString "   "))
    = inr {| v_subject := None; v_comment := Some "   "; v_name := "Anonymous";
             v_password := None; v_is_nsfw := false |}.
Proof. vm_compute. by repeat split. Qed.

(** ** Reading the storage gateway: what a listing reaches *)

Lemma listed_stored env b key w :
  lists_all env -> listed env b key w <-> stored b key w.
Proof.
  intros Hall. unfold listed, keys, stored. rewrite Hall, list_elem_of_fmap. split.
  - intros [[k v] [-> Hin]]. apply elem_of_map_to_list in Hin. simpl. eauto.
  - intros [v Hv]. exists (key, v). split; [done|]. by apply elem_of_map_to_list.
Qed.

Lemma emit_objects b e w : objects b (emit e w) = objects b w.
Proof. by destruct b. Qed.

Lemma set_objects_same b m w : objects b (set_objects b m w) = m.
Proof. by destruct b. Qed.

Lemma set_objects_other b b' m w : b <> b' -> objects b' (set_objects b m w) = objects b' w.
Proof. by destruct b, b'. Qed.

Lemma set_objects_trace b m w : trace (set_objects b m w) = trace w.
Proof. by destruct b. Qed.

Lemma set_objects_threads b m w : threads (set_objects b m w) = threads w.
Proof. by destruct b. Qed.

Lemma set_objects_posts b m w : posts (set_objects b m w) = posts w.
Proof. by destruct b. Qed.

Lemma set_objects_rng b m w : rng (set_objects b m w) = rng w.
Proof. by destruct b. Qed.

(** Membership in an explicit list of events, and its inversion. *)
Ltac in_events :=
  intros;
  repeat match goal with
         | H : _ ∈ [] |- _ => by apply elem_of_nil in H
         | H : _ ∈ (_ :: _) |- _ => apply elem_of_cons in H as [H|H]
         end;
  simplify_eq;
  try done;
  repeat first [ apply list_elem_of_here | apply list_elem_of_further ].

Section DeleteFile.

Context (env : Env).

Lemma deleteFile_halves storagePath thumbnailPath :
  deleteFile env storagePath thumbnailPath =
    try_catch
      (run remove_original env storagePath ;;
       run remove_thumbnail env thumbnailPath ;;
       ret true)
      (fun err => run console_error "Error during file deletion:" ;; ret false).
Proof. reflexivity. Qed.

Lemma storage_remove_run b key w :
  storage_remove env b key w =
    (Ret (negb (fails env (StorageRemove b key))),
     emit (Called (StorageRemove b key) (negb (fails env (StorageRemove b key))))
          (set_objects b (after_remove env b key (objects b w)) w)).
Proof.
  unfold storage_remove, after_remove.
  destruct (fails env _); [|done]. by destruct b, w.
Qed.

Lemma remove_original_run storagePath w :
  exists w' evs,
    remove_original env storagePath w = (Ret tt, w') /\
    thumbnails w' = thumbnails w /\ same_rows w w' /\
    images w' =
      (if Js.truthy storagePath
       then after_remove env IMAGES_BUCKET (default "" storagePath) (images w)
       else images w) /\
    added w w' evs /\
    (Js.truthy storagePath = true ->
       Called (StorageRemove IMAGES_BUCKET (default "" storagePath))
              (negb (fails env (StorageRemove IMAGES_BUCKET (default "" storagePath))))
         ∈ evs) /\
    (Js.truthy storagePath = true ->
       fails env (StorageRemove IMAGES_BUCKET (default "" storagePath)) = true ->
       ConsoleError "Error deleting file:" ∈ evs) /\
    (forall c ok, Called c ok ∈ evs ->
       c = StorageRemove IMAGES_BUCKET (default "" storagePath)).
Proof.
  unfold remove_original, same_rows, added.
  destruct (Js.truthy storagePath) eqn:Ht; simpl.
  - unfold bind. rewrite storage_remove_run.
    destruct (fails env _) eqn:Hf; simpl.
    + do 2 eexists; split; [reflexivity|]. simpl.
      rewrite <- app_assoc. simpl.
      split_and!; try done; in_events.
    + do 2 eexists; split; [reflexivity|]. simpl.
      split_and!; try done; in_events.
  - exists w, []. rewrite app_nil_r. split_and!; try done; in_events.
Qed.

Lemma remove_thumbnail_run thumbnailPath w :
  Js.truthy thumbnailPath = false /\ remove_thumbnail env thumbnailPath w = (Ret tt, w)
  \/ Js.truthy thumbnailPath = true /\
     thumbnail_key env (default "" thumbnailPath) = None /\
     remove_thumbnail env thumbnailPath w = (Throw "TypeError: Invalid URL", w)
  \/ exists key w' evs,
       Js.truthy thumbnailPath = true /\
       thumbnail_key env (default "" thumbnailPath) = Some key /\
       remove_thumbnail env thumbnailPath w = (Ret tt, w') /\
       images w' = images w /\ same_rows w w' /\
       thumbnails w' = after_remove env THUMBNAILS_BUCKET key (thumbnails w) /\
       added w w' evs /\
       Called (StorageRemove THUMBNAILS_BUCKET key)
              (negb (fails env (StorageRemove THUMBNAILS_BUCKET key))) ∈ evs /\
       (fails env (StorageRemove THUMBNAILS_BUCKET key) = true ->
          ConsoleError "Error deleting thumbnail:" ∈ evs) /\
       (forall c ok, Called c ok ∈ evs -> c = StorageRemove THUMBNAILS_BUCKET key).
Proof.
  unfold remove_thumbnail, thumbnail_key, same_rows, added.
  destruct (Js.truthy thumbnailPath) eqn:Ht; [|by left].
  right. set (tp := default "" thumbnailPath).
  assert (forall key,
    exists w' evs,
      (removed <- storage_remove env THUMBNAILS_BUCKET key ;;
       if negb removed then console_error "Error deleting thumbnail:" else ret tt) w
        = (Ret tt, w') /\
      images w' = images w /\ (threads w' = threads w /\ posts w' = posts w /\ rng w' = rng w) /\
      thumbnails w' = after_remove env THUMBNAILS_BUCKET key (thumbnails w) /\
      trace w' = (trace w ++ evs)%list /\
      Called (StorageRemove THUMBNAILS_BUCKET key)
             (negb (fails env (StorageRemove THUMBNAILS_BUCKET key))) ∈ evs /\
      (fails env (StorageRemove THUMBNAILS_BUCKET key) = true ->
         ConsoleError "Error deleting thumbnail:" ∈ evs) /\
      (forall c ok, Called c ok ∈ evs -> c = StorageRemove THUMBNAILS_BUCKET key)) as Hrm.
  { intros key. unfold bind. rewrite storage_remove_run.
    destruct (fails env _) eqn:Hf; simpl.
    - do 2 eexists; split; [reflexivity|]. simpl. rewrite <- app_assoc. simpl.
      split_and!; try done; in_events.
    - do 2 eexists; split; [reflexivity|]. simpl.
      split_and!; try done; in_events. }
  destruct (Js.startsWith "http" tp) eqn:Hh.
  - destruct (URL_pathname env tp) as [pathname|] eqn:Hu; simpl.
    + right. destruct (Hrm (Js.last_segment pathname)) as (w' & evs & Hrun & H).
      exists (Js.last_segment pathname), w', evs. split_and!; try done; apply H.
    + left. done.
  - right. destruct (Hrm tp) as (w' & evs & Hrun & H).
    exists tp, w', evs. split_and!; try done; apply H.
Qed.

End DeleteFile.

(** ** deleteFile is best-effort *)

(** C9.  [deleteFile] never raises: for every pair of arguments, every state
    and every behaviour of the storage service it returns.  The removal of
    the original is attempted whenever a storage path is given, and the
    removal of the thumbnail whenever a thumbnail path is given from which
    a key can be read, each whether or not the other failed.  A removal
    that fails is written to the error log and is not propagated: the
    result is [true] all the same ([false] only for a thumbnail path that
    starts with [http] and is no URL, which is caught).  No row changes. *)
Theorem deleteFile_never_raises (env : Env) (storagePath thumbnailPath : option string)
    (w : World) :
  exists (result : bool) (w' : World) (evs : list event),
    deleteFile env storagePath thumbnailPath w = (Ret result, w') /\
    added w w' evs /\ same_rows w w' /\
    (Js.truthy storagePath = true ->
       attempt env IMAGES_BUCKET (default "" storagePath) ∈ evs) /\
    (forall key,
       Js.truthy thumbnailPath = true ->
       thumbnail_key env (default "" thumbnailPath) = Some key ->
       attempt env THUMBNAILS_BUCKET key ∈ evs) /\
    (Js.truthy storagePath = true ->
       fails env (StorageRemove IMAGES_BUCKET (default "" storagePath)) = true ->
       ConsoleError "Error deleting file:" ∈ evs) /\
    (forall key,
       Js.truthy thumbnailPath = true ->
       thumbnail_key env (default "" thumbnailPath) = Some key ->
       fails env (StorageRemove THUMBNAILS_BUCKET key) = true ->
       ConsoleError "Error deleting thumbnail:" ∈ evs) /\
    (result = false <->
       Js.truthy thumbnailPath = true /\
       thumbnail_key env (default "" thumbnailPath) = None).
Proof.
  rewrite deleteFile_halves. unfold try_catch, bind, attempt.
  destruct (remove_original_run env storagePath w)
    as (w1 & evs1 & -> & Hth1 & Hrows1 & Him1 & Hadd1 & Hcall1 & Hlog1 & _).
  destruct (remove_thumbnail_run env thumbnailPath w1)
    as [[Ht ->] | [(Ht & Hk & ->) | (key & w2 & evs2 & Ht & Hk & -> & Him2 & Hrows2 & Hth2 & Hadd2 & Hcall2 & Hlog2 & _)]].
  - exists true, w1, evs1. split; [done|]. split; [done|]. split; [done|].
    split; [done|]. split; [intros key Ht'; congruence|].
    split; [done|]. split; [intros key Ht'; congruence|].
    split; [done|]. intros [Ht' _]. congruence.
  - exists false, (emit (ConsoleError "Error during file deletion:") w1),
      (evs1 ++ [ConsoleError "Error during file deletion:"])%list.
    split; [done|]. split; [unfold added in *; simpl; by rewrite Hadd1, <- app_assoc|].
    split; [done|].
    split; [intros; apply elem_of_app; left; by apply Hcall1|].
    split; [intros key _ Hk'; congruence|].
    split; [intros; apply elem_of_app; left; by apply Hlog1|].
    split; [intros key _ Hk'; congruence|]. done.
  - exists true, w2, (evs1 ++ evs2)%list.
    split; [done|]. split; [unfold added in *; by rewrite Hadd2, Hadd1, <- app_assoc|].
    split; [unfold same_rows in *; intuition congruence|].
    split; [intros; apply elem_of_app; left; by apply Hcall1|].
    split.
    { intros key' _ Hk'. assert (key' = key) as -> by congruence.
      apply elem_of_app. by right. }
    split; [intros; apply elem_of_app; left; by apply Hlog1|].
    split.
    { intros key' _ Hk' Hf. assert (key' = key) as -> by congruence.
      apply elem_of_app. right. by apply Hlog2. }
    split; [done|]. intros [_ Hk']. congruence.
Qed.

Lemma deleteFile_never_raises_witness :
  exists (w' : World),
    deleteFile (Node.env Sample.images_stuck true) (Some "A.jpg") (Some "A.jpg")
               Sample.world_abc = (Ret true, w') /\
    Called (StorageRemove IMAGES_BUCKET "A.jpg") false ∈ trace w' /\
    ConsoleError "Error deleting file:" ∈ trace w' /\
    Called (StorageRemove THUMBNAILS_BUCKET "A.jpg") true ∈ trace w'.
Proof.
  destruct (deleteFile_never_raises (Node.env Sample.images_stuck true)
              (Some "A.jpg") (Some "A.jpg") Sample.world_abc)
    as (result & w' & evs & Hrun & Hadd & _ & Horig & Hthumb & Hlog & _ & Hres).
  unfold added in Hadd. simpl in Hadd. subst evs.
  destruct result.
  - exists w'. split; [exact Hrun|].
    split; [exact (Horig eq_refl)|].
    split; [exact (Hlog eq_refl eq_refl)|].
    exact (Hthumb "A.jpg" eq_refl eq_refl).
  - destruct Hres as [Hres _]. destruct (Hres eq_refl) as [_ Hk]. discriminate Hk.
Defined.


(** ** The upload pipeline, case by case *)

Section UploadFile.

Context (env : Env) (file : File) (isNsfw : bool) (w : World).

Let key := upload_key env file isNsfw w.
Let mime := mimetype file.

Lemma storage_upload_run b k buf ct w0 :
  storage_upload env b k buf ct w0 =
    (Ret (negb (upload_refused env b k ct w0)),
     emit (Called (StorageUpload b k ct) (negb (upload_refused env b k ct w0)))
          (if upload_refused env b k ct w0 then w0 else put b k buf w0)).
Proof.
  unfold storage_upload, upload_refused, put.
  by destruct (fails env _ || _).
Qed.

Lemma read_bytes buf w0 :
  file_bytes env file = Some buf ->
  (match buffer file with
   | Some buf0 => ret buf0
   | None =>
       match readFileSync env (path file) with
       | Some buf0 => ret buf0
       | None => throw "ENOENT: no such file or directory"
       end
   end) w0 = (Ret buf, w0).
Proof.
  unfold file_bytes. destruct (buffer file); [by intros [= ->]|]. by intros ->.
Qed.

Lemma sharp_run width buf w0 :
  sharp env width buf w0 =
    match sharp_resize env width buf with
    | Some out => (Ret out, emit (Called (SharpResize width) true) w0)
    | None => (Throw "Input buffer contains unsupported image format",
               emit (Called (SharpResize width) false) w0)
    end.
Proof. reflexivity. Qed.

(** Opens [uploadFile] up to its first upload. *)
Ltac open_upload Hb :=
  unfold uploadFile, try_catch, bind, fresh_uuid; simpl;
  change (nsfw_prefix isNsfw +:+ uuidv4 env (rng w)
            +:+ extname env (Js.or_else (originalname file) "unknown.jpg"))
    with key;
  change (mimetype file) with mime;
  try rewrite (read_bytes _ _ Hb);
  rewrite ?storage_upload_run.

Lemma uploadFile_unreadable :
  file_bytes env file = None ->
  uploadFile env (Some file) isNsfw w =
    (Ret None, emits [ConsoleError "Error in uploadFile:"] (tick w)).
Proof.
  unfold file_bytes, uploadFile, try_catch, bind, fresh_uuid. simpl.
  destruct (buffer file); [done|]. by intros ->.
Qed.

Lemma uploadFile_original_refused buf :
  file_bytes env file = Some buf ->
  upload_refused env IMAGES_BUCKET key mime w = true ->
  uploadFile env (Some file) isNsfw w =
    (Ret None,
     emits [Called (StorageUpload IMAGES_BUCKET key mime) false;
            ConsoleError "Error uploading file:";
            ConsoleError "Error in uploadFile:"] (tick w)).
Proof.
  intros Hb Hr. open_upload Hb.
  replace (upload_refused env IMAGES_BUCKET key mime (tick w)) with true. done.
Qed.

Lemma uploadFile_not_image buf :
  file_bytes env file = Some buf ->
  upload_refused env IMAGES_BUCKET key mime w = false ->
  is_image file = false ->
  uploadFile env (Some file) isNsfw w =
    (Ret (Some (record_of env file key None)),
     emits [Called (StorageUpload IMAGES_BUCKET key mime) true]
           (put IMAGES_BUCKET key buf (tick w))).
Proof.
  intros Hb Hr Hi. open_upload Hb.
  replace (upload_refused env IMAGES_BUCKET key mime (tick w)) with false. simpl.
  unfold is_image in Hi. fold mime in Hi. by rewrite Hi.
Qed.

Lemma uploadFile_sharp_fails buf :
  file_bytes env file = Some buf ->
  upload_refused env IMAGES_BUCKET key mime w = false ->
  is_image file = true ->
  sharp_resize env 200 buf = None ->
  uploadFile env (Some file) isNsfw w =
    (Ret (Some (record_of env file key None)),
     emits [Called (StorageUpload IMAGES_BUCKET key mime) true;
            Called (SharpResize 200) false;
            ConsoleError "Error processing thumbnail:"]
           (put IMAGES_BUCKET key buf (tick w))).
Proof.
  intros Hb Hr Hi Hs. open_upload Hb.
  replace (upload_refused env IMAGES_BUCKET key mime (tick w)) with false. simpl.
  unfold is_image in Hi. fold mime in Hi. rewrite Hi.
  rewrite sharp_run, Hs. reflexivity.
Qed.

Lemma uploadFile_thumbnail_refused buf thumb :
  file_bytes env file = Some buf ->
  upload_refused env IMAGES_BUCKET key mime w = false ->
  is_image file = true ->
  sharp_resize env 200 buf = Some thumb ->
  upload_refused env THUMBNAILS_BUCKET key "image/jpeg" w = true ->
  uploadFile env (Some file) isNsfw w =
    (Ret (Some (record_of env file key None)),
     emits [Called (StorageUpload IMAGES_BUCKET key mime) true;
            Called (SharpResize 200) true;
            Called (StorageUpload THUMBNAILS_BUCKET key "image/jpeg") false;
            ConsoleError "Error creating thumbnail:"]
           (put IMAGES_BUCKET key buf (tick w))).
Proof.
  intros Hb Hr Hi Hs Ht. open_upload Hb.
  replace (upload_refused env IMAGES_BUCKET key mime (tick w)) with false. simpl.
  unfold is_image in Hi. fold mime in Hi. rewrite Hi.
  rewrite sharp_run, Hs, storage_upload_run.
  replace (upload_refused env THUMBNAILS_BUCKET key "image/jpeg" _) with true.
  reflexivity.
Qed.

Lemma uploadFile_complete buf thumb :
  file_bytes env file = Some buf ->
  upload_refused env IMAGES_BUCKET key mime w = false ->
  is_image file = true ->
  sharp_resize env 200 buf = Some thumb ->
  upload_refused env THUMBNAILS_BUCKET key "image/jpeg" w = false ->
  uploadFile env (Some file) isNsfw w =
    (Ret (Some (record_of env file key
                  (Some (publicUrl env THUMBNAILS_BUCKET key)))),
     emits [Called (StorageUpload IMAGES_BUCKET key mime) true;
            Called (SharpResize 200) true;
            Called (StorageUpload THUMBNAILS_BUCKET key "image/jpeg") true]
           (put THUMBNAILS_BUCKET key thumb (put IMAGES_BUCKET key buf (tick w)))).
Proof.
  intros Hb Hr Hi Hs Ht. open_upload Hb.
  replace (upload_refused env IMAGES_BUCKET key mime (tick w)) with false. simpl.
  unfold is_image in Hi. fold mime in Hi. rewrite Hi.
  rewrite sharp_run, Hs, storage_upload_run.
  replace (upload_refused env THUMBNAILS_BUCKET key "image/jpeg" _) with false.
  reflexivity.
Qed.

End UploadFile.

(** Every way [uploadFile] can go, for a file whose bytes can be read. *)
Lemma uploadFile_cases env file isNsfw w buf :
  file_bytes env file = Some buf ->
  let key := upload_key env file isNsfw w in
  exists evs,
    (forall b k ct ok, Called (StorageUpload b k ct) ok ∈ evs -> k = key) /\
    (is_image file = false -> forall c ok, Called c ok ∈ evs ->
       c = StorageUpload IMAGES_BUCKET key (mimetype file)) /\
    if upload_refused env IMAGES_BUCKET key (mimetype file) w
    then uploadFile env (Some file) isNsfw w = (Ret None, emits evs (tick w)) /\
         (forall c ok, Called c ok ∈ evs ->
            c = StorageUpload IMAGES_BUCKET key (mimetype file) /\ ok = false)
    else
      match (if is_image file then thumbnail_made env key buf w else None) with
      | Some thumb =>
          uploadFile env (Some file) isNsfw w =
            (Ret (Some (record_of env file key (Some (publicUrl env THUMBNAILS_BUCKET key)))),
             emits evs (put THUMBNAILS_BUCKET key thumb (put IMAGES_BUCKET key buf (tick w))))
      | None =>
          uploadFile env (Some file) isNsfw w =
            (Ret (Some (record_of env file key None)),
             emits evs (put IMAGES_BUCKET key buf (tick w)))
      end.
Proof.
  intros Hb key. unfold thumbnail_made.
  destruct (upload_refused env IMAGES_BUCKET key (mimetype file) w) eqn:Hr.
  { eexists. split; [|split; [|split; [by eapply uploadFile_original_refused|]]];
      in_events. }
  destruct (is_image file) eqn:Hi.
  2:{ eexists. split; [|split; [|by eapply uploadFile_not_image]]; in_events. }
  destruct (sharp_resize env 200 buf) as [thumb|] eqn:Hs.
  2:{ eexists. split; [|split; [|by eapply uploadFile_sharp_fails]]; in_events. }
  destruct (upload_refused env THUMBNAILS_BUCKET key "image/jpeg" w) eqn:Ht.
  - eexists. split; [|split; [|by eapply uploadFile_thumbnail_refused]]; in_events.
  - eexists. split; [|split; [|by eapply uploadFile_complete]]; in_events.
Qed.

Lemma emits_images evs w : images (emits evs w) = images w.
Proof. revert w. induction evs as [|e evs IH]; intros w; [done|]. simpl. by rewrite IH. Qed.

Lemma emits_thumbnails evs w : thumbnails (emits evs w) = thumbnails w.
Proof. revert w. induction evs as [|e evs IH]; intros w; [done|]. simpl. by rewrite IH. Qed.

Lemma emits_threads evs w : threads (emits evs w) = threads w.
Proof. revert w. induction evs as [|e evs IH]; intros w; [done|]. simpl. by rewrite IH. Qed.

Lemma emits_posts evs w : posts (emits evs w) = posts w.
Proof. revert w. induction evs as [|e evs IH]; intros w; [done|]. simpl. by rewrite IH. Qed.

Lemma emits_rng evs w : rng (emits evs w) = rng w.
Proof. revert w. induction evs as [|e evs IH]; intros w; [done|]. simpl. by rewrite IH. Qed.

Lemma emits_trace evs w : trace (emits evs w) = (trace w ++ evs)%list.
Proof.
  revert w. induction evs as [|e evs IH]; intros w; simpl.
  - by rewrite app_nil_r.
  - rewrite IH. simpl. by rewrite <- app_assoc.
Qed.

(** ** Failures of the pipeline *)

(** C2.  When the upload of the original fails, [uploadFile] returns no
    record, nothing is stored and the thumbnail stage is never entered.
    When the original is stored and the file is an image, a failure of the
    resize or of the thumbnail upload is not fatal: [uploadFile] returns the
    record, its thumbnail field absent, and the original stays stored under
    the key of the record. *)
Theorem uploadFile_failures (env : Env) (file : File) (isNsfw : bool) (w : World)
    (buf : bytes) :
  file_bytes env file = Some buf ->
  let key := upload_key env file isNsfw w in
  (upload_refused env IMAGES_BUCKET key (mimetype file) w = true ->
     exists w' evs,
       uploadFile env (Some file) isNsfw w = (Ret None, w') /\
       images w' = images w /\ thumbnails w' = thumbnails w /\
       threads w' = threads w /\ posts w' = posts w /\
       added w w' evs /\
       forall c ok, Called c ok ∈ evs ->
         c = StorageUpload IMAGES_BUCKET key (mimetype file) /\ ok = false)
  /\
  (upload_refused env IMAGES_BUCKET key (mimetype file) w = false ->
   is_image file = true ->
   thumbnail_made env key buf w = None ->
     exists w',
       uploadFile env (Some file) isNsfw w = (Ret (Some (record_of env file key None)), w') /\
       images w' = <[key := buf]> (images w) /\ thumbnails w' = thumbnails w /\
       threads w' = threads w /\ posts w' = posts w).
Proof.
  intros Hb key.
  destruct (uploadFile_cases env file isNsfw w buf Hb) as (evs & _ & _ & H).
  fold key in H. split.
  - intros Hr. rewrite Hr in H. destruct H as [Hrun Hev].
    exists (emits evs (tick w)), evs. split; [done|].
    rewrite emits_images, emits_thumbnails, emits_threads, emits_posts.
    unfold added. rewrite emits_trace. done.
  - intros Hr Hi Ht. rewrite Hr, Hi, Ht in H.
    eexists. split; [done|].
    rewrite emits_images, emits_thumbnails, emits_threads, emits_posts. done.
Qed.

Lemma uploadFile_failures_witness :
  (exists w',
     uploadFile (Node.env Sample.images_down true) (Some Sample.cat_jpeg) false
                Sample.empty_world = (Ret None, w') /\
     images w' = ∅ /\ thumbnails w' = ∅)
  /\
  (exists r w',
     uploadFile (Node.env Sample.no_faults true) (Some Sample.broken_jpeg) false
                Sample.empty_world = (Ret (Some r), w') /\
     thumbnailPath r = None /\
     images w' !! storagePath r = Some [Byte.x00; Byte.x01] /\ thumbnails w' = ∅).
Proof.
  split.
  - destruct (uploadFile_failures (Node.env Sample.images_down true) Sample.cat_jpeg
                false Sample.empty_world _ eq_refl) as [H _].
    destruct (H eq_refl) as (w' & evs & Hrun & Hi & Ht & _).
    exists w'. split; [exact Hrun|]. split; [exact Hi|exact Ht].
  - destruct (uploadFile_failures (Node.env Sample.no_faults true) Sample.broken_jpeg
                false Sample.empty_world _ eq_refl) as [_ H].
    destruct (H eq_refl eq_refl eq_refl) as (w' & Hrun & Hi & Ht & _).
    eexists _, w'. split; [exact Hrun|]. split; [reflexivity|].
    split; [|exact Ht]. rewrite Hi. apply lookup_insert_eq.
Defined.

(** ** Thumbnails *)

(** C7, as stated, fails: a file declared [image/jpeg] whose bytes sharp
    cannot decode is uploaded, on services that do not fail, and the record
    returned carries no thumbnail. *)
Lemma jpeg_without_thumbnail :
  exists (r : UploadedFile) (w' : World),
    mimetype Sample.broken_jpeg = "image/jpeg" /\
    uploadFile (Node.env Sample.no_faults true) (Some Sample.broken_jpeg) false
               Sample.empty_world = (Ret (Some r), w') /\
    thumbnailPath r = None /\
    keys (Node.env Sample.no_faults true) THUMBNAILS_BUCKET w' = [].
Proof.
  eexists _, _. split; [reflexivity|].
  split; [exact (uploadFile_sharp_fails (Node.env Sample.no_faults true)
                   Sample.broken_jpeg false Sample.empty_world _
                   eq_refl eq_refl eq_refl eq_refl)|].
  split; [reflexivity|]. vm_compute. reflexivity.
Qed.

(** C7, amended.  A completed upload carries a thumbnail exactly when the
    file is of an image type (as [image/jpeg] is), sharp resizes its bytes
    to a width of 200 and the thumbnail bucket takes the result; the
    thumbnail stored is that resize, under the key of the original.  A file
    of another type has no thumbnail, and nothing but the upload of the
    original is asked of any service. *)
Theorem uploadFile_thumbnail (env : Env) (file : File) (isNsfw : bool)
    (w w' : World) (r : UploadedFile) :
  uploadFile env (Some file) isNsfw w = (Ret (Some r), w') ->
  let key := upload_key env file isNsfw w in
  exists buf evs,
    file_bytes env file = Some buf /\ added w w' evs /\
    (mimetype file = "image/jpeg" -> is_image file = true) /\
    storagePath r = key /\ images w' = <[key := buf]> (images w) /\
    (is_image file = true ->
       match thumbnail_made env key buf w with
       | Some thumb =>
           thumbnailPath r = Some (publicUrl env THUMBNAILS_BUCKET key) /\
           thumbnails w' = <[key := thumb]> (thumbnails w) /\
           sharp_resize env 200 buf = Some thumb
       | None => thumbnailPath r = None /\ thumbnails w' = thumbnails w
       end) /\
    (is_image file = false ->
       thumbnailPath r = None /\ thumbnails w' = thumbnails w /\
       forall c ok, Called c ok ∈ evs ->
         c = StorageUpload IMAGES_BUCKET key (mimetype file)).
Proof.
  intros Hrun key.
  destruct (file_bytes env file) as [buf|] eqn:Hb.
  2:{ rewrite (uploadFile_unreadable _ _ _ _ Hb) in Hrun. discriminate. }
  destruct (uploadFile_cases env file isNsfw w buf Hb) as (evs & _ & Hni & H).
  fold key in H, Hni. exists buf, evs. split; [done|].
  assert (mimetype file = "image/jpeg" -> is_image file = true) as Hjpeg.
  { unfold is_image. by intros ->. }
  destruct (upload_refused env IMAGES_BUCKET key (mimetype file) w).
  { destruct H as [H _]. rewrite H in Hrun. discriminate. }
  destruct (is_image file) eqn:Hi.
  - unfold thumbnail_made in *.
    destruct (sharp_resize env 200 buf) as [thumb|];
      [destruct (upload_refused env THUMBNAILS_BUCKET key "image/jpeg" w)|];
      rewrite H in Hrun; injection Hrun as <- <-;
      (split; [unfold added; by rewrite emits_trace|]);
      rewrite emits_images, emits_thumbnails; done.
  - rewrite H in Hrun. injection Hrun as <- <-.
    split; [unfold added; by rewrite emits_trace|].
    rewrite emits_images, emits_thumbnails.
    split_and!; try done. intros _. split_and!; try done. by apply Hni.
Qed.

Lemma uploadFile_thumbnail_witness :
  exists (r : UploadedFile) (w' : World),
    uploadFile (Node.env Sample.no_faults true) (Some Sample.cat_jpeg) true
               Sample.empty_world = (Ret (Some r), w') /\
    storagePath r = "nsfw/6f1c2a9e-5b7d-4c3a-9e21-000000000000.jpg" /\
    is_Some (thumbnailPath r) /\
    thumbnails w' !! storagePath r = Some [Byte.xff; Byte.xd8; Byte.xc8].
Proof.
  destruct (uploadFile (Node.env Sample.no_faults true) (Some Sample.cat_jpeg) true
              Sample.empty_world) as [o w'] eqn:Hrun.
  assert (exists r, o = Ret (Some r)) as [r ->].
  { vm_compute in Hrun. injection Hrun as <- _. eexists. reflexivity. }
  destruct (uploadFile_thumbnail _ _ _ _ _ _ Hrun)
    as (buf & evs & Hb & _ & Hjpeg & Hkey & _ & Himg & _).
  specialize (Himg (Hjpeg eq_refl)). injection Hb as <-.
  change (thumbnail_made _ _ _ _) with (Some [Byte.xff; Byte.xd8; Byte.xc8]) in Himg.
  destruct Himg as (Hurl & Hth & _).
  exists r, w'. split; [reflexivity|]. split; [by rewrite Hkey|].
  split; [by rewrite Hurl|]. rewrite Hth, Hkey. apply lookup_insert_eq.
Defined.

(** ** One key per upload *)

(** C8.  One call of [uploadFile] draws one identifier, and every upload it
    asks for, in either bucket, is under the one key made of the NSFW
    prefix, that identifier and the extension of the original name.  The
    record carries that key; the original is stored under it in the image
    bucket and, when the record has a thumbnail, the thumbnail is stored
    under it in the thumbnail bucket, its URL being the public URL of that
    key. *)
Theorem uploadFile_one_key (env : Env) (file : File) (isNsfw : bool) (w : World) :
  let key := upload_key env file isNsfw w in
  exists o w' evs,
    uploadFile env (Some file) isNsfw w = (Ret o, w') /\
    rng w' = S (rng w) /\ added w w' evs /\
    (forall b k ct ok, Called (StorageUpload b k ct) ok ∈ evs -> k = key) /\
    (forall r, o = Some r ->
       storagePath r = key /\ is_Some (images w' !! key) /\
       (is_Some (thumbnailPath r) ->
          thumbnailPath r = Some (publicUrl env THUMBNAILS_BUCKET key) /\
          is_Some (thumbnails w' !! key) /\
          Called (StorageUpload IMAGES_BUCKET key (mimetype file)) true ∈ evs /\
          Called (StorageUpload THUMBNAILS_BUCKET key "image/jpeg") true ∈ evs)).
Proof.
  intros key.
  destruct (file_bytes env file) as [buf|] eqn:Hb.
  2:{ rewrite (uploadFile_unreadable _ _ _ _ Hb).
      eexists _, _, _. split; [done|]. rewrite emits_rng. split; [done|].
      split; [unfold added; by rewrite emits_trace|]. split; in_events. }
  destruct (uploadFile_cases env file isNsfw w buf Hb) as (evs & Hkey & _ & H).
  fold key in H, Hkey.
  destruct (upload_refused env IMAGES_BUCKET key (mimetype file) w) eqn:Hr.
  { destruct H as [-> _]. exists None, (emits evs (tick w)), evs.
    rewrite emits_rng. split; [done|]. split; [done|].
    split; [unfold added; by rewrite emits_trace|]. split; [done|]. done. }
  unfold thumbnail_made in H.
  destruct (is_image file) eqn:Hi;
    [destruct (sharp_resize env 200 buf) as [thumb|] eqn:Hs;
       [destruct (upload_refused env THUMBNAILS_BUCKET key "image/jpeg" w) eqn:Hrt|]|].
  all: rewrite H; eexists _, _, evs; split; [done|];
    rewrite emits_rng; (split; [by destruct isNsfw|]);
    (split; [unfold added; by rewrite emits_trace|]); (split; [done|]);
    intros r [= <-]; split; [done|]; rewrite emits_images, ?emits_thumbnails;
    (split; [by (simpl; rewrite lookup_insert_eq)|]).
  all: try by intros [url [=]].
  intros _. split; [done|]. simpl. rewrite lookup_insert_eq. split; [done|].
  pose proof (uploadFile_complete env file isNsfw w buf thumb Hb Hr Hi Hs Hrt) as Hfull.
  fold key in Hfull. rewrite H in Hfull. injection Hfull as Hw.
  apply (f_equal trace) in Hw. rewrite emits_trace in Hw. simpl in Hw.
  rewrite <- !app_assoc in Hw. apply app_inv_head in Hw. subst evs. simpl.
  split; in_events.
Qed.

Lemma uploadFile_one_key_witness :
  exists (r : UploadedFile) (w' : World),
    uploadFile (Node.env Sample.no_faults true) (Some Sample.cat_jpeg) true
               Sample.empty_world = (Ret (Some r), w') /\
    storagePath r = "nsfw/6f1c2a9e-5b7d-4c3a-9e21-000000000000.jpg" /\
    rng w' = 1 /\
    Called (StorageUpload IMAGES_BUCKET (storagePath r) "image/jpeg") true ∈ trace w' /\
    Called (StorageUpload THUMBNAILS_BUCKET (storagePath r) "image/jpeg") true ∈ trace w'.
Proof.
  destruct (uploadFile_one_key (Node.env Sample.no_faults true) Sample.cat_jpeg true
              Sample.empty_world) as (o & w' & evs & Hrun & Hrng & Hadd & _ & Hrec).
  pose proof Hrun as Hnf. vm_compute in Hnf. injection Hnf as Ho _. symmetry in Ho.
  destruct (Hrec _ Ho) as (Hkey & _ & Hthumb).
  destruct Hthumb as (_ & _ & Hup1 & Hup2); [eexists; reflexivity|].
  unfold added in Hadd. cbn [trace Sample.empty_world app] in Hadd. subst evs.
  eexists _, w'. split; [rewrite <- Ho; exact Hrun|].
  split; [exact Hkey|]. split; [exact Hrng|]. split; [exact Hup1|exact Hup2].
Defined.

(** ** Upload, then delete *)

(** What [deleteFile] leaves of the two buckets. *)
Lemma deleteFile_effect (env : Env) (storagePath thumbnailPath : option string)
    (w : World) :
  exists (result : bool) (w' : World),
    deleteFile env storagePath thumbnailPath w = (Ret result, w') /\
    same_rows w w' /\
    (result = false <->
       Js.truthy thumbnailPath = true /\
       thumbnail_key env (default "" thumbnailPath) = None) /\
    images w' =
      (if Js.truthy storagePath
       then after_remove env IMAGES_BUCKET (default "" storagePath) (images w)
       else images w) /\
    thumbnails w' =
      (if Js.truthy thumbnailPath then
         match thumbnail_key env (default "" thumbnailPath) with
         | Some key => after_remove env THUMBNAILS_BUCKET key (thumbnails w)
         | None => thumbnails w
         end
       else thumbnails w).
Proof.
  rewrite deleteFile_halves. unfold try_catch, bind.
  destruct (remove_original_run env storagePath w)
    as (w1 & evs1 & -> & Hth1 & Hrows1 & Him1 & _).
  destruct (remove_thumbnail_run env thumbnailPath w1)
    as [[Ht ->] | [(Ht & Hk & ->) | (key & w2 & evs2 & Ht & Hk & -> & Him2 & Hrows2 & Hth2 & _)]];
    rewrite Ht, ?Hk.
  - exists true, w1. split_and!; try done. intuition congruence.
  - eexists false, _. split; [done|]. simpl. done.
  - exists true, w2. split; [done|]. unfold same_rows in *.
    rewrite Him2, Hth2, Hth1. split_and!; intuition congruence.
Qed.

(** X1.  The keys of a bucket that are not under the NSFW prefix are deleted
    with their thumbnail: when the URL of the thumbnail leads back to the
    key, and the store removes what it is asked to, neither object is
    stored, or listed, after [deleteFile]. *)
Lemma upload_then_delete (env : Env) (file : File) (isNsfw : bool)
    (w w1 : World) (r : UploadedFile) :
  uploadFile env (Some file) isNsfw w = (Ret (Some r), w1) ->
  Js.truthy (Some (storagePath r)) = true ->
  fails env (StorageRemove IMAGES_BUCKET (storagePath r)) = false ->
  fails env (StorageRemove THUMBNAILS_BUCKET (storagePath r)) = false ->
  (forall url, thumbnailPath r = Some url ->
     Js.truthy (Some url) = true /\ thumbnail_key env url = Some (storagePath r)) ->
  exists w2,
    deleteFile env (Some (storagePath r)) (thumbnailPath r) w1 = (Ret true, w2) /\
    ~ stored IMAGES_BUCKET (storagePath r) w2 /\
    (is_Some (thumbnailPath r) -> ~ stored THUMBNAILS_BUCKET (storagePath r) w2) /\
    (lists_all env ->
       ~ listed env IMAGES_BUCKET (storagePath r) w2 /\
       (is_Some (thumbnailPath r) -> ~ listed env THUMBNAILS_BUCKET (storagePath r) w2)).
Proof.
  intros Hrun Hsp Hfi Hft Hurl.
  destruct (deleteFile_effect env (Some (storagePath r)) (thumbnailPath r) w1)
    as (result & w2 & Hdel & _ & Hres & Him & Hth).
  rewrite Hsp in Him. unfold after_remove in Him. simpl in Him. rewrite Hfi in Him.
  assert (result = true) as ->.
  { destruct result; [done|]. destruct Hres as [Hres _].
    destruct (Hres eq_refl) as [Ht Hk].
    destruct (thumbnailPath r) as [url|]; [|done].
    destruct (Hurl url eq_refl) as [_ Hk']. simpl in Hk. congruence. }
  assert (~ stored IMAGES_BUCKET (storagePath r) w2) as Hgone.
  { unfold stored. simpl. rewrite Him, lookup_delete_eq. by intros [? ?]. }
  assert (is_Some (thumbnailPath r) -> ~ stored THUMBNAILS_BUCKET (storagePath r) w2)
    as Hgone'.
  { intros [url Hu]. rewrite Hu in Hth. destruct (Hurl url Hu) as [Ht Hk].
    rewrite Ht in Hth. simpl in Hth. rewrite Hk in Hth.
    unfold after_remove in Hth. rewrite Hft in Hth.
    unfold stored. simpl. rewrite Hth, lookup_delete_eq. by intros [? ?]. }
  exists w2. split; [done|]. split; [done|]. split; [done|].
  intros Hall. rewrite !listed_stored by done. done.
Qed.

(** A thumbnail whose key is not the last segment of its URL stays: when
    [deleteFile] reads from the URL of the record a key other than the one
    the thumbnail was stored under, the thumbnail is still stored after
    it, whatever the services do. *)
Lemma thumbnail_survives (env : Env) (file : File) (isNsfw : bool)
    (w w1 w2 : World) (r : UploadedFile) (url name : string) (result : bool) :
  uploadFile env (Some file) isNsfw w = (Ret (Some r), w1) ->
  thumbnailPath r = Some url ->
  thumbnail_key env url = Some name ->
  name <> storagePath r ->
  deleteFile env (Some (storagePath r)) (thumbnailPath r) w1 = (Ret result, w2) ->
  stored THUMBNAILS_BUCKET (storagePath r) w2.
Proof.
  intros Hup Hurl Hname Hne Hdel.
  assert (stored THUMBNAILS_BUCKET (storagePath r) w1) as Hstored.
  { destruct (file_bytes env file) as [buf|] eqn:Hb.
    2:{ rewrite (uploadFile_unreadable _ _ _ _ Hb) in Hup. discriminate. }
    destruct (uploadFile_cases env file isNsfw w buf Hb) as (evs & _ & _ & H).
    destruct (upload_refused env IMAGES_BUCKET _ (mimetype file) w).
    { destruct H as [H _]. rewrite H in Hup. discriminate. }
    destruct (if is_image file then _ else None) as [thumb|];
      rewrite H in Hup; injection Hup as <- <-; [|discriminate].
    unfold stored. simpl. rewrite emits_thumbnails. simpl.
    rewrite lookup_insert_eq. eauto. }
  destruct (deleteFile_effect env (Some (storagePath r)) (thumbnailPath r) w1)
    as (result' & w2' & Hdel' & _ & _ & _ & Hth).
  rewrite Hdel in Hdel'. injection Hdel' as <- <-.
  rewrite Hurl in Hth. unfold stored. simpl.
  destruct (Js.truthy (Some url)); simpl in Hth; [|by rewrite Hth].
  rewrite Hname in Hth. rewrite Hth. unfold after_remove.
  destruct (fails env _); [done|]. by rewrite lookup_delete_ne.
Qed.

(** C1, on the code.  A JPEG is uploaded with the NSFW flag, on services
    that never fail, and [deleteFile] is called with the [storagePath] and
    the [thumbnailPath] of the record.  The original is gone; the thumbnail
    is still listed in the thumbnail bucket, since [deleteFile] asked to
    remove the last segment of the thumbnail URL, which lacks the [nsfw/]
    prefix of the key. *)
Theorem nsfw_thumbnail_survives_deleteFile :
  let env := Node.env Sample.no_faults true in
  match uploadFile env (Some Sample.cat_jpeg) true Sample.empty_world with
  | (Ret (Some r), w1) =>
      storagePath r = "nsfw/6f1c2a9e-5b7d-4c3a-9e21-000000000000.jpg" /\
      thumbnailPath r =
        Some ("https://darkchan.supabase.co/storage/v1/object/public/board-thumbnails/"
              ++ "nsfw/6f1c2a9e-5b7d-4c3a-9e21-000000000000.jpg") /\
      keys env IMAGES_BUCKET w1 = [storagePath r] /\
      keys env THUMBNAILS_BUCKET w1 = [storagePath r] /\
      match deleteFile env (Some (storagePath r)) (thumbnailPath r) w1 with
      | (result, w2) =>
          result = Ret true /\
          keys env IMAGES_BUCKET w2 = [] /\
          keys env THUMBNAILS_BUCKET w2 = [storagePath r] /\
          skipn (length (trace w1)) (trace w2) =
            [Called (StorageRemove IMAGES_BUCKET
                       "nsfw/6f1c2a9e-5b7d-4c3a-9e21-000000000000.jpg") true;
             Called (StorageRemove THUMBNAILS_BUCKET
                       "6f1c2a9e-5b7d-4c3a-9e21-000000000000.jpg") true]
      end
  | _ => False
  end.
Proof. vm_compute. by repeat split. Qed.

(** ** Tripcodes *)

Lemma truthy_nonempty (s : string) : s <> "" -> Js.truthy (Some s) = true.
Proof.
  intros Hs. unfold Js.truthy. destruct (String.eqb_spec s ""); [done|reflexivity].
Qed.

Lemma truthy_Some (v : option string) :
  Js.truthy v = true -> exists s, v = Some s /\ s <> "".
Proof.
  destruct v as [s|]; [|done]. simpl.
  destruct (String.eqb_spec s ""); [done|]. eauto.
Qed.

(** C5.  A password that is not empty has a token, and [verifyTripcode]
    accepts the password against its own token, whatever the salt and the
    digest; without a password, or with the empty one, [generateTripcode]
    returns no token. *)
Theorem tripcode_roundtrip (env : Env) (p : string) :
  p <> "" ->
  (exists token,
     generateTripcode env (Some p) = Some token /\
     verifyTripcode env (Some p) (generateTripcode env (Some p)) = true) /\
  generateTripcode env None = None /\
  generateTripcode env (Some "") = None.
Proof.
  intros Hp. split; [|done].
  unfold verifyTripcode, generateTripcode.
  rewrite (truthy_nonempty p Hp). simpl.
  eexists. split; [reflexivity|]. by apply bool_decide_eq_true.
Qed.

Lemma tripcode_roundtrip_witness :
  generateTripcode (Node.env Sample.no_faults true) (Some "deletepass")
    = Some "XKaavP.7v," /\
  verifyTripcode (Node.env Sample.no_faults true) (Some "deletepass")
    (generateTripcode (Node.env Sample.no_faults true) (Some "deletepass")) = true.
Proof.
  destruct (tripcode_roundtrip (Node.env Sample.no_faults true) "deletepass")
    as [[token [_ Hv]] _]; [discriminate|].
  split; [vm_compute; reflexivity|exact Hv].
Defined.

(** ** Validation of a new thread *)

(** Without a file, a blank comment is turned down with status 400: by the
    schema when it is missing or empty, by the check that follows when it is
    white space. *)
Lemma validateThread_blank_no_file (body : ThreadBody) :
  comment_is_blank (comment body) = true ->
  exists res, validateThread false body = inl res /\ status res = 400.
Proof.
  intros Hblank. unfold validateThread.
  destruct (thread_schema body) as [e|value]; [by eexists|].
  rewrite Hblank. by eexists.
Qed.

(** X2.  With a comment that the schema accepts and that is not white space, and
    no file, the thread is created, and every file column of its row is
    absent. *)
Lemma post_thread_comment_only (env : Env) (body : ThreadBody) (value : ThreadValue)
    (w : World) :
  validateThread false body = inr value ->
  fails env (DbInsert THREADS (uuidv4 env (rng w))) = false ->
  threads w !! uuidv4 env (rng w) = None ->
  exists row w',
    post_thread env None body w =
      (Ret (mkResponse 201 (Created "Thread created successfully" row)), w') /\
    threads w' = <[t_id row := row]> (threads w) /\
    t_comment row = v_comment value /\
    t_file_name row = None /\ t_file_path row = None /\ t_file_size row = None /\
    t_file_type row = None /\ t_thumbnail_path row = None /\
    t_storage_path row = None /\ t_images_count row = None /\
    images w' = images w /\ thumbnails w' = thumbnails w.
Proof.
  intros Hv Hf Hfree.
  unfold post_thread, processUpload, bind, ret. simpl.
  change (bool_decide (is_Some (@None File))) with false. rewrite Hv.
  unfold createThread, try_catch, bind, fresh_uuid, db_insert_thread. simpl.
  rewrite Hf, Hfree. simpl.
  eexists _, _. split; [reflexivity|]. done.
Qed.

(** C6, on the code.  A request with a file attached and no comment is
    rejected with status 400 by the schema, which requires the comment
    before the check for "either an image or a comment" is reached; so is
    one whose comment is the empty string.  On the route, the file has been
    uploaded by then. *)
Theorem file_without_comment_rejected :
  validateThread true (body_with_comment JUndefined)
    = inl (mkResponse 400 (ValidationError [Joi.any_required "comment"])) /\
  validateThread true (body_with_comment (JString ""))
    = inl (mkResponse 400 (ValidationError [Joi.string_empty "comment"])) /\
  match post_thread (Node.env Sample.no_faults true) (Some Sample.cat_jpeg)
          (body_with_comment JUndefined) Sample.empty_world with
  | (res, w') =>
      res = Ret (mkResponse 400 (ValidationError [Joi.any_required "comment"])) /\
      keys (Node.env Sample.no_faults true) IMAGES_BUCKET w'
        = ["6f1c2a9e-5b7d-4c3a-9e21-000000000000.jpg"] /\
      threads w' = ∅
  end.
Proof. vm_compute. by repeat split. Qed.

(** ** The orphan reconciler *)

Section Sweep.

Context (env : Env).

Lemma elem_of_add_paths (V : gset string) (records : list string) (k : string) :
  k ∈ add_paths V records <-> k ∈ V \/ (k ∈ records /\ k <> "").
Proof.
  unfold add_paths. revert V. induction records as [|p records IH]; intros V; simpl.
  - split; [by left|]. intros [?|[H _]]; [done|]. by apply elem_of_nil in H.
  - rewrite IH. destruct (String.eqb_spec p "") as [->|Hp]; simpl.
    + rewrite elem_of_cons. naive_solver.
    + rewrite elem_of_union, elem_of_singleton, elem_of_cons. naive_solver.
Qed.

Lemma elem_of_valid_paths (w : World) (k : string) :
  k ∈ valid_paths w <-> referenced w k.
Proof.
  unfold valid_paths, referenced.
  rewrite !elem_of_add_paths, !list_elem_of_omap.
  split.
  - intros [[H|[(t & Hin & Ht) Hk]]|[(p & Hin & Hp) Hk]].
    + by apply not_elem_of_empty in H.
    + split; [done|]. left. apply list_elem_of_fmap in Hin as ([id t'] & -> & Hin).
      apply elem_of_map_to_list in Hin. eauto.
    + split; [done|]. right. apply list_elem_of_fmap in Hin as ([id p'] & -> & Hin).
      apply elem_of_map_to_list in Hin. eauto.
  - intros [Hk [(id & t & Hl & Ht)|(id & p & Hl & Hp)]].
    + left. right. split; [|done]. exists t. split; [|done].
      apply list_elem_of_fmap. exists (id, t). split; [done|].
      by apply elem_of_map_to_list.
    + right. split; [|done]. exists p. split; [|done].
      apply list_elem_of_fmap. exists (id, p). split; [done|].
      by apply elem_of_map_to_list.
Qed.

Lemma sweep_cons (b : bucket) (validPaths : gset string) (name : string)
    (rest : list string) (n : nat) :
  sweep env b validPaths (name :: rest) n =
    if bool_decide (name ∈ validPaths) then sweep env b validPaths rest n
    else
      removed <- storage_remove env b name ;;
      sweep env b validPaths rest (if removed then S n else n).
Proof. reflexivity. Qed.

Lemma sweep_run (b : bucket) (validPaths : gset string) (files : list string)
    (n : nat) (w : World) :
  exists w',
    sweep env b validPaths files n w =
      (Ret (n + length (filter (removed_by_sweep env b validPaths) files)), w') /\
    same_rows w w' /\
    (forall b', b' <> b -> objects b' w' = objects b' w) /\
    (forall k, objects b w' !! k =
               if decide (k ∈ files /\ removed_by_sweep env b validPaths k)
               then None else objects b w !! k) /\
    trace w' = (trace w ++ (attempt env b <$> filter (.∉ validPaths) files))%list.
Proof.
  revert n w. induction files as [|name rest IH]; intros n w.
  - exists w. split; [by rewrite Nat.add_0_r|]. split; [done|]. split; [done|].
    split; [|by rewrite app_nil_r].
    intros k. destruct (decide _) as [[H _]|]; [by apply elem_of_nil in H|done].
  - rewrite sweep_cons. case_bool_decide as Hv.
    + destruct (IH n w) as (w' & Hrun & Hrows & Hoth & Hobj & Htr).
      exists w'. rewrite filter_cons_False by (intros [? _]; done).
      rewrite filter_cons_False by (intros ?; done).
      split; [done|]. split; [done|]. split; [done|]. split; [|done].
      intros k. rewrite Hobj. unfold removed_by_sweep.
      destruct (decide (k ∈ rest /\ _)) as [[H1 H2]|Hn];
        destruct (decide (k ∈ name :: rest /\ _)) as [[H3 H4]|Hn']; try done.
      * exfalso. apply Hn'. split; [by apply elem_of_cons; right|done].
      * exfalso. apply elem_of_cons in H3 as [->|H3]; [by destruct H4|].
        by apply Hn.
    + unfold bind. rewrite storage_remove_run.
      rewrite (filter_cons_True (.∉ validPaths)) by done.
      destruct (fails env (StorageRemove b name)) eqn:Hf; cbn [negb].
      * destruct (IH n (emit (Called (StorageRemove b name) false)
                          (set_objects b (after_remove env b name (objects b w)) w)))
          as (w' & Hrun & Hrows & Hoth & Hobj & Htr).
        exists w'. rewrite filter_cons_False by (intros [_ ?]; congruence).
        split; [done|].
        split; [unfold same_rows in *; cbn [threads posts rng emit] in Hrows;
                by rewrite set_objects_threads, set_objects_posts, set_objects_rng in Hrows|].
        split.
        { intros b' Hb'. rewrite Hoth by done. rewrite emit_objects.
          by apply set_objects_other. }
        split.
        { intros k. rewrite Hobj, emit_objects, set_objects_same.
          unfold after_remove. rewrite Hf. unfold removed_by_sweep.
          destruct (decide (k ∈ rest /\ _)) as [[H1 H2]|Hn];
            destruct (decide (k ∈ name :: rest /\ _)) as [[H3 H4]|Hn']; try done.
          - exfalso. apply Hn'. split; [by apply elem_of_cons; right|done].
          - exfalso. apply elem_of_cons in H3 as [->|H3]; [destruct H4; congruence|].
            by apply Hn. }
        rewrite Htr. cbn [trace emit]. rewrite set_objects_trace, <- app_assoc.
        rewrite fmap_cons. unfold attempt at 2. by rewrite Hf.
      * destruct (IH (S n) (emit (Called (StorageRemove b name) true)
                          (set_objects b (after_remove env b name (objects b w)) w)))
          as (w' & Hrun & Hrows & Hoth & Hobj & Htr).
        exists w'. rewrite filter_cons_True by done. cbn [length].
        split; [by rewrite Hrun, Nat.add_succ_r|].
        split; [unfold same_rows in *; cbn [threads posts rng emit] in Hrows;
                by rewrite set_objects_threads, set_objects_posts, set_objects_rng in Hrows|].
        split.
        { intros b' Hb'. rewrite Hoth by done. rewrite emit_objects.
          by apply set_objects_other. }
        split.
        { intros k. rewrite Hobj, emit_objects, set_objects_same.
          unfold after_remove. rewrite Hf. unfold removed_by_sweep.
          destruct (decide (k = name)) as [->|Hne].
          - rewrite lookup_delete_eq.
            destruct (decide (name ∈ name :: rest /\ _)) as [?|Hn']; [by case_match|].
            exfalso. apply Hn'. split; [apply list_elem_of_here|done].
          - rewrite lookup_delete_ne by done.
            destruct (decide (k ∈ rest /\ _)) as [[H1 H2]|Hn];
              destruct (decide (k ∈ name :: rest /\ _)) as [[H3 H4]|Hn']; try done.
            + exfalso. apply Hn'. split; [by apply elem_of_cons; right|done].
            + exfalso. apply elem_of_cons in H3 as [->|H3]; [done|]. by apply Hn. }
        rewrite Htr. cbn [trace emit]. rewrite set_objects_trace, <- app_assoc.
        rewrite fmap_cons. unfold attempt at 2. by rewrite Hf.
Qed.

End Sweep.

(** X3.  When a listing or a query fails, the run stops before any removal and
    returns 0. *)
Lemma cleanup_read_failure (env : Env) (w : World) :
  fails env (StorageList IMAGES_BUCKET) = true
  \/ fails env (StorageList THUMBNAILS_BUCKET) = true
  \/ fails env (DbSelectPaths THREADS) = true
  \/ fails env (DbSelectPaths POSTS) = true ->
  exists evs,
    cleanupOrphanedFiles env w = (Ret 0, emits evs w) /\
    forall c ok, Called c ok ∈ evs ->
      c = StorageList IMAGES_BUCKET \/ c = StorageList THUMBNAILS_BUCKET
      \/ c = DbSelectPaths THREADS \/ c = DbSelectPaths POSTS.
Proof.
  intros Hfail.
  unfold cleanupOrphanedFiles, try_catch, bind, storage_list, db_select_storage_paths.
  destruct (fails env (StorageList IMAGES_BUCKET)).
  { eexists [_; _]. split; [reflexivity|]. in_events; tauto. }
  destruct (fails env (StorageList THUMBNAILS_BUCKET)).
  { eexists [_; _; _]. split; [reflexivity|]. in_events; tauto. }
  destruct (fails env (DbSelectPaths THREADS)).
  { eexists [_; _; _; _]. split; [reflexivity|]. in_events; tauto. }
  destruct (fails env (DbSelectPaths POSTS)).
  { eexists [_; _; _; _; _]. split; [reflexivity|]. in_events; tauto. }
  intuition discriminate.
Qed.

(** C3.  When the two listings and the two queries succeed, one run of
    [cleanupOrphanedFiles] deletes from each bucket exactly the listed
    objects whose key no thread and no post references, each unless its own
    removal fails; every other object, the referenced ones among them, is
    retained untouched, and nothing is added.  The removals asked of the
    store are those of the listed orphans, one for each and in the order of
    the listings, whatever became of the others; no row changes; and the
    count returned is the number of removals the store carried out. *)
Theorem cleanup_removes_exactly_orphans (env : Env) (w : World) :
  fails env (StorageList IMAGES_BUCKET) = false ->
  fails env (StorageList THUMBNAILS_BUCKET) = false ->
  fails env (DbSelectPaths THREADS) = false ->
  fails env (DbSelectPaths POSTS) = false ->
  exists (deletedCount : nat) (w' : World),
    cleanupOrphanedFiles env w = (Ret deletedCount, w') /\
    same_rows w w' /\
    (forall k, k ∈ valid_paths w <-> referenced w k) /\
    (forall b k,
       stored b k w /\ ~ stored b k w' <->
       stored b k w /\ listed env b k w /\ ~ referenced w k /\
       fails env (StorageRemove b k) = false) /\
    (forall b k, stored b k w -> referenced w k -> stored b k w') /\
    (forall b k, stored b k w' -> objects b w' !! k = objects b w !! k) /\
    added w w'
      ([Called (StorageList IMAGES_BUCKET) true;
        Called (StorageList THUMBNAILS_BUCKET) true;
        Called (DbSelectPaths THREADS) true;
        Called (DbSelectPaths POSTS) true]
       ++ (attempt env IMAGES_BUCKET
             <$> filter (.∉ valid_paths w) (keys env IMAGES_BUCKET w))
       ++ (attempt env THUMBNAILS_BUCKET
             <$> filter (.∉ valid_paths w) (keys env THUMBNAILS_BUCKET w)))%list /\
    deletedCount =
      length (filter (removed_by_sweep env IMAGES_BUCKET (valid_paths w))
                     (keys env IMAGES_BUCKET w))
      + length (filter (removed_by_sweep env THUMBNAILS_BUCKET (valid_paths w))
                       (keys env THUMBNAILS_BUCKET w)).
Proof.
  intros Hli Hlt Hqt Hqp.
  unfold cleanupOrphanedFiles, try_catch, bind, storage_list, db_select_storage_paths.
  rewrite Hli. cbn [objects images thumbnails emit]. rewrite Hlt.
  cbn [threads posts emit]. rewrite Hqt, Hqp.
  change (add_paths (add_paths ∅ _) _) with (valid_paths w).
  change (list_names env IMAGES_BUCKET (map_to_list (images w)).*1)
    with (keys env IMAGES_BUCKET w).
  change (list_names env THUMBNAILS_BUCKET (map_to_list (thumbnails w)).*1)
    with (keys env THUMBNAILS_BUCKET w).
  set (w4 := emit _ (emit _ (emit _ (emit _ w)))).
  destruct (sweep_run env IMAGES_BUCKET (valid_paths w) (keys env IMAGES_BUCKET w) 0 w4)
    as (w5 & -> & Hrows5 & Hoth5 & Hobj5 & Htr5).
  destruct (sweep_run env THUMBNAILS_BUCKET (valid_paths w) (keys env THUMBNAILS_BUCKET w)
              (0 + length (filter (removed_by_sweep env IMAGES_BUCKET (valid_paths w))
                                  (keys env IMAGES_BUCKET w))) w5)
    as (w6 & -> & Hrows6 & Hoth6 & Hobj6 & Htr6).
  exists (length (filter (removed_by_sweep env IMAGES_BUCKET (valid_paths w))
                         (keys env IMAGES_BUCKET w))
          + length (filter (removed_by_sweep env THUMBNAILS_BUCKET (valid_paths w))
                           (keys env THUMBNAILS_BUCKET w))), w6.
  split; [done|].
  split; [unfold same_rows in *; subst w4; simpl in *; intuition congruence|].
  split; [apply elem_of_valid_paths|].
  assert (forall b k, objects b w6 !! k =
            if decide (k ∈ keys env b w /\ removed_by_sweep env b (valid_paths w) k)
            then None else objects b w !! k) as Hobj.
  { intros [] k.
    - rewrite (Hoth6 IMAGES_BUCKET) by done. by rewrite Hobj5.
    - rewrite Hobj6. by rewrite (Hoth5 THUMBNAILS_BUCKET) by done. }
  split; [|split; [|split; [|split; [|done]]]].
  - intros b k. unfold stored, listed. rewrite Hobj, <- elem_of_valid_paths.
    unfold removed_by_sweep.
    destruct (decide _) as [(Hin & Hnv & Hf)|Hn].
    + split; [|intros (? & _); split; [done|by intros [? ?]]].
      intros [Hs _]. done.
    + split; [by intros [? ?]|]. intros (Hs & Hin & Hnv & Hf). exfalso. by apply Hn.
  - intros b k Hs Href. unfold stored. rewrite Hobj.
    destruct (decide _) as [(_ & Hnv & _)|_]; [|done].
    exfalso. by apply Hnv, elem_of_valid_paths.
  - intros b k. unfold stored. rewrite Hobj.
    destruct (decide _); [by intros [? ?]|done].
  - unfold added. rewrite Htr6, Htr5. subst w4. simpl.
    by rewrite <- !app_assoc.
Qed.

Lemma cleanup_removes_exactly_orphans_witness :
  exists (deletedCount : nat) (w' : World),
    cleanupOrphanedFiles (Node.env Sample.no_faults true) Sample.world_abc
      = (Ret deletedCount, w') /\
    deletedCount = 3 /\
    stored IMAGES_BUCKET "A.jpg" w' /\
    ~ stored IMAGES_BUCKET "B.jpg" w' /\
    ~ stored IMAGES_BUCKET "C.jpg" w' /\
    stored THUMBNAILS_BUCKET "A.jpg" w' /\
    ~ stored THUMBNAILS_BUCKET "B.jpg" w'.
Proof.
  set (env := Node.env Sample.no_faults true).
  destruct (cleanup_removes_exactly_orphans env Sample.world_abc
              eq_refl eq_refl eq_refl eq_refl)
    as (n & w' & Hrun & _ & Hvalid & Hdel & Hkept & _ & _ & Hcount).
  assert (bool_decide ("A.jpg" ∈ valid_paths Sample.world_abc) = true) as HA
    by (vm_compute; reflexivity).
  assert (bool_decide ("B.jpg" ∈ valid_paths Sample.world_abc) = false) as HB
    by (vm_compute; reflexivity).
  assert (bool_decide ("C.jpg" ∈ valid_paths Sample.world_abc) = false) as HC
    by (vm_compute; reflexivity).
  apply bool_decide_eq_true in HA. apply bool_decide_eq_false in HB, HC.
  rewrite Hvalid in HA, HB, HC.
  assert (forall b k, bool_decide (stored b k Sample.world_abc) = true ->
            ~ referenced Sample.world_abc k -> ~ stored b k w') as Hgone.
  { intros b k Hs Hr. apply bool_decide_eq_true in Hs.
    destruct (Hdel b k) as [_ Hd]. apply Hd.
    split; [exact Hs|].
    split; [apply listed_stored; [intros ? ?; reflexivity|exact Hs]|].
    split; [exact Hr|reflexivity]. }
  exists n, w'. split; [exact Hrun|].
  split; [rewrite Hcount; vm_compute; reflexivity|].
  split; [apply Hkept; [vm_compute; eauto|exact HA]|].
  split; [apply Hgone; [vm_compute; reflexivity|exact HB]|].
  split; [apply Hgone; [vm_compute; reflexivity|exact HC]|].
  split; [apply Hkept; [vm_compute; eauto|exact HA]|].
  apply Hgone; [vm_compute; reflexivity|exact HB].
Defined.

(** ** Deleting threads and posts *)

Lemma emits_nothing_removed evs w : nothing_removed w (emits evs w).
Proof.
  unfold nothing_removed.
  by rewrite emits_images, emits_thumbnails, emits_threads, emits_posts.
Qed.

Section Delete.

Context (env : Env).

(** A thread whose tripcode is absent, or does not match the password, is
    not deleted, and nothing else is: the run only reads the row. *)
Lemma deleteThread_refused (id : string) (password : option string) (w : World)
    (thread : Thread) :
  threads w !! id = Some thread ->
  Js.truthy (t_tripcode thread) = false
  \/ verifyTripcode env password (t_tripcode thread) = false ->
  exists evs,
    deleteThread env id password w
      = (Ret (thread_refusal env id password), emits evs w) /\
    (forall c ok, Called c ok ∈ evs -> c = DbSelectSingle THREADS id).
Proof.
  intros Hrow Hno.
  unfold deleteThread, thread_refusal, try_catch, bind, db_single_thread.
  lazy beta zeta.
  destruct (Js.truthy password); cbn [negb].
  2:{ exists []. split; [done|]. in_events. }
  destruct (fails env (DbSelectSingle THREADS id)).
  { eexists [_; _]. split; [reflexivity|]. in_events. }
  assert (negb (Js.truthy (t_tripcode thread))
          || negb (verifyTripcode env password (t_tripcode thread)) = true) as Hor.
  { destruct Hno as [-> | ->]; [done|]. by rewrite orb_true_r. }
  eexists [_]. split; [rewrite Hrow, Hor; reflexivity|]. in_events.
Qed.

Lemma deletePost_refused (id : string) (password : option string) (w : World)
    (post : Post) :
  posts w !! id = Some post ->
  Js.truthy (p_tripcode post) = false
  \/ verifyTripcode env password (p_tripcode post) = false ->
  exists evs,
    deletePost env id password w
      = (Ret (post_refusal env id password), emits evs w) /\
    (forall c ok, Called c ok ∈ evs -> c = DbSelectSingle POSTS id).
Proof.
  intros Hrow Hno.
  unfold deletePost, post_refusal, try_catch, bind, db_single_post.
  lazy beta zeta.
  destruct (Js.truthy password); cbn [negb].
  2:{ exists []. split; [done|]. in_events. }
  destruct (fails env (DbSelectSingle POSTS id)).
  { eexists [_; _]. split; [reflexivity|]. in_events. }
  assert (negb (Js.truthy (p_tripcode post))
          || negb (verifyTripcode env password (p_tripcode post)) = true) as Hor.
  { destruct Hno as [-> | ->]; [done|]. by rewrite orb_true_r. }
  eexists [_]. split; [rewrite Hrow, Hor; reflexivity|]. in_events.
Qed.

(** An identifier that names no thread is answered with 404. *)
Lemma deleteThread_not_found (id : string) (password : option string) (w : World) :
  Js.truthy password = true ->
  fails env (DbSelectSingle THREADS id) = false ->
  threads w !! id = None ->
  deleteThread env id password w =
    (Ret (mkResponse 404 (ErrorMessage "Thread not found")),
     emits [Called (DbSelectSingle THREADS id) false] w).
Proof.
  intros Hp Hf Hrow.
  unfold deleteThread, try_catch, bind, db_single_thread.
  rewrite Hp. lazy beta iota zeta delta [negb]. by rewrite Hf, Hrow.
Qed.

Lemma deletePost_not_found (id : string) (password : option string) (w : World) :
  Js.truthy password = true ->
  fails env (DbSelectSingle POSTS id) = false ->
  posts w !! id = None ->
  deletePost env id password w =
    (Ret (mkResponse 404 (ErrorMessage "Post not found")),
     emits [Called (DbSelectSingle POSTS id) false] w).
Proof.
  intros Hp Hf Hrow.
  unfold deletePost, try_catch, bind, db_single_post.
  rewrite Hp. lazy beta iota zeta delta [negb]. by rewrite Hf, Hrow.
Qed.

(** A wrong password is answered with 403, which is not the answer to an
    unknown identifier, and nothing is deleted. *)
Lemma deleteThread_wrong_password (id : string) (password : option string)
    (w : World) (thread : Thread) :
  threads w !! id = Some thread ->
  Js.truthy password = true ->
  fails env (DbSelectSingle THREADS id) = false ->
  verifyTripcode env password (t_tripcode thread) = false ->
  exists w',
    deleteThread env id password w =
      (Ret (mkResponse 403 (ErrorMessage "Invalid password")), w') /\
    nothing_removed w w' /\
    added w w' [Called (DbSelectSingle THREADS id) true].
Proof.
  intros Hrow Hp Hf Hv.
  unfold deleteThread, try_catch, bind, db_single_thread.
  rewrite Hp. lazy beta iota zeta delta [negb]. rewrite Hf, Hrow, Hv, orb_true_r.
  eexists. split; [reflexivity|]. done.
Qed.

Lemma deletePost_wrong_password (id : string) (password : option string)
    (w : World) (post : Post) :
  posts w !! id = Some post ->
  Js.truthy password = true ->
  fails env (DbSelectSingle POSTS id) = false ->
  verifyTripcode env password (p_tripcode post) = false ->
  exists w',
    deletePost env id password w =
      (Ret (mkResponse 403 (ErrorMessage "Invalid password")), w') /\
    nothing_removed w w' /\
    added w w' [Called (DbSelectSingle POSTS id) true].
Proof.
  intros Hrow Hp Hf Hv.
  unfold deletePost, try_catch, bind, db_single_post.
  rewrite Hp. lazy beta iota zeta delta [negb]. rewrite Hf, Hrow, Hv, orb_true_r.
  eexists. split; [reflexivity|]. done.
Qed.

End Delete.

Lemma delete_post_files_run (env : Env) (rows : list Post) (w : World) :
  exists w', delete_post_files env rows w = (Ret tt, w') /\ same_rows w w'.
Proof.
  revert w. induction rows as [|post rest IH]; intros w.
  - by exists w.
  - cbn [delete_post_files]. unfold bind.
    destruct (Js.truthy (p_storage_path post)).
    + destruct (deleteFile_effect env (p_storage_path post) (p_thumbnail_path post) w)
        as (res & w1 & -> & Hrows & _).
      lazy beta iota zeta delta [ret].
      destruct (IH w1) as (w' & -> & Hrows').
      exists w'. split; [done|]. unfold same_rows in *. intuition congruence.
    + apply IH.
Qed.

Lemma posts_not_of_idemp (env : Env) (id : string) (m : gmap string Post) :
  posts_not_of id (posts_not_of id m) = posts_not_of id m.
Proof.
  unfold posts_not_of. apply map_eq. intros k.
  rewrite !map_lookup_filter.
  destruct (m !! k) as [p|]; [|done]. simpl.
  destruct (decide (p_thread_id p <> id)) as [Hne|He].
  - rewrite option_guard_True by done. simpl. by rewrite option_guard_True.
  - by rewrite option_guard_False.
Qed.

(** With the password of its tripcode, and a relational store that does
    not fail, the thread and all its posts leave the relational store. *)
Lemma deleteThread_authorised (env : Env) (id : string) (password : option string)
    (w : World) (thread : Thread) :
  threads w !! id = Some thread ->
  Js.truthy password = true ->
  Js.truthy (t_tripcode thread) = true ->
  verifyTripcode env password (t_tripcode thread) = true ->
  fails env (DbSelectSingle THREADS id) = false ->
  fails env (DbDelete THREADS id) = false ->
  fails env (DbDeletePostsOf id) = false ->
  exists w',
    deleteThread env id password w =
      (Ret (mkResponse 200 (Message "Thread deleted successfully")), w') /\
    threads w' = delete id (threads w) /\
    posts w' = posts_not_of id (posts w).
Proof.
  intros Hrow Hp Ht Hv Hf1 Hf2 Hf3.
  unfold deleteThread, try_catch, bind, db_single_thread.
  rewrite Hp. lazy beta iota zeta delta [negb]. rewrite Hf1, Hrow, Ht, Hv.
  lazy beta iota zeta delta [negb orb].
  unfold db_delete_thread. rewrite Hf2. lazy beta iota zeta delta [negb].
  set (w1 := emit _ _).
  assert (threads w1 = delete id (threads w)) as Hth1.
  { subst w1. by destruct (cascade env). }
  assert (posts_not_of id (posts w1) = posts_not_of id (posts w)) as Hps1.
  { subst w1. destruct (cascade env); [|done]. simpl. by apply posts_not_of_idemp. }
  assert (exists w2, (if Js.truthy (t_storage_path thread)
                      then (_ <- deleteFile env (t_storage_path thread)
                                   (t_thumbnail_path thread) ;; ret tt)
                      else ret tt) w1 = (Ret tt, w2) /\ same_rows w1 w2)
    as (w2 & Hrun2 & Hrows2).
  { destruct (Js.truthy (t_storage_path thread)); [|by exists w1].
    unfold bind.
    destruct (deleteFile_effect env (t_storage_path thread) (t_thumbnail_path thread) w1)
      as (res & w2 & -> & Hrows & _). by exists w2. }
  unfold bind in Hrun2. rewrite Hrun2.
  unfold db_select_posts_of.
  assert (exists w3, (let (o, w') :=
                        if fails env (DbSelectPostsOf id)
                        then (Ret None, emit (Called (DbSelectPostsOf id) false) w2)
                        else (Ret (Some (map_to_list (posts_of id (posts w2))).*2),
                              emit (Called (DbSelectPostsOf id) true) w2) in
                      match o with
                      | Ret a =>
                          let (o0, w'0) :=
                            match a with
                            | Some rows => delete_post_files env rows
                            | None => ret tt
                            end w' in
                          match o0 with
                          | Ret _ => (Ret tt, w'0)
                          | Throw e => (@Throw unit e, w'0)
                          end
                      | Throw e => (Throw e, w')
                      end) = (Ret tt, w3) /\ same_rows w2 w3)
    as (w3 & Hrun3 & Hrows3).
  { destruct (fails env (DbSelectPostsOf id)).
    - eexists. split; [reflexivity|done].
    - destruct (delete_post_files_run env (map_to_list (posts_of id (posts w2))).*2
                  (emit (Called (DbSelectPostsOf id) true) w2)) as (w3 & -> & Hrows).
      by exists w3. }
  lazy beta zeta.
  destruct (fails env (DbSelectPostsOf id)) eqn:Hf4.
  - injection Hrun3 as <-. lazy beta iota zeta delta [ret].
    unfold db_delete_posts_of. rewrite Hf3. lazy beta iota zeta.
    eexists. split; [reflexivity|]. unfold same_rows in *. simpl.
    destruct Hrows2 as (-> & -> & _). by rewrite Hth1, Hps1.
  - destruct (delete_post_files env (map_to_list (posts_of id (posts w2))).*2
                (emit (Called (DbSelectPostsOf id) true) w2)) as [[[]|e] w3'] eqn:Hloop;
      [|discriminate Hrun3].
    injection Hrun3 as ->.
    unfold db_delete_posts_of. rewrite Hf3. lazy beta iota zeta.
    eexists. split; [reflexivity|]. unfold same_rows in *. simpl in *.
    destruct Hrows3 as (-> & -> & _). destruct Hrows2 as (-> & -> & _).
    by rewrite Hth1, Hps1.
Qed.

(** C10, as stated, fails: a post without a tripcode is deleted through a
    delete endpoint.  The reply was posted without a password, and
    [DELETE /post/:id] refuses it, 403; but [DELETE /thread/:id] on its
    thread, with the password of the thread, answers 200, and the row of
    the post and its files are gone.  [deleteThread] reads the tripcode of
    the thread and of no post. *)
Lemma passwordless_post_deleted_with_thread :
  let thread := "6f1c2a9e-5b7d-4c3a-9e21-000000000000" in
  let post := "6f1c2a9e-5b7d-4c3a-9e21-000000000002" in
  let post_file := "6f1c2a9e-5b7d-4c3a-9e21-000000000001.jpg" in
  let before := ([post_file], [post_file], [thread], [post]) in
  passwordless_post_scenario false =
    (Some 201, Some 201, Some None, before,
     (Some 403, before),
     (Some 200, ([], [], [], []))).
Proof. vm_compute. reflexivity. Qed.

(** The posts of a thread are not among those of the other threads. *)
Lemma posts_not_of_lookup (id pid : string) (post : Post) (m : gmap string Post) :
  m !! pid = Some post -> p_thread_id post = id -> posts_not_of id m !! pid = None.
Proof.
  intros Hrow Hid. unfold posts_not_of. apply map_lookup_filter_None. right.
  intros p Hp. rewrite Hrow in Hp. injection Hp as <-. simpl. by intros H.
Qed.

(** C10, amended.  A thread, or a post, whose stored tripcode is absent is
    never deleted by the call that names it: for every password and every
    behaviour of the services [deleteThread], or [deletePost], only reads
    the row; no row and no object is removed, and the answer is not a
    success.  For a password that is supplied, and a row that the store
    hands over, the answer is the authorization error, 403.  A post goes
    with its thread all the same: when [deleteThread] is called with the
    password of the thread, and the relational store does not fail, every
    post of the thread leaves the table, whatever its tripcode. *)
Theorem absent_tripcode_deleted_only_with_thread (env : Env) (w : World) (id : string)
    (password : option string) :
  (forall thread,
     threads w !! id = Some thread -> t_tripcode thread = None ->
     exists res w' evs,
       deleteThread env id password w = (Ret res, w') /\
       nothing_removed w w' /\ added w w' evs /\
       (forall c ok, Called c ok ∈ evs -> c = DbSelectSingle THREADS id) /\
       status res <> 200 /\
       (Js.truthy password = true -> fails env (DbSelectSingle THREADS id) = false ->
        res = mkResponse 403 (ErrorMessage "Invalid password")))
  /\
  (forall post,
     posts w !! id = Some post -> p_tripcode post = None ->
     exists res w' evs,
       deletePost env id password w = (Ret res, w') /\
       nothing_removed w w' /\ added w w' evs /\
       (forall c ok, Called c ok ∈ evs -> c = DbSelectSingle POSTS id) /\
       status res <> 200 /\
       (Js.truthy password = true -> fails env (DbSelectSingle POSTS id) = false ->
        res = mkResponse 403 (ErrorMessage "Invalid password")))
  /\
  (forall thread,
     threads w !! id = Some thread ->
     Js.truthy password = true ->
     Js.truthy (t_tripcode thread) = true ->
     verifyTripcode env password (t_tripcode thread) = true ->
     fails env (DbSelectSingle THREADS id) = false ->
     fails env (DbDelete THREADS id) = false ->
     fails env (DbDeletePostsOf id) = false ->
     exists w',
       deleteThread env id password w =
         (Ret (mkResponse 200 (Message "Thread deleted successfully")), w') /\
       forall pid post,
         posts w !! pid = Some post -> p_thread_id post = id ->
         posts w' !! pid = None).
Proof.
  split; [|split].
  - intros thread Hrow Hnone.
    destruct (deleteThread_refused env id password w thread Hrow) as (evs & Hrun & Hev).
    { left. by rewrite Hnone. }
    exists (thread_refusal env id password), (emits evs w), evs.
    split; [done|]. split; [apply emits_nothing_removed|].
    split; [unfold added; apply emits_trace|]. split; [done|].
    unfold thread_refusal. split.
    + destruct (negb (Js.truthy password)), (fails env (DbSelectSingle THREADS id));
        simpl; lia.
    + by intros -> ->.
  - intros post Hrow Hnone.
    destruct (deletePost_refused env id password w post Hrow) as (evs & Hrun & Hev).
    { left. by rewrite Hnone. }
    exists (post_refusal env id password), (emits evs w), evs.
    split; [done|]. split; [apply emits_nothing_removed|].
    split; [unfold added; apply emits_trace|]. split; [done|].
    unfold post_refusal. split.
    + destruct (negb (Js.truthy password)), (fails env (DbSelectSingle POSTS id));
        simpl; lia.
    + by intros -> ->.
  - intros thread Hrow Hp Ht Hv Hf1 Hf2 Hf3.
    destruct (deleteThread_authorised env id password w thread Hrow Hp Ht Hv Hf1 Hf2 Hf3)
      as (w' & Hrun & _ & Hposts).
    exists w'. split; [exact Hrun|]. intros pid post Hpost Hid.
    rewrite Hposts. by apply (posts_not_of_lookup id pid post).
Qed.

Lemma absent_tripcode_deleted_only_with_thread_witness :
  (exists w',
     deleteThread (Node.env Sample.no_faults true) "thread-1" (Some "guess")
                  Sample.world_with_post
       = (Ret (mkResponse 403 (ErrorMessage "Invalid password")), w') /\
     nothing_removed Sample.world_with_post w')
  /\
  (exists w',
     deletePost (Node.env Sample.no_faults true) "post-1" (Some "guess")
                Sample.world_with_post
       = (Ret (mkResponse 403 (ErrorMessage "Invalid password")), w') /\
     nothing_removed Sample.world_with_post w').
Proof.
  destruct (absent_tripcode_deleted_only_with_thread (Node.env Sample.no_faults true)
              Sample.world_with_post "thread-1" (Some "guess")) as [Ht _].
  destruct (absent_tripcode_deleted_only_with_thread (Node.env Sample.no_faults true)
              Sample.world_with_post "post-1" (Some "guess")) as [_ [Hp _]].
  destruct (Ht Sample.thread_A) as (res & w' & evs & Hrun & Hsame & _ & _ & _ & Hres);
    [vm_compute; reflexivity|reflexivity|].
  destruct (Hp Sample.post_1) as (res' & w'' & evs' & Hrun' & Hsame' & _ & _ & _ & Hres');
    [vm_compute; reflexivity|reflexivity|].
  rewrite (Hres eq_refl eq_refl) in Hrun. rewrite (Hres' eq_refl eq_refl) in Hrun'.
  split; [exists w'|exists w'']; split; assumption.
Defined.

(** C4, on the code.  With a wrong password the handler answers 403 and
    the state holds what it held.  With the right password it answers 200
    and the rows of the thread and of its post are gone, but not all their
    files: the thumbnail of the NSFW thread stays in the thumbnail bucket,
    because [deleteFile] removes the last segment of its URL and not its
    key; and where the foreign key cascades, the files of the post stay in
    both buckets, because the posts are read after the thread, and with it
    its posts, has been deleted.  [deletePost] leaves the thumbnail of an
    NSFW post in the same way. *)
Theorem deleteThread_leaves_files :
  let thread := "6f1c2a9e-5b7d-4c3a-9e21-000000000001" in
  let post := "6f1c2a9e-5b7d-4c3a-9e21-000000000003" in
  let thread_file := "nsfw/6f1c2a9e-5b7d-4c3a-9e21-000000000000.jpg" in
  let post_file := "6f1c2a9e-5b7d-4c3a-9e21-000000000002.jpg" in
  let before := ([thread_file; post_file], [thread_file; post_file], [thread], [post]) in
  delete_scenario false =
    (Some 201, Some 201, before,
     (Some 403, before),
     (Some 200, ([], [thread_file], [], [])))
  /\
  delete_scenario true =
    (Some 201, Some 201, before,
     (Some 403, before),
     (Some 200, ([post_file], [thread_file; post_file], [], [])))
  /\
  delete_post_scenario false =
    (let thread := "6f1c2a9e-5b7d-4c3a-9e21-000000000000" in
     let post := "6f1c2a9e-5b7d-4c3a-9e21-000000000002" in
     let post_file := "nsfw/6f1c2a9e-5b7d-4c3a-9e21-000000000001.jpg" in
     (Some 201, Some 201, ([post_file], [post_file], [thread], [post]),
      (Some 403, ([post_file], [post_file], [thread], [post])),
      (Some 200, ([], [post_file], [thread], [])))).
Proof. vm_compute. by repeat split. Qed.

(** * Around the handlers: properties *)

(** ** Paths *)

Lemma prefix_slash_cons (c : ascii) (s : string) :
  String.prefix "/" (String c s) = Ascii.eqb "/" c.
Proof.
  cbn [String.prefix]. destruct (Ascii.ascii_dec "/" c) as [<-|Hn].
  - by destruct s.
  - symmetry. by apply Ascii.eqb_neq.
Qed.

Lemma prefix_slash_app (a b : string) :
  a <> "" -> String.prefix "/" (a ++ b) = String.prefix "/" a.
Proof.
  destruct a as [|c a]; [done|]. intros _.
  change (String c a ++ b) with (String c (a ++ b)). by rewrite !prefix_slash_cons.
Qed.

Lemma split_relative (acc s piece : string) :
  String.prefix "/" acc = false ->
  piece ∈ Str.split "/" acc s -> String.prefix "/" piece = false.
Proof.
  revert acc. induction s as [|c s IH]; intros acc Hacc Hin; simpl in Hin.
  - apply list_elem_of_singleton in Hin. by subst.
  - destruct (Ascii.eqb_spec c "/") as [->|Hc].
    + apply elem_of_cons in Hin as [->|Hin]; [done|]. by apply (IH "").
    + apply (IH (acc ++ String c "")); [|done].
      destruct acc as [|a acc].
      * change ("" ++ String c "") with (String c ""). rewrite prefix_slash_cons.
        apply Ascii.eqb_neq. congruence.
      * rewrite prefix_slash_app; done.
Qed.

Lemma normalizeString_relative (above : bool) (res segs : list string) (x : string) :
  (forall y, y ∈ res -> y <> "" /\ String.prefix "/" y = false) ->
  (forall y, y ∈ segs -> String.prefix "/" y = false) ->
  x ∈ Path.normalizeString above res segs ->
  x <> "" /\ String.prefix "/" x = false.
Proof.
  revert res. induction segs as [|seg rest IH]; intros res Hres Hsegs Hin; simpl in Hin.
  - by apply Hres.
  - assert (forall y, y ∈ rest -> String.prefix "/" y = false) as Hrest.
    { intros y Hy. apply Hsegs. by apply elem_of_cons; right. }
    destruct (String.eqb_spec seg "") as [->|Hne]; simpl in Hin; [by apply (IH res)|].
    destruct (String.eqb_spec seg ".") as [->|Hnd]; simpl in Hin; [by apply (IH res)|].
    destruct (String.eqb_spec seg "..") as [->|Hndd].
    + destruct res as [|last res'].
      * apply (IH (if above then [".."] else [])); [|done|done].
        intros y Hy. destruct above; [|by apply elem_of_nil in Hy].
        apply list_elem_of_singleton in Hy. by subst.
      * destruct (String.eqb_spec last "..") as [->|Hl].
        -- apply (IH (if above then ".." :: ".." :: res' else ".." :: res')); [|done|done].
           intros y Hy. destruct above; [|by apply Hres].
           apply elem_of_cons in Hy as [->|Hy]; [done|]. by apply Hres.
        -- apply (IH res'); [|done|done].
           intros y Hy. apply Hres. by apply elem_of_cons; right.
    + apply (IH (seg :: res)); [|done|done].
      intros y Hy. apply elem_of_cons in Hy as [->|Hy]; [|by apply Hres].
      split; [done|]. apply Hsegs. apply list_elem_of_here.
Qed.

Lemma join_relative (l : list string) :
  (forall y, y ∈ l -> y <> "" /\ String.prefix "/" y = false) ->
  String.prefix "/" (Str.join "/" l) = false.
Proof.
  destruct l as [|x l]; [done|]. intros Hl.
  destruct (Hl x) as [Hx Hp]; [apply list_elem_of_here|].
  unfold Str.join. simpl. destruct l; [done|]. by rewrite prefix_slash_app.
Qed.

Lemma isAbsolute_normalize (p : string) :
  Path.isAbsolute (Path.normalize p) = Path.isAbsolute p.
Proof.
  unfold Path.normalize, Path.isAbsolute.
  destruct (String.eqb_spec p "") as [->|Hp]; [done|].
  set (body := Str.join "/" _).
  destruct (String.prefix "/" p) eqn:Habs.
  - destruct (String.eqb body ""); [done|].
    change (String.prefix "/"
              (String "/" (body ++ (if Path.endsWithSlash p then "/" else ""))) = true).
    by rewrite prefix_slash_cons.
  - assert (String.prefix "/" body = false) as Hbody.
    { apply join_relative. intros y Hy. apply list_elem_of_In, in_rev, list_elem_of_In in Hy.
      apply normalizeString_relative in Hy; [done|by intros ? ?%elem_of_nil|].
      intros z Hz. by apply split_relative in Hz. }
    destruct (String.eqb_spec body "") as [->|Hb].
    + by destruct (Path.endsWithSlash p).
    + change (String.prefix "/"
                (body ++ (if Path.endsWithSlash p then "/" else "")) = false).
      by rewrite prefix_slash_app.
Qed.

Lemma normalize_nonempty (p : string) : Path.normalize p <> "".
Proof.
  unfold Path.normalize.
  destruct (String.eqb_spec p ""); [done|].
  set (body := Str.join "/" _).
  destruct (String.eqb_spec body "") as [->|Hb].
  - by destruct (Path.isAbsolute p), (Path.endsWithSlash p).
  - destruct (Path.isAbsolute p); [done|].
    change (body ++ (if Path.endsWithSlash p then "/" else "") <> "").
    destruct body; [done|]. done.
Qed.

Lemma join_nonempty (args : list string) : Path.join args <> "".
Proof.
  unfold Path.join. destruct (List.filter _ args); [done|]. apply normalize_nonempty.
Qed.

(** The result of [path.join] is absolute exactly when its first argument
    is, that argument being not empty. *)
Lemma isAbsolute_join (a : string) (rest : list string) :
  a <> "" -> Path.isAbsolute (Path.join (a :: rest)) = Path.isAbsolute a.
Proof.
  intros Ha. unfold Path.join. simpl.
  destruct (String.eqb_spec a ""); [done|]. simpl.
  rewrite isAbsolute_normalize. unfold Path.isAbsolute, Str.join. simpl.
  destruct (List.filter _ rest); [done|]. by rewrite prefix_slash_app.
Qed.

(** ** The reconciler of the upload directory *)

Section DiskCleanup.

Context (env : Env) (fs : Fs) (dirname : string).

Lemma not_directories_run (uploadDir : string) (names : list string) (w : World) :
  (forall name, name ∈ names -> is_Some (statSync fs (Path.join [uploadDir; name]))) ->
  FileUtils.not_directories fs uploadDir names w
    = (Ret (List.filter (is_file fs uploadDir) names), w).
Proof.
  induction names as [|name rest IH]; intros Hstat; [done|].
  cbn [FileUtils.not_directories List.filter]. unfold is_file at 1.
  destruct (Hstat name) as [stats ->]; [apply list_elem_of_here|].
  unfold bind. rewrite IH.
  - by destruct (isDirectory stats).
  - intros n Hn. apply Hstat. by apply elem_of_cons; right.
Qed.

Lemma add_records_absolute (valid : gset string * gset string)
    (records : list (option string * option string)) :
  Path.isAbsolute dirname = true ->
  all_absolute valid.1 -> all_absolute valid.2 ->
  all_absolute (FileUtils.add_records dirname valid records).1 /\
  all_absolute (FileUtils.add_records dirname valid records).2.
Proof.
  intros Hd. assert (dirname <> "") as Hne by (by intros ->).
  unfold FileUtils.add_records. revert valid.
  induction records as [|record rest IH]; intros valid H1 H2; [done|].
  cbn [foldl]. apply IH; cbn [fst snd].
  - destruct (Js.truthy record.1); [|done].
    intros x [Hx|Hx%elem_of_singleton]%elem_of_union; [by apply H1|].
    subst x. by rewrite isAbsolute_join.
  - destruct (Js.truthy record.2); [|done].
    intros x [Hx|Hx%elem_of_singleton]%elem_of_union; [by apply H2|].
    subst x. by rewrite isAbsolute_join.
Qed.

Lemma unlink_orphans_all (what : string) (valid : gset string) (files : list string)
    (w : World) :
  (forall file, file ∈ files -> file ∉ valid) ->
  exists w',
    FileUtils.unlink_orphans fs what valid files w
      = (Ret ((fun file => (file, unlinkSync fs file)) <$> files), w') /\
    nothing_removed w w'.
Proof.
  revert w. induction files as [|file rest IH]; intros w Hout.
  - by exists w.
  - cbn [FileUtils.unlink_orphans].
    rewrite bool_decide_eq_false_2 by (apply Hout, list_elem_of_here).
    unfold bind.
    assert (forall f, f ∈ rest -> f ∉ valid) as Hrest.
    { intros f Hf. apply Hout. by apply elem_of_cons; right. }
    rewrite fmap_cons.
    destruct (unlinkSync fs file).
    + cbn [ret]. destruct (IH w Hrest) as (w' & -> & Hsame). by exists w'.
    + cbn [console_error].
      destruct (IH (emit (ConsoleError ("Error deleting " ++ what ++ " " ++ file ++ ":")) w)
                  Hrest) as (w' & -> & Hsame).
      by exists w'.
Qed.

End DiskCleanup.

Lemma fst_unlinked (fs : Fs) (files : list string) :
  ((fun file => (file, unlinkSync fs file)) <$> files).*1 = files.
Proof. induction files as [|f l IH]; [done|]. cbn [fmap list_fmap]. by f_equal. Qed.

Lemma or_else_nonempty (v : option string) (d : string) : d <> "" -> Js.or_else v d <> "".
Proof.
  intros Hd. unfold Js.or_else. destruct (Js.truthy v) eqn:Ht; [|done].
  destruct v as [s|]; [|done]. simpl in *. by destruct (String.eqb_spec s "").
Qed.

(** X4.  The reconciler of [utils/fileUtils.js] spares no file.  With an
    upload directory given by a relative path (as the default, [./uploads],
    is) and the absolute [__dirname] of a module, the paths it lists are
    relative and the paths it builds from the rows are absolute, so no
    listed path is ever found among the valid ones: when the directories
    can be read and the two queries succeed, every file of the upload
    directory and every entry of the thumbnail directory is handed to
    [fs.unlinkSync], whatever the rows reference. *)
Theorem disk_cleanup_spares_nothing (env : Env) (fs : Fs)
    (UPLOAD_DIRECTORY : option string) (dirname : string) (w : World)
    (names thumbnailNames : list string) :
  let uploadDir := Js.or_else UPLOAD_DIRECTORY "./uploads" in
  let thumbnailDir := Path.join [uploadDir; "thumbnails"] in
  Path.isAbsolute dirname = true ->
  Path.isAbsolute uploadDir = false ->
  readdirSync fs uploadDir = Some names ->
  (forall name, name ∈ names -> is_Some (statSync fs (Path.join [uploadDir; name]))) ->
  (if existsSync fs thumbnailDir
   then readdirSync fs thumbnailDir = Some thumbnailNames
   else thumbnailNames = []) ->
  fails env (DbSelectPaths THREADS) = false ->
  fails env (DbSelectPaths POSTS) = false ->
  exists unlinked w',
    FileUtils.cleanupOrphanedFiles env fs UPLOAD_DIRECTORY dirname w = (Ret unlinked, w') /\
    unlinked.*1 =
      (((fun name => Path.join [uploadDir; name]) <$> List.filter (is_file fs uploadDir) names)
       ++ ((fun name => Path.join [thumbnailDir; name]) <$> thumbnailNames))%list /\
    nothing_removed w w'.
Proof.
  intros uploadDir thumbnailDir Hd Hrel Hread Hstat Hthumbs Hqt Hqp.
  assert (uploadDir <> "") as Hne by (by apply or_else_nonempty).
  assert (Path.isAbsolute thumbnailDir = false) as Hrel'.
  { unfold thumbnailDir. by rewrite isAbsolute_join. }
  assert (thumbnailDir <> "") as Hne' by apply join_nonempty.
  unfold FileUtils.cleanupOrphanedFiles, try_catch, bind, FileUtils.readdir.
  fold uploadDir. fold thumbnailDir. rewrite Hread. cbn [ret].
  rewrite not_directories_run by done.
  set (thumbs := (fun file => Path.join [thumbnailDir; file]) <$> thumbnailNames).
  assert (forall (k : list string -> M (list (string * bool))) w0,
            (let (o, w') :=
               (if existsSync fs thumbnailDir
                then names0 <- FileUtils.readdir fs thumbnailDir ;;
                     ret ((fun file => Path.join [thumbnailDir; file]) <$> names0)
                else ret []) w0 in
             match o with
             | Ret a => k a w'
             | Throw e => (Throw e, w')
             end) = k thumbs w0) as Hth.
  { intros k w0. unfold bind, FileUtils.readdir.
    destruct (existsSync fs thumbnailDir); [by rewrite Hthumbs|by subst thumbs; subst]. }
  unfold bind, FileUtils.readdir in Hth. rewrite Hth. clear Hth.
  unfold FileUtils.db_select_file_paths. rewrite Hqt. cbn [emit threads posts].
  rewrite Hqp.
  set (valid := FileUtils.add_records dirname _ _).
  assert (all_absolute valid.1 /\ all_absolute valid.2) as [Hv1 Hv2].
  { subst valid. apply add_records_absolute; [done| |].
    - apply add_records_absolute; [done| |]; by intros x Hx%not_elem_of_empty.
    - apply add_records_absolute; [done| |]; by intros x Hx%not_elem_of_empty. }
  set (w2 := emit _ (emit _ w)).
  destruct (unlink_orphans_all fs "file" valid.1
              ((fun file => Path.join [uploadDir; file])
                 <$> List.filter (is_file fs uploadDir) names) w2)
    as (w3 & -> & Hsame3).
  { intros file (name & -> & _)%list_elem_of_fmap Hin. apply Hv1 in Hin.
    rewrite isAbsolute_join in Hin by done. congruence. }
  destruct (unlink_orphans_all fs "thumbnail" valid.2 thumbs w3)
    as (w4 & -> & Hsame4).
  { intros file (name & -> & _)%list_elem_of_fmap Hin. apply Hv2 in Hin.
    rewrite isAbsolute_join in Hin by done. congruence. }
  eexists _, w4. split; [reflexivity|]. split.
  - by rewrite fmap_app, !fst_unlinked.
  - unfold nothing_removed in *. subst w2. simpl in *. intuition congruence.
Qed.

Lemma disk_cleanup_spares_nothing_witness :
  exists unlinked w',
    FileUtils.cleanupOrphanedFiles (Node.env Sample.no_faults true) Fixture.disk None
      "/srv/darkchan/utils" Fixture.world_on_disk = (Ret unlinked, w') /\
    t_file_path Fixture.thread_on_disk = Some "uploads/9b2d6c1e.jpg" /\
    unlinked.*1 = ["uploads/9b2d6c1e.jpg"; "uploads/thumbnails/thumb_9b2d6c1e.jpg"].
Proof.
  destruct (disk_cleanup_spares_nothing (Node.env Sample.no_faults true) Fixture.disk None
              "/srv/darkchan/utils" Fixture.world_on_disk
              ["9b2d6c1e.jpg"; "thumbnails"] ["thumb_9b2d6c1e.jpg"])
    as (unlinked & w' & Hrun & Hfst & _); try reflexivity.
  - intros name Hin.
    apply elem_of_cons in Hin as [->|Hin]; [vm_compute; eauto|].
    apply list_elem_of_singleton in Hin as ->. vm_compute. eauto.
  - exists unlinked, w'. split; [exact Hrun|]. split; [reflexivity|].
    rewrite Hfst. vm_compute. reflexivity.
Defined.

(** ** The window of the thread listing *)

Lemma digit_value_bounds (radix : Z) (c : ascii) (d : Z) :
  Str.digit_value radix c = Some d -> (0 <= d < radix)%Z.
Proof.
  unfold Str.digit_value.
  set (n := Z.of_nat (nat_of_ascii c)).
  destruct ((48 <=? n)%Z && (n <=? 57)%Z) eqn:H1;
    [|destruct ((97 <=? n)%Z && (n <=? 122)%Z) eqn:H2;
      [|destruct ((65 <=? n)%Z && (n <=? 90)%Z) eqn:H3; [|done]]].
  all: destruct (_ <? radix)%Z eqn:Hr; [|done]; intros [= <-]; lia.
Qed.

Lemma digits_nonneg (radix : Z) (acc : option Z) (l : list ascii) (n : Z) :
  (forall a, acc = Some a -> 0 <= a)%Z ->
  Str.digits radix acc l = Some n -> (0 <= n)%Z.
Proof.
  revert acc. induction l as [|c l IH]; intros acc Hacc; simpl.
  - by apply Hacc.
  - destruct (Str.digit_value radix c) as [d|] eqn:Hd; [|by apply Hacc].
    apply IH. intros a [= <-]. apply digit_value_bounds in Hd.
    destruct acc as [a|]; simpl; [specialize (Hacc a eq_refl)|]; nia.
Qed.

Lemma skip_white_subset (l : list ascii) (c : ascii) :
  c ∈ Js.skip_white l -> c ∈ l.
Proof.
  induction l as [l IH] using (induction_ltof1 _ (@length ascii)). unfold ltof in IH.
  destruct l as [|a [|b [|x l]]]; cbn [Js.skip_white].
  - done.
  - destruct (Js.is_space a); [by intros ?%elem_of_nil|done].
  - destruct (Js.is_space a).
    { intros H. apply elem_of_cons. right. apply IH; [simpl; lia|done]. }
    destruct (Js.white2 a b); [by intros ?%elem_of_nil|done].
  - destruct (Js.is_space a).
    { intros H. apply elem_of_cons. right. apply IH; [simpl; lia|done]. }
    destruct (Js.white2 a b).
    { intros H. do 2 (apply elem_of_cons; right). apply IH; [simpl; lia|done]. }
    destruct (Js.white3 a b x); [|done].
    intros H. do 3 (apply elem_of_cons; right). apply IH; [simpl; lia|done].
Qed.

Lemma radix_positive (l : list ascii) : (0 < (Str.radix l).1)%Z.
Proof.
  destruct l as [|c0 l]; [simpl; lia|].
  destruct c0 as [[] [] [] [] [] [] [] []]; try (simpl; lia).
  destruct l as [|c1 l]; [simpl; lia|].
  destruct c1 as [[] [] [] [] [] [] [] []]; simpl; lia.
Qed.

Lemma sign_unsigned (l : list ascii) :
  "-"%char ∉ l -> (Str.sign l).1 = false.
Proof.
  destruct l as [|c l]; [done|]. intros Hm.
  destruct (Ascii.eqb_spec c "-") as [->|Hc].
  { exfalso. apply Hm. apply list_elem_of_here. }
  destruct c as [[] [] [] [] [] [] [] []]; first [reflexivity | by destruct Hc].
Qed.

Lemma parseInt_unsigned (query : option string) (z : Z) :
  unsigned query -> Str.parseInt query = Str.Int z -> (0 <= z)%Z.
Proof.
  intros Hu. destruct query as [s|]; [|done]. specialize (Hu s eq_refl).
  unfold Str.parseInt, chars in *.
  assert ("-"%char ∉ Js.skip_white (list_ascii_of_string s)) as Hm.
  { intros H. by apply Hu, skip_white_subset. }
  apply sign_unsigned in Hm.
  destruct (Str.sign _) as [negative l]. simpl in Hm. subst negative.
  pose proof (radix_positive l) as Hr.
  destruct (Str.radix l) as [radix l1]. simpl in Hr.
  destruct (Str.digits radix None l1) as [n|] eqn:Hn; [|done].
  intros [= <-]. apply (digits_nonneg radix None l1); [by intros ? [=]|done].
Qed.

Lemma or_default_nonzero (n : Str.number) (d : Z) : (d <> 0 -> Str.or_default n d <> 0)%Z.
Proof.
  intros Hd. destruct n as [|z]; [done|]. simpl. by destruct (Z.eqb_spec z 0).
Qed.

Lemma or_default_unsigned (query : option string) (d : Z) :
  unsigned query -> (1 <= d -> 1 <= Str.or_default (Str.parseInt query) d)%Z.
Proof.
  intros Hu Hd. destruct (Str.parseInt query) as [|z] eqn:Hp; [done|].
  apply parseInt_unsigned in Hp; [|done]. simpl.
  destruct (Z.eqb_spec z 0); lia.
Qed.

Lemma safe_bounds (z : Z) :
  Str.safe z = true <-> (- Str.MAX_SAFE_INTEGER <= z <= Str.MAX_SAFE_INTEGER)%Z.
Proof. unfold Str.safe. rewrite andb_true_iff, !Z.leb_le. done. Qed.

Lemma getThreads_window_value (query_page query_pageSize : option string) (win : Window) :
  getThreads_window query_page query_pageSize = Some win ->
  page win = Str.or_default (Str.parseInt query_page) 1 /\
  pageSize win = Str.or_default (Str.parseInt query_pageSize) 15 /\
  (offset win = (page win - 1) * pageSize win)%Z /\
  (range_to win = offset win + pageSize win - 1)%Z.
Proof.
  unfold getThreads_window. destruct (_ && _); [|done]. by intros [= <-].
Qed.

(** X5.  The page and the page size of [getThreads] are never zero:
    a parameter that is absent, is no number or is zero gives way to the
    default.  When neither parameter holds a minus sign, the page and the
    page size are at least 1, the range asked of the store starts at a row
    that is not negative and is not empty, and every row of the range has
    the rank of that page. *)
Theorem getThreads_window_unsigned (query_page query_pageSize : option string)
    (win : Window) :
  getThreads_window query_page query_pageSize = Some win ->
  (page win <> 0 /\ pageSize win <> 0)%Z /\
  (unsigned query_page -> unsigned query_pageSize ->
   (1 <= page win /\ 1 <= pageSize win /\ 0 <= offset win <= range_to win)%Z /\
   forall rank, in_window win rank ->
     (0 <= rank)%Z /\ (rank / pageSize win + 1 = page win)%Z).
Proof.
  intros (Hp & Hs & Ho & Hr)%getThreads_window_value.
  split.
  { rewrite Hp, Hs. split; by apply or_default_nonzero. }
  intros Hup Hus.
  assert (1 <= page win)%Z as H1 by (rewrite Hp; by apply or_default_unsigned).
  assert (1 <= pageSize win)%Z as H2 by (rewrite Hs; by apply or_default_unsigned).
  split; [nia|].
  unfold in_window. rewrite Hr, Ho. intros rank [Hlo Hhi]. split; [nia|].
  assert (rank / pageSize win = page win - 1)%Z; [|lia].
  symmetry. apply (Z.div_unique_pos _ _ _ (rank - (page win - 1) * pageSize win)); nia.
Qed.

Lemma getThreads_window_unsigned_witness :
  exists win,
    getThreads_window (Some "3") None = Some win /\
    (offset win = 30 /\ range_to win = 44)%Z /\
    (40 / pageSize win + 1 = page win)%Z.
Proof.
  destruct (getThreads_window (Some "3") None) as [win|] eqn:Hw; [|discriminate Hw].
  destruct (getThreads_window_unsigned _ _ _ Hw) as [_ H].
  destruct H as [_ Hin].
  - intros s [= <-]. vm_compute. intros Hin. by repeat (apply elem_of_cons in Hin as [Hin|Hin]; [discriminate Hin|]); apply elem_of_nil in Hin.
  - intros s [=].
  - exists win. split; [reflexivity|].
    injection Hw as <-. split; [by split|].
    apply (Hin 40%Z). vm_compute. by split; intros [=].
Defined.

(** X6.  The windows of [getThreads] tile the listing.  For a page
    [p] and a page size [s], both at least 1, the range asked of the store
    holds exactly the rows whose rank, divided by [s], is [p - 1]: the
    windows of two pages never share a row, and every row is in the window
    of one page.  The window of page [p] starts below [count] rows exactly
    when [p] is at most the [totalPages] answered for that count. *)
Theorem getThreads_pages_partition (query_page query_pageSize : option string)
    (p s : Z) :
  Str.parseInt query_page = Str.Int p -> Str.parseInt query_pageSize = Str.Int s ->
  (1 <= p)%Z -> (1 <= s)%Z -> (p * s <= Str.MAX_SAFE_INTEGER)%Z ->
  exists win,
    getThreads_window query_page query_pageSize = Some win /\
    page win = p /\ pageSize win = s /\
    (forall rank, in_window win rank <-> (0 <= rank)%Z /\ (rank / s + 1 = p)%Z) /\
    (forall count, (0 <= count)%Z ->
       (offset win < count)%Z <-> (p <= totalPages count s)%Z).
Proof.
  intros Hp Hs H1 H2 Hmax.
  unfold getThreads_window. rewrite Hp, Hs. cbn [Str.or_default].
  destruct (Z.eqb_spec p 0) as [|_]; [lia|]. destruct (Z.eqb_spec s 0) as [|_]; [lia|].
  assert (0 < Str.MAX_SAFE_INTEGER)%Z as Hpos by reflexivity.
  assert (Str.safe p && Str.safe s && Str.safe ((p - 1) * s)
          && Str.safe ((p - 1) * s + s) = true) as ->.
  { rewrite !andb_true_iff, !safe_bounds. nia. }
  eexists. split; [reflexivity|]. cbn [page pageSize offset range_to].
  split; [done|]. split; [done|]. split.
  - intros rank. unfold in_window. cbn [offset range_to]. split.
    + intros [Hlo Hhi]. split; [nia|].
      assert (rank / s = p - 1)%Z; [|lia].
      symmetry. apply (Z.div_unique_pos _ _ _ (rank - (p - 1) * s)); nia.
    + intros [H0 Hq].
      pose proof (Z.div_mod rank s ltac:(lia)) as Hdm.
      pose proof (Z.mod_pos_bound rank s ltac:(lia)) as Hmod.
      nia.
  - intros count Hc. unfold totalPages.
    pose proof (Z.div_mod (- count) s ltac:(lia)) as Hdm.
    pose proof (Z.mod_pos_bound (- count) s ltac:(lia)) as Hmod.
    nia.
Qed.

Lemma getThreads_pages_partition_witness :
  exists win,
    getThreads_window (Some "2") (Some "10") = Some win /\
    (in_window win 10 /\ in_window win 19 /\ ~ in_window win 20)%Z /\
    (offset win < 11 /\ ~ offset win < 10)%Z.
Proof.
  destruct (getThreads_pages_partition (Some "2") (Some "10") 2 10)
    as (win & Hw & _ & _ & Hin & Hcount); try reflexivity; try lia.
  - vm_compute. by intros [=].
  - exists win. split; [exact Hw|]. split.
    + split; [apply Hin; by vm_compute|]. split; [apply Hin; by vm_compute|].
      intros H%Hin. destruct H as [_ H]. vm_compute in H. discriminate H.
    + split; [apply (Hcount 11%Z); [lia|]; vm_compute; by intros [=]|].
      intros H%(Hcount 10%Z); [|lia]. vm_compute in H. by apply H.
Defined.

(** ** What the validators let through *)

(** What [Joi.string()] returns when it returns a string. *)
Lemma string_accepts (key : string) (r : Joi.string_rule) (v : jsval) (s : string) :
  Joi.string_ key r v = inr (Some s) ->
  (v = JString s \/ (v = JUndefined /\ Joi.default_value r = Some s)) /\
  (v = JString s ->
     (s = "" -> Joi.allow_empty_null r = true) /\
     (s <> "" -> forall n, Joi.min r = Some n -> (n <= Js.length s)%N) /\
     (s <> "" -> forall m, Joi.max r = Some m -> (Js.length s <= m)%N)).
Proof.
  unfold Joi.string_. destruct v as [| |b|z|s0].
  - destruct (Joi.required r); [done|]. intros [= ->]. split; [by right; split|done].
  - by destruct (Joi.allow_empty_null r).
  - done.
  - done.
  - destruct (String.eqb_spec s0 "") as [->|Hne].
    + destruct (Joi.allow_empty_null r); [|done]. intros [= <-].
      split; [by left|]. intros _. split; [done|]. split; done.
    + destruct (Joi.min r) as [n|]; destruct (Joi.max r) as [m|];
        repeat match goal with
               | |- context [N.ltb ?a ?b] => destruct (N.ltb_spec a b)
               end; try done; intros [= <-];
        (split; [by left|]); intros _; (split; [done|]);
        split; intros _ k [= <-]; lia.
Qed.

Lemma string_required (key : string) (r : Joi.string_rule) (v : jsval) (o : option string) :
  Joi.required r = true -> Joi.allow_empty_null r = false ->
  Joi.string_ key r v = inr o -> exists s, v = JString s /\ o = Some s /\ s <> "".
Proof.
  intros Hr Ha. unfold Joi.string_. rewrite Hr, Ha. destruct v as [| |b|z|s]; try done.
  destruct (String.eqb_spec s "") as [->|Hne]; [done|].
  intros H. exists s. split; [done|]. split; [|done].
  destruct (Joi.min r), (Joi.max r);
    repeat match type of H with
           | context [N.ltb ?a ?b] => destruct (N.ltb a b)
           end; congruence.
Qed.

Lemma comment_accepted (v : jsval) (o : option string) :
  Joi.string_ "comment" (Joi.mkStringRule true (Some 1%N) (Some 10000%N) false None) v = inr o ->
  exists c, v = JString c /\ o = Some c /\ c <> "" /\
            (1 <= Js.length c <= 10000)%N.
Proof.
  intros H. pose proof H as H'.
  apply string_required in H' as (c & -> & -> & Hne); [|reflexivity..].
  exists c. split; [done|]. split; [done|]. split; [done|].
  apply string_accepts in H as [_ H]. destruct (H eq_refl) as (_ & Hmin & Hmax).
  split; [by apply Hmin|by apply Hmax].
Qed.

(** The other way: the schema takes every comment within the two limits. *)
Lemma comment_within (c : string) :
  c <> "" -> (1 <= Js.length c <= 10000)%N ->
  Joi.string_ "comment" (Joi.mkStringRule true (Some 1%N) (Some 10000%N) false None)
    (JString c) = inr (Some c).
Proof.
  intros Hne [Hmin Hmax]. unfold Joi.string_. cbn [Joi.min Joi.max Joi.allow_empty_null].
  destruct (String.eqb_spec c "") as [|_]; [done|].
  destruct (N.ltb_spec (Js.length c) 1); [lia|].
  destruct (N.ltb_spec 10000 (Js.length c)); [lia|]. reflexivity.
Qed.

Lemma name_accepted (v : jsval) (o : option string) :
  Joi.string_ "name" (Joi.mkStringRule false None (Some 50%N) false (Some "Anonymous")) v = inr o ->
  default "Anonymous" o <> "" /\ (Js.length (default "Anonymous" o) <= 50)%N.
Proof.
  intros H. destruct o as [s|].
  - apply string_accepts in H as [[->| [-> [= <-]]] Hs];
      [|simpl; split; [done|by vm_compute]].
    destruct (Hs eq_refl) as (He & _ & Hmax). simpl.
    destruct (String.eqb_spec s "") as [->|Hne]; [by specialize (He eq_refl)|].
    split; [done|]. exact (Hmax Hne _ eq_refl).
  - simpl. split; [done|by vm_compute].
Qed.

(** X7.  What [validateThread] lets through, and what it hands
    to [createThread].  A body it accepts is within the bounds of the
    schema, counted as Joi counts them, in UTF-16 code units: the comment
    is the string of the request, of 1 to 10000 code units, and not white
    space from end to end (that of ECMAScript, U+00A0 and U+FEFF included)
    when no file is attached; the name is not empty and has at most 50 code
    units ([Anonymous] when the request gives none); a subject has at most
    100; and a password that counts as one is the string of the request.
    So a thread without a comment is never created, with or without a file.
    The other way, a body that holds nothing but a comment within these
    bounds is accepted, and handed over with the defaults. *)
Theorem validateThread_accepts (has_file : bool) (body : ThreadBody) :
  (forall value,
     validateThread has_file body = inr value ->
     (exists c, comment body = JString c /\ v_comment value = Some c /\
                c <> "" /\ (1 <= Js.length c <= 10000)%N /\
                (has_file = false -> Js.trim_is_empty c = false)) /\
     (v_name value <> "" /\ (Js.length (v_name value) <= 50)%N) /\
     (forall s, v_subject value = Some s -> (Js.length s <= 100)%N) /\
     (Js.truthy (v_password value) = true ->
      password body = JString (default "" (v_password value)))) /\
  (forall c,
     body = body_with_comment (JString c) ->
     c <> "" -> (1 <= Js.length c <= 10000)%N ->
     (has_file = false -> Js.trim_is_empty c = false) ->
     validateThread has_file body =
       inr {| v_subject := None; v_comment := Some c; v_name := "Anonymous";
              v_password := None; v_is_nsfw := false |}).
Proof.
  split.
  - intros value. unfold validateThread, thread_schema.
    destruct (Joi.string_ "subject" _ _) as [e|subject] eqn:Hsubject; [done|].
    destruct (Joi.string_ "comment" _ _) as [e|comment] eqn:Hcomment; [done|].
    destruct (Joi.string_ "name" _ _) as [e|name] eqn:Hname; [done|].
    destruct (Joi.string_ "password" _ _) as [e|password] eqn:Hpassword; [done|].
    destruct (Joi.boolean_ "is_nsfw" _) as [e|is_nsfw]; [done|].
    destruct (negb has_file && comment_is_blank _) eqn:Hblank; [done|].
    intros [= <-]. cbn [v_comment v_name v_subject v_password].
    destruct (comment_accepted _ _ Hcomment) as (c & Hc & -> & Hne & Hlen).
    split; [|split; [exact (name_accepted _ _ Hname)|split]].
    + exists c. split; [done|]. split; [done|]. split; [done|]. split; [done|].
      intros ->. rewrite Hc in Hblank. simpl in Hblank.
      apply orb_false_iff in Hblank. tauto.
    + intros s ->. apply string_accepts in Hsubject as [[Hs|[_ [=]]] H].
      destruct (H Hs) as (_ & _ & Hmax).
      destruct (String.eqb_spec s "") as [->|Hs']; [by vm_compute|].
      exact (Hmax Hs' _ eq_refl).
    + intros Ht. apply truthy_Some in Ht as (s & -> & Hs).
      apply string_accepts in Hpassword as [[Hp|[_ [=]]] _]. done.
  - intros c -> Hne Hlen Hblank. unfold validateThread, thread_schema, body_with_comment.
    cbn [subject comment name password is_nsfw].
    rewrite (comment_within c Hne Hlen).
    change (Joi.string_ "subject" _ JUndefined) with (@inr Joi.error _ (@None string)).
    change (Joi.string_ "name" _ JUndefined) with (@inr Joi.error _ (Some "Anonymous")).
    change (Joi.string_ "password" _ JUndefined) with (@inr Joi.error _ (@None string)).
    change (Joi.boolean_ "is_nsfw" JUndefined) with (@inr Joi.error _ false).
    cbn [default]. unfold comment_is_blank.
    destruct has_file; [reflexivity|]. rewrite (Hblank eq_refl).
    destruct (String.eqb_spec c "") as [|_]; [done|]. reflexivity.
Qed.

Lemma validateThread_accepts_witness :
  exists value,
    validateThread false Sample.nsfw_thread_body = inr value /\
    v_comment value = Some "hello" /\ v_name value = "Anonymous".
Proof.
  destruct (validateThread false Sample.nsfw_thread_body) as [res|value] eqn:Hv;
    [discriminate Hv|].
  destruct (validateThread_accepts false Sample.nsfw_thread_body) as [Hbounds _].
  destruct (Hbounds value Hv) as ((c & Hc & Hvc & _) & _).
  exists value. split; [reflexivity|]. injection Hc as <-. split; [exact Hvc|].
  by injection Hv as <-.
Defined.

(** Lengths are those of JavaScript, and so is white space: a name of 30
    accented letters, which is 60 bytes, is within the 50 of the schema,
    and one of 51 ASCII letters is not; a comment that is one no-break
    space (U+00A0) is blank, and so is a byte order mark (U+FEFF).  The
    accented letter is U+00E9. *)
Example validateThread_beyond_ascii :
  let e_acute := String (ascii_of_nat 195) (String (ascii_of_nat 169) "") in
  let accented := String.concat "" (repeat e_acute 30) in
  let nbsp := String (ascii_of_nat 194) (String (ascii_of_nat 160) "") in
  let bom :=
    String (ascii_of_nat 239) (String (ascii_of_nat 187) (String (ascii_of_nat 191) "")) in
  let name_of n := {| subject := JUndefined; comment := JString "hello"; name := JString n;
                      password := JUndefined; is_nsfw := JUndefined |} in
  String.length accented = 60 /\ Js.length accented = 30%N /\
  validateThread false (name_of accented)
    = inr {| v_subject := None; v_comment := Some "hello"; v_name := accented;
             v_password := None; v_is_nsfw := false |} /\
  validateThread false (name_of "abcdefghijklmnopqrstuvwxyzabcdefghijklmnopqrstuvwxy")
    = inl (mkResponse 400 (ValidationError [Joi.string_max "name" 50])) /\
  validateThread false (body_with_comment (JString nbsp))
    = inl (mkResponse 400 (ErrorMessage "Either an image or comment is required")) /\
  validateThread false (body_with_comment (JString bom))
    = inl (mkResponse 400 (ErrorMessage "Either an image or comment is required")) /\
  validateThread true (body_with_comment (JString nbsp))
    = inr {| v_subject := None; v_comment := Some nbsp; v_name := "Anonymous";
             v_password := None; v_is_nsfw := false |}.
Proof. vm_compute. by repeat split. Qed.

Section RepliesAccepted.

Context (guid : string -> bool).

(** X8.  What [validatePost] lets through, and what it hands to
    [replyToThread].  A body it accepts is within the bounds of its schema,
    in UTF-16 code units: the comment is the string of the request, of 1 to
    10000 code units, and not white space from end to end when no file is
    attached; the name is not empty and has at most 50 code units; and a
    [reply_to] that is kept is the string of the request and passes the
    GUID test.  So a reply without a comment is never accepted, with or
    without a file.  The other way, a body that holds nothing but a comment
    within these bounds is accepted, and handed over with the defaults. *)
Theorem validatePost_accepts (has_file : bool) (body : PostBody) :
  (forall value,
     validatePost guid has_file body = inr value ->
     (exists c, b_comment body = JString c /\ r_comment value = Some c /\
                c <> "" /\ (1 <= Js.length c <= 10000)%N /\
                (has_file = false -> Js.trim_is_empty c = false)) /\
     (r_name value <> "" /\ (Js.length (r_name value) <= 50)%N) /\
     (forall id, r_reply_to value = Some id ->
        b_reply_to body = JString id /\ id <> "" /\ guid id = true)) /\
  (forall c,
     body = reply_with_comment (JString c) ->
     c <> "" -> (1 <= Js.length c <= 10000)%N ->
     (has_file = false -> Js.trim_is_empty c = false) ->
     validatePost guid has_file body =
       inr {| r_comment := Some c; r_name := "Anonymous"; r_password := None;
              r_is_nsfw := false; r_reply_to := None |}).
Proof.
  split.
  - intros value. unfold validatePost, post_schema.
    destruct (Joi.string_ "comment" _ _) as [e|comment] eqn:Hcomment; [done|].
    destruct (Joi.string_ "name" _ _) as [e|name] eqn:Hname; [done|].
    destruct (Joi.string_ "password" _ _) as [e|password] eqn:Hpassword; [done|].
    destruct (Joi.boolean_ "is_nsfw" _) as [e|is_nsfw]; [done|].
    destruct (uuid_ guid "reply_to" _) as [e|reply_to] eqn:Hreply; [done|].
    destruct (negb has_file && comment_is_blank _) eqn:Hblank; [done|].
    intros [= <-]. cbn [r_comment r_name r_reply_to].
    destruct (comment_accepted _ _ Hcomment) as (c & Hc & -> & Hne & Hlen).
    split; [|split; [exact (name_accepted _ _ Hname)|]].
    + exists c. split; [done|]. split; [done|]. split; [done|]. split; [done|].
      intros ->. rewrite Hc in Hblank. simpl in Hblank.
      apply orb_false_iff in Hblank. tauto.
    + intros id ->. unfold uuid_ in Hreply.
      destruct (b_reply_to body) as [| |b|z|s]; try done.
      destruct (String.eqb s "") eqn:He; [done|].
      destruct (guid s) eqn:Hg; [|done]. injection Hreply as ->.
      by apply String.eqb_neq in He.
  - intros c -> Hne Hlen Hblank. unfold validatePost, post_schema, reply_with_comment.
    cbn [b_comment b_name b_password b_is_nsfw b_reply_to].
    rewrite (comment_within c Hne Hlen).
    change (Joi.string_ "name" _ JUndefined) with (@inr Joi.error _ (Some "Anonymous")).
    change (Joi.string_ "password" _ JUndefined) with (@inr Joi.error _ (@None string)).
    change (Joi.boolean_ "is_nsfw" JUndefined) with (@inr Joi.error _ false).
    change (uuid_ guid "reply_to" JUndefined) with (@inr post_error _ (@None string)).
    cbn [default]. unfold comment_is_blank.
    destruct has_file; [reflexivity|]. rewrite (Hblank eq_refl).
    destruct (String.eqb_spec c "") as [|_]; [done|]. reflexivity.
Qed.

End RepliesAccepted.

Lemma validatePost_accepts_witness :
  exists value,
    validatePost Fixture.guid false Fixture.reply_body = inr value /\
    r_comment value = Some "me too" /\
    r_reply_to value = Some "6f1c2a9e-5b7d-4c3a-9e21-000000000002" /\
    r_name value <> "".
Proof.
  destruct (validatePost Fixture.guid false Fixture.reply_body) as [res|value] eqn:Hv;
    [discriminate Hv|].
  destruct (validatePost_accepts Fixture.guid false Fixture.reply_body) as [Hbounds _].
  destruct (Hbounds value Hv) as ((c & Hc & Hvc & _) & [Hn _] & _).
  exists value. split; [reflexivity|]. injection Hc as <-. split; [exact Hvc|].
  split; [by injection Hv as <-|exact Hn].
Defined.

(** ** The routes: what stays of an upload *)

(** What a completed upload leaves: the original under the key of the
    record, the rows as they were, and no call but uploads and the
    resize. *)
Lemma uploadFile_done (env : Env) (file : File) (isNsfw : bool) (w w1 : World)
    (r : UploadedFile) :
  uploadFile env (Some file) isNsfw w = (Ret (Some r), w1) ->
  storagePath r = upload_key env file isNsfw w /\
  fileType r = mimetype file /\
  stored IMAGES_BUCKET (storagePath r) w1 /\
  threads w1 = threads w /\ posts w1 = posts w /\ rng w1 = S (rng w) /\
  (forall k, k <> storagePath r -> images w1 !! k = images w !! k) /\
  (forall url, thumbnailPath r = Some url ->
     url = publicUrl env THUMBNAILS_BUCKET (storagePath r) /\
     stored THUMBNAILS_BUCKET (storagePath r) w1) /\
  exists evs, added w w1 evs /\
    forall c ok, Called c ok ∈ evs ->
      (exists b ct, c = StorageUpload b (storagePath r) ct) \/ c = SharpResize 200.
Proof.
  intros Hrun.
  destruct (file_bytes env file) as [buf|] eqn:Hb.
  2:{ rewrite (uploadFile_unreadable _ _ _ _ Hb) in Hrun. discriminate. }
  set (key := upload_key env file isNsfw w).
  destruct (upload_refused env IMAGES_BUCKET key (mimetype file) w) eqn:Hr.
  { rewrite (uploadFile_original_refused _ _ _ _ _ Hb Hr) in Hrun. discriminate. }
  assert (rng (tick w) = S (rng w)) as Hrng by done.
  destruct (is_image file) eqn:Hi.
  2:{ rewrite (uploadFile_not_image _ _ _ _ _ Hb Hr Hi) in Hrun.
      injection Hrun as <- <-. fold key. unfold stored, added. simpl.
      split_and!; try done.
      - rewrite lookup_insert_eq. eauto.
      - intros k Hk. by rewrite lookup_insert_ne.
      - eexists. split; [rewrite <- ?app_assoc; reflexivity|]. simpl.
      in_events; first [by right | left; eauto]. }
  destruct (sharp_resize env 200 buf) as [thumb|] eqn:Hs.
  2:{ rewrite (uploadFile_sharp_fails _ _ _ _ _ Hb Hr Hi Hs) in Hrun.
      injection Hrun as <- <-. fold key. unfold stored, added. simpl.
      split_and!; try done.
      - rewrite lookup_insert_eq. eauto.
      - intros k Hk. by rewrite lookup_insert_ne.
      - eexists. split; [rewrite <- ?app_assoc; reflexivity|]. simpl.
      in_events; first [by right | left; eauto]. }
  destruct (upload_refused env THUMBNAILS_BUCKET key "image/jpeg" w) eqn:Ht.
  - rewrite (uploadFile_thumbnail_refused _ _ _ _ _ _ Hb Hr Hi Hs Ht) in Hrun.
    injection Hrun as <- <-. fold key. unfold stored, added. simpl.
    split_and!; try done.
    + rewrite lookup_insert_eq. eauto.
    + intros k Hk. by rewrite lookup_insert_ne.
    + eexists. split; [rewrite <- ?app_assoc; reflexivity|]. simpl.
      in_events; first [by right | left; eauto].
  - rewrite (uploadFile_complete _ _ _ _ _ _ Hb Hr Hi Hs Ht) in Hrun.
    injection Hrun as <- <-. fold key. unfold stored, added. simpl.
    split_and!; try done.
    + rewrite lookup_insert_eq. eauto.
    + intros k Hk. by rewrite lookup_insert_ne.
    + intros url [= <-]. split; [done|]. rewrite lookup_insert_eq. eauto.
    + eexists. split; [rewrite <- ?app_assoc; reflexivity|]. simpl.
      in_events; first [by right | left; eauto].
Qed.

Lemma processUpload_uploaded (env : Env) (file : File) (is_nsfw : jsval)
    (w w1 : World) (r : UploadedFile) :
  uploadFile env (Some file) (nsfw_requested is_nsfw) w = (Ret (Some r), w1) ->
  processUpload env (Some file) is_nsfw w = (Ret (inr (Some r)), w1).
Proof.
  intros Hrun. unfold processUpload, bind.
  change (match is_nsfw with
          | JString s => String.eqb s "true"
          | JBool b => b
          | _ => false
          end) with (nsfw_requested is_nsfw).
  by rewrite Hrun.
Qed.

(** X9.  On [POST /thread] the file is uploaded before the body is
    validated, and a rejection does not take it back: when the upload has
    completed and [validateThread] turns the body down, the answer is that
    rejection, with status 400, and the state is the one the upload left.
    The original is stored under the key of the record, no row is written,
    and [deleteFile] is not called. *)
Theorem rejected_thread_keeps_upload (env : Env) (file : File) (body : ThreadBody)
    (w w1 : World) (r : UploadedFile) (res : response) :
  uploadFile env (Some file) (nsfw_requested (is_nsfw body)) w = (Ret (Some r), w1) ->
  validateThread true body = inl res ->
  post_thread env (Some file) body w = (Ret res, w1) /\
  status res = 400 /\
  stored IMAGES_BUCKET (storagePath r) w1 /\
  threads w1 = threads w /\ posts w1 = posts w.
Proof.
  intros Hup Hv. pose proof (uploadFile_done _ _ _ _ _ _ Hup) as (_ & _ & Hs & Ht & Hp & _).
  unfold post_thread, bind. rewrite (processUpload_uploaded _ _ _ _ _ _ Hup).
  change (bool_decide (is_Some (Some file))) with true. rewrite Hv.
  split; [done|]. split; [|done].
  unfold validateThread in Hv. destruct (thread_schema body); [by injection Hv as <-|].
  destruct (_ && _); [by injection Hv as <-|done].
Qed.

(** X10.  On [POST /thread/:id/reply] the upload is kept as well, when
    [validatePost] turns the body down and when the thread does not exist:
    the answer is the rejection, or 404, and apart from the one query for
    the thread the state is the one the upload left, the original stored
    under the key of the record. *)
Theorem reply_keeps_upload (env : Env) (guid : string -> bool) (threadId : string)
    (file : File) (body : PostBody) (w w1 : World) (r : UploadedFile) :
  uploadFile env (Some file) (nsfw_requested (b_is_nsfw body)) w = (Ret (Some r), w1) ->
  stored IMAGES_BUCKET (storagePath r) w1 /\
  match validatePost guid true body with
  | inl refusal =>
      reply_route env guid threadId (Some file) body w = (Ret (inl refusal), w1)
  | inr value =>
      fails env (DbSelectSingle THREADS threadId) = false ->
      threads w !! threadId = None ->
      reply_route env guid threadId (Some file) body w =
        (Ret (inr (mkResponse 404 (ErrorMessage "Thread not found"))),
         emits [Called (DbSelectSingle THREADS threadId) false] w1)
  end.
Proof.
  intros Hup. pose proof (uploadFile_done _ _ _ _ _ _ Hup) as (_ & _ & Hs & Ht & _).
  split; [done|].
  unfold reply_route, bind. rewrite (processUpload_uploaded _ _ _ _ _ _ Hup).
  change (bool_decide (is_Some (Some file))) with true.
  destruct (validatePost guid true body) as [refusal|value]; [done|].
  intros Hf Hrow. unfold replyToThread, try_catch, bind, db_single_thread.
  by rewrite Hf, Ht, Hrow.
Qed.

Lemma rejected_thread_keeps_upload_witness :
  exists res w1,
    post_thread (Node.env Sample.no_faults true) (Some Sample.cat_jpeg)
      (body_with_comment JUndefined) Sample.empty_world = (Ret res, w1) /\
    status res = 400 /\
    stored IMAGES_BUCKET "6f1c2a9e-5b7d-4c3a-9e21-000000000000.jpg" w1.
Proof.
  destruct (uploadFile (Node.env Sample.no_faults true) (Some Sample.cat_jpeg) false
              Sample.empty_world) as [o w1] eqn:Hup.
  assert (exists r, o = Ret (Some r) /\
            storagePath r = "6f1c2a9e-5b7d-4c3a-9e21-000000000000.jpg") as (r & -> & Hkey).
  { vm_compute in Hup. injection Hup as <- _. eexists. split; reflexivity. }
  destruct (rejected_thread_keeps_upload (Node.env Sample.no_faults true) Sample.cat_jpeg
              (body_with_comment JUndefined) Sample.empty_world w1 r _ Hup eq_refl)
    as (Hrun & Hst & Hs & _).
  eexists _, w1. split; [exact Hrun|]. split; [exact Hst|]. rewrite <- Hkey. exact Hs.
Defined.

Lemma reply_keeps_upload_witness :
  exists w2,
    reply_route (Node.env Sample.no_faults true) Fixture.guid "no-such-thread"
      (Some Sample.cat_jpeg) Fixture.reply_body Sample.empty_world
      = (Ret (inr (mkResponse 404 (ErrorMessage "Thread not found"))), w2) /\
    stored IMAGES_BUCKET "6f1c2a9e-5b7d-4c3a-9e21-000000000000.jpg" w2.
Proof.
  destruct (uploadFile (Node.env Sample.no_faults true) (Some Sample.cat_jpeg) false
              Sample.empty_world) as [o w1] eqn:Hup.
  assert (exists r, o = Ret (Some r) /\
            storagePath r = "6f1c2a9e-5b7d-4c3a-9e21-000000000000.jpg") as (r & -> & Hkey).
  { vm_compute in Hup. injection Hup as <- _. eexists. split; reflexivity. }
  destruct (reply_keeps_upload (Node.env Sample.no_faults true) Fixture.guid
              "no-such-thread" Sample.cat_jpeg Fixture.reply_body Sample.empty_world w1 r Hup)
    as (Hs & Hrun).
  eexists. split; [exact (Hrun eq_refl eq_refl)|].
  rewrite <- Hkey. unfold stored in *. exact Hs.
Defined.

(** ** The answers of the two deletions *)

(** The deletion of a thread, once the password has been accepted and the
    row deleted. *)
Lemma deleteThread_deleted (env : Env) (id : string) (password : option string)
    (w : World) (thread : Thread) :
  threads w !! id = Some thread ->
  Js.truthy password = true ->
  Js.truthy (t_tripcode thread) = true ->
  verifyTripcode env password (t_tripcode thread) = true ->
  fails env (DbSelectSingle THREADS id) = false ->
  fails env (DbDelete THREADS id) = false ->
  exists w',
    deleteThread env id password w =
      (Ret (mkResponse 200 (Message "Thread deleted successfully")), w') /\
    threads w' = delete id (threads w) /\
    posts w' = posts_after_deleteThread env id (posts w).
Proof.
  intros Hrow Hp Ht Hv Hf1 Hf2.
  unfold deleteThread, try_catch, bind, db_single_thread.
  rewrite Hp. lazy beta iota zeta delta [negb]. rewrite Hf1, Hrow, Ht, Hv.
  lazy beta iota zeta delta [negb orb].
  unfold db_delete_thread. rewrite Hf2. lazy beta iota zeta delta [negb].
  set (w1 := emit _ _).
  assert (threads w1 = delete id (threads w)) as Hth1.
  { subst w1. by destruct (cascade env). }
  assert (posts w1 = if cascade env then posts_not_of id (posts w) else posts w) as Hps1.
  { subst w1. by destruct (cascade env). }
  assert (exists w2, (if Js.truthy (t_storage_path thread)
                      then (_ <- deleteFile env (t_storage_path thread)
                                   (t_thumbnail_path thread) ;; ret tt)
                      else ret tt) w1 = (Ret tt, w2) /\ same_rows w1 w2)
    as (w2 & Hrun2 & Hrows2).
  { destruct (Js.truthy (t_storage_path thread)); [|by exists w1].
    unfold bind.
    destruct (deleteFile_effect env (t_storage_path thread) (t_thumbnail_path thread) w1)
      as (res & w2 & -> & Hrows & _). by exists w2. }
  unfold bind in Hrun2. rewrite Hrun2.
  unfold db_select_posts_of.
  assert (exists w3, (let (o, w') :=
                        if fails env (DbSelectPostsOf id)
                        then (Ret None, emit (Called (DbSelectPostsOf id) false) w2)
                        else (Ret (Some (map_to_list (posts_of id (posts w2))).*2),
                              emit (Called (DbSelectPostsOf id) true) w2) in
                      match o with
                      | Ret a =>
                          let (o0, w'0) :=
                            match a with
                            | Some rows => delete_post_files env rows
                            | None => ret tt
                            end w' in
                          match o0 with
                          | Ret _ => (Ret tt, w'0)
                          | Throw e => (@Throw unit e, w'0)
                          end
                      | Throw e => (Throw e, w')
                      end) = (Ret tt, w3) /\ same_rows w2 w3)
    as (w3 & Hrun3 & Hrows3).
  { destruct (fails env (DbSelectPostsOf id)).
    - eexists. split; [reflexivity|done].
    - destruct (delete_post_files_run env (map_to_list (posts_of id (posts w2))).*2
                  (emit (Called (DbSelectPostsOf id) true) w2)) as (w3 & -> & Hrows).
      by exists w3. }
  lazy beta zeta.
  assert (forall w3, same_rows w2 w3 ->
            exists b w',
              db_delete_posts_of env id w3 = (Ret b, w') /\
              threads w' = delete id (threads w) /\
              posts w' = posts_after_deleteThread env id (posts w)) as Hlast.
  { intros w3' Hrows. unfold db_delete_posts_of, posts_after_deleteThread, same_rows in *.
    destruct Hrows as (Ht3 & Hp3 & _). destruct Hrows2 as (Ht2 & Hp2 & _).
    destruct (fails env (DbDeletePostsOf id)); eexists _, _; (split; [reflexivity|]); simpl;
      rewrite ?Ht3, ?Hp3, ?Ht2, ?Hp2, Hth1, ?Hps1; (split; [done|]);
      destruct (cascade env); simpl; try done.
    by rewrite posts_not_of_idemp. }
  destruct (fails env (DbSelectPostsOf id)) eqn:Hf4.
  - injection Hrun3 as <-. lazy beta iota zeta delta [ret].
    destruct (Hlast (emit (Called (DbSelectPostsOf id) false) w2))
      as (b & w' & -> & Hth & Hps); [done|].
    by exists w'.
  - destruct (delete_post_files env (map_to_list (posts_of id (posts w2))).*2
                (emit (Called (DbSelectPostsOf id) true) w2)) as [[[]|e] w3'] eqn:Hloop;
      [|discriminate Hrun3].
    injection Hrun3 as ->.
    destruct (Hlast w3) as (b & w' & -> & Hth & Hps); [done|].
    by exists w'.
Qed.

(** X11.  [deleteThread] always answers, whatever the services
    do, and its status is decided in this order: 400 without a password,
    500 when the thread cannot be read, 404 when there is no such thread,
    403 when the thread has no tripcode or the password does not match it,
    500 when the row cannot be deleted, and 200 otherwise.  Every answer
    but 200 leaves each row and each object in place; with 200 the row of
    the thread is gone, and so are its posts, unless the foreign key does
    not cascade and the deletion by [thread_id] fails. *)
Theorem deleteThread_answers (env : Env) (id : string) (password : option string)
    (w : World) :
  exists res w',
    deleteThread env id password w = (Ret res, w') /\
    status res = deleteThread_status env id password w /\
    (status res <> 200 -> nothing_removed w w') /\
    (status res = 200 ->
       threads w' = delete id (threads w) /\
       posts w' = posts_after_deleteThread env id (posts w)).
Proof.
  unfold deleteThread_status.
  destruct (Js.truthy password) eqn:Hp; cbn [negb].
  2:{ unfold deleteThread, try_catch. rewrite Hp. cbn [negb].
      eexists _, w. split; [reflexivity|]. by split_and!. }
  destruct (fails env (DbSelectSingle THREADS id)) eqn:Hf1.
  { unfold deleteThread, try_catch, bind, db_single_thread. rewrite Hp, Hf1. cbn [negb].
    eexists _, _. split; [reflexivity|]. by split_and!. }
  destruct (threads w !! id) as [thread|] eqn:Hrow.
  2:{ rewrite (deleteThread_not_found env id password w Hp Hf1 Hrow).
      eexists _, _. split; [reflexivity|]. by split_and!. }
  destruct (negb (Js.truthy (t_tripcode thread))
            || negb (verifyTripcode env password (t_tripcode thread))) eqn:Hno.
  { destruct (deleteThread_refused env id password w thread Hrow) as (evs & -> & _).
    { apply orb_true_iff in Hno as [H|H]; apply negb_true_iff in H; tauto. }
    unfold thread_refusal. rewrite Hp, Hf1. cbn [negb].
    eexists _, _. split; [reflexivity|]. split; [done|].
    split; [intros _; apply emits_nothing_removed|done]. }
  apply orb_false_iff in Hno as [Ht Hv]. apply negb_false_iff in Ht, Hv.
  destruct (fails env (DbDelete THREADS id)) eqn:Hf2.
  - unfold deleteThread, try_catch, bind, db_single_thread, db_delete_thread.
    rewrite Hp. lazy beta iota zeta delta [negb]. rewrite Hf1, Hrow, Ht, Hv.
    lazy beta iota zeta delta [negb orb]. rewrite Hf2.
    eexists _, _. split; [reflexivity|]. by split_and!.
  - destruct (deleteThread_deleted env id password w thread Hrow Hp Ht Hv Hf1 Hf2)
      as (w' & -> & Hth & Hps).
    eexists _, w'. split; [reflexivity|]. by split_and!.
Qed.

(** The deletion of a post, once the password has been accepted and the
    row deleted. *)
Lemma deletePost_deleted (env : Env) (id : string) (password : option string)
    (w : World) (post : Post) :
  posts w !! id = Some post ->
  Js.truthy password = true ->
  Js.truthy (p_tripcode post) = true ->
  verifyTripcode env password (p_tripcode post) = true ->
  fails env (DbSelectSingle POSTS id) = false ->
  fails env (DbDelete POSTS id) = false ->
  exists w',
    deletePost env id password w =
      (Ret (mkResponse 200 (Message "Post deleted successfully")), w') /\
    posts w' = delete id (posts w) /\
    threads w' = threads_after_deletePost env post (threads w) /\
    images w' = images_after_deleteFile env (p_storage_path post) (images w) /\
    thumbnails w' =
      (if Js.truthy (p_storage_path post)
       then thumbnails_after_deleteFile env (p_thumbnail_path post) (thumbnails w)
       else thumbnails w).
Proof.
  intros Hrow Hp Ht Hv Hf1 Hf2.
  unfold deletePost, try_catch, bind, db_single_post.
  rewrite Hp. lazy beta iota zeta delta [negb]. rewrite Hf1, Hrow, Ht, Hv.
  lazy beta iota zeta delta [negb orb].
  unfold db_delete_post. rewrite Hf2. lazy beta iota zeta delta [negb].
  set (w1 := emit _ _).
  assert (exists w2, (if Js.truthy (p_storage_path post)
                      then (_ <- deleteFile env (p_storage_path post)
                                   (p_thumbnail_path post) ;; ret tt)
                      else ret tt) w1 = (Ret tt, w2) /\ same_rows w1 w2 /\
                     images w2 = images_after_deleteFile env (p_storage_path post) (images w) /\
                     thumbnails w2 =
                       (if Js.truthy (p_storage_path post)
                        then thumbnails_after_deleteFile env (p_thumbnail_path post)
                               (thumbnails w)
                        else thumbnails w))
    as (w2 & Hrun2 & Hrows2 & Him2 & Hth2).
  { unfold images_after_deleteFile, thumbnails_after_deleteFile.
    destruct (Js.truthy (p_storage_path post)) eqn:Hs; [|by exists w1].
    unfold bind.
    destruct (deleteFile_effect env (p_storage_path post) (p_thumbnail_path post) w1)
      as (res & w2 & -> & Hrows & _ & Him & Hth). rewrite Hs in Him. by exists w2. }
  unfold bind in Hrun2. rewrite Hrun2.
  unfold db_rpc_update_thread_counts, threads_after_deletePost.
  destruct Hrows2 as (Ht2 & Hp2 & _).
  destruct (fails env (DbRpc "update_thread_counts" (p_thread_id post)));
    eexists; (split; [reflexivity|]); simpl; rewrite ?Ht2, ?Hp2; by split_and!.
Qed.

(** X12.  [deletePost] always answers, with the status decided in
    the same order as for a thread.  Every answer but 200 leaves each row
    and each object in place.  With 200 the row of the post is gone; the
    original is removed from the image bucket and the key read off the
    thumbnail path from the thumbnail bucket, each unless its removal
    fails, and only for a post that has a storage path; and the counts of
    its thread are moved by the stored procedure, the image count by -1
    exactly when the post had a file path, unless that call fails, which
    the handler does not report. *)
Theorem deletePost_answers (env : Env) (id : string) (password : option string)
    (w : World) :
  exists res w',
    deletePost env id password w = (Ret res, w') /\
    status res = deletePost_status env id password w /\
    (status res <> 200 -> nothing_removed w w') /\
    (status res = 200 ->
       forall post, posts w !! id = Some post ->
         posts w' = delete id (posts w) /\
         threads w' = threads_after_deletePost env post (threads w) /\
         images w' = images_after_deleteFile env (p_storage_path post) (images w) /\
         thumbnails w' =
           (if Js.truthy (p_storage_path post)
            then thumbnails_after_deleteFile env (p_thumbnail_path post) (thumbnails w)
            else thumbnails w)).
Proof.
  unfold deletePost_status.
  destruct (Js.truthy password) eqn:Hp; cbn [negb].
  2:{ unfold deletePost, try_catch. rewrite Hp. cbn [negb].
      eexists _, w. split; [reflexivity|]. by split_and!. }
  destruct (fails env (DbSelectSingle POSTS id)) eqn:Hf1.
  { unfold deletePost, try_catch, bind, db_single_post. rewrite Hp, Hf1. cbn [negb].
    eexists _, _. split; [reflexivity|]. by split_and!. }
  destruct (posts w !! id) as [post|] eqn:Hrow.
  2:{ rewrite (deletePost_not_found env id password w Hp Hf1 Hrow).
      eexists _, _. split; [reflexivity|]. by split_and!. }
  destruct (negb (Js.truthy (p_tripcode post))
            || negb (verifyTripcode env password (p_tripcode post))) eqn:Hno.
  { destruct (deletePost_refused env id password w post Hrow) as (evs & -> & _).
    { apply orb_true_iff in Hno as [H|H]; apply negb_true_iff in H; tauto. }
    unfold post_refusal. rewrite Hp, Hf1. cbn [negb].
    eexists _, _. split; [reflexivity|]. split; [done|].
    split; [intros _; apply emits_nothing_removed|done]. }
  apply orb_false_iff in Hno as [Ht Hv]. apply negb_false_iff in Ht, Hv.
  destruct (fails env (DbDelete POSTS id)) eqn:Hf2.
  - unfold deletePost, try_catch, bind, db_single_post, db_delete_post.
    rewrite Hp. lazy beta iota zeta delta [negb]. rewrite Hf1, Hrow, Ht, Hv.
    lazy beta iota zeta delta [negb orb]. rewrite Hf2.
    eexists _, _. split; [reflexivity|]. by split_and!.
  - destruct (deletePost_deleted env id password w post Hrow Hp Ht Hv Hf1 Hf2)
      as (w' & -> & Hps & Hth & Him & Htb).
    eexists _, w'. split; [reflexivity|]. split; [done|]. split; [done|].
    intros _ post' [= <-]. done.
Qed.

(** ** Creating, then deleting *)

(** The row [createThread] inserts, when the store takes it. *)
Lemma createThread_created (env : Env) (body : ThreadValue)
    (fileData : option UploadedFile) (w : World) :
  let id := uuidv4 env (rng w) in
  fails env (DbInsert THREADS id) = false ->
  threads w !! id = None ->
  exists row w1,
    createThread env body fileData w =
      (Ret (mkResponse 201 (Created "Thread created successfully" row)), w1) /\
    t_id row = id /\
    t_tripcode row = generateTripcode env (v_password body) /\
    t_is_nsfw row = v_is_nsfw body /\
    t_comment row = v_comment body /\
    t_storage_path row = storagePath <$> fileData /\
    t_thumbnail_path row = fileData ≫= thumbnailPath /\
    threads w1 = <[id := row]> (threads w) /\ posts w1 = posts w /\
    images w1 = images w /\ thumbnails w1 = thumbnails w /\ rng w1 = S (rng w).
Proof.
  intros id Hf Hfree.
  unfold createThread, try_catch, bind, fresh_uuid, db_insert_thread.
  destruct fileData as [r|]; cbn [t_id]; fold id; cbn [threads tick];
    rewrite Hf, Hfree; cbn [orb bool_decide];
    (eexists _, _; split; [reflexivity|]); cbn;
    (split_and!; try done);
    unfold generateTripcode; by destruct (Js.truthy (v_password body)).
Qed.

(** X13.  A thread created under a password can be deleted with
    that password, and with no other whose tripcode differs.  When the
    store takes the row, [createThread] answers 201; [deleteThread] with
    the same password then answers 200 and the table of threads is what it
    was before the creation, while a password with another tripcode is
    answered 403 and removes nothing.  (The tripcode must count as one:
    the digest is not the empty string.) *)
Theorem create_then_delete (env : Env) (body : ThreadValue)
    (fileData : option UploadedFile) (w : World) (p : string) :
  v_password body = Some p ->
  Js.truthy (generateTripcode env (Some p)) = true ->
  let id := uuidv4 env (rng w) in
  threads w !! id = None ->
  fails env (DbInsert THREADS id) = false ->
  fails env (DbSelectSingle THREADS id) = false ->
  fails env (DbDelete THREADS id) = false ->
  exists row w1,
    createThread env body fileData w =
      (Ret (mkResponse 201 (Created "Thread created successfully" row)), w1) /\
    threads w1 = <[id := row]> (threads w) /\
    (exists w2,
       deleteThread env id (Some p) w1 =
         (Ret (mkResponse 200 (Message "Thread deleted successfully")), w2) /\
       threads w2 = threads w) /\
    (forall q, q <> "" ->
       generateTripcode env (Some q) <> generateTripcode env (Some p) ->
       exists w2,
         deleteThread env id (Some q) w1 =
           (Ret (mkResponse 403 (ErrorMessage "Invalid password")), w2) /\
         nothing_removed w1 w2).
Proof.
  intros Hpw Htrip id Hfree Hfi Hfs Hfd.
  destruct (createThread_created env body fileData w Hfi Hfree)
    as (row & w1 & Hrun & Hid & Htc & _ & _ & _ & _ & Hth & _).
  fold id in Hid, Hth. rewrite Hpw in Htc.
  assert (threads w1 !! id = Some row) as Hrow by (rewrite Hth; apply lookup_insert_eq).
  assert (Js.truthy (Some p) = true) as Hp.
  { unfold generateTripcode in Htrip. by destruct (Js.truthy (Some p)). }
  exists row, w1. split; [done|]. split; [done|]. split.
  - destruct (deleteThread_deleted env id (Some p) w1 row Hrow Hp) as (w2 & Hdel & Hth2 & _);
      try done.
    + by rewrite Htc.
    + rewrite Htc. unfold verifyTripcode. by apply bool_decide_eq_true.
    + exists w2. split; [done|]. rewrite Hth2, Hth. by apply delete_insert_id.
  - intros q Hq Hne.
    destruct (deleteThread_wrong_password env id (Some q) w1 row Hrow) as (w2 & Hdel & Hsame & _);
      try done.
    + by apply truthy_nonempty.
    + rewrite Htc. unfold verifyTripcode. by apply bool_decide_eq_false.
    + by exists w2.
Qed.

Lemma create_then_delete_witness :
  exists row w1 w2,
    createThread (Node.env Sample.no_faults true) Fixture.thread_value None
      Sample.empty_world
      = (Ret (mkResponse 201 (Created "Thread created successfully" row)), w1) /\
    deleteThread (Node.env Sample.no_faults true) "6f1c2a9e-5b7d-4c3a-9e21-000000000000"
      (Some "deletepass") w1
      = (Ret (mkResponse 200 (Message "Thread deleted successfully")), w2) /\
    threads w2 = ∅.
Proof.
  destruct (create_then_delete (Node.env Sample.no_faults true) Fixture.thread_value None
              Sample.empty_world "deletepass")
    as (row & w1 & Hrun & _ & (w2 & Hdel & Hth) & _); try reflexivity.
  exists row, w1, w2. split; [exact Hrun|]. split; [exact Hdel|exact Hth].
Defined.

(** ** When the insertion fails *)

Lemma deleteFile_leaves (env : Env) (r : UploadedFile) (w : World) :
  storagePath r <> "" ->
  exists res w',
    deleteFile env (Some (storagePath r)) (thumbnailPath r) w = (Ret res, w') /\
    same_rows w w' /\
    images w' = after_remove env IMAGES_BUCKET (storagePath r) (images w) /\
    thumbnails w' = thumbnails_after_deleteFile env (thumbnailPath r) (thumbnails w).
Proof.
  intros Hne.
  destruct (deleteFile_effect env (Some (storagePath r)) (thumbnailPath r) w)
    as (res & w' & Hrun & Hrows & _ & Him & Hth).
  rewrite (truthy_nonempty _ Hne) in Him. by exists res, w'.
Qed.

(** X14.  When the row cannot be written, the handlers take the
    upload back.  If the insertion fails in [createThread], or the query
    for the thread or the insertion fails in [replyToThread], the answer is
    500, no row is added, and [deleteFile] has been called on the record:
    the original is removed from the image bucket, and the key read off the
    thumbnail URL from the thumbnail bucket, each unless its own removal
    fails. *)
Theorem insert_failure_removes_upload (env : Env) (r : UploadedFile) (w : World) :
  storagePath r <> "" ->
  (forall body,
     fails env (DbInsert THREADS (uuidv4 env (rng w))) = true
     \/ is_Some (threads w !! uuidv4 env (rng w)) ->
     exists w',
       createThread env body (Some r) w =
         (Ret (mkResponse 500 (ErrorMessage "Failed to create thread")), w') /\
       threads w' = threads w /\ posts w' = posts w /\
       images w' = after_remove env IMAGES_BUCKET (storagePath r) (images w) /\
       thumbnails w' = thumbnails_after_deleteFile env (thumbnailPath r) (thumbnails w))
  /\
  (forall threadId body,
     fails env (DbSelectSingle THREADS threadId) = true
     \/ (is_Some (threads w !! threadId) /\
         (fails env (DbInsert POSTS (uuidv4 env (rng w))) = true
          \/ is_Some (posts w !! uuidv4 env (rng w)))) ->
     exists w',
       replyToThread env threadId body (Some r) w =
         (Ret (mkResponse 500 (ErrorMessage "Failed to post reply")), w') /\
       threads w' = threads w /\ posts w' = posts w /\
       images w' = after_remove env IMAGES_BUCKET (storagePath r) (images w) /\
       thumbnails w' = thumbnails_after_deleteFile env (thumbnailPath r) (thumbnails w)).
Proof.
  intros Hne. split.
  - intros body Hfail.
    unfold createThread, try_catch, bind, fresh_uuid, db_insert_thread.
    cbn [t_id threads tick].
    assert (fails env (DbInsert THREADS (uuidv4 env (rng w)))
            || bool_decide (is_Some (threads w !! uuidv4 env (rng w))) = true) as ->.
    { destruct Hfail as [->|H]; [done|]. rewrite bool_decide_eq_true_2 by done.
      apply orb_true_r. }
    unfold throw, console_error. lazy beta iota zeta. rewrite (truthy_nonempty _ Hne).
    set (w1 := emit _ (emit _ _)).
    destruct (deleteFile_leaves env r w1 Hne) as (res & w' & -> & Hrows & Him & Hth).
    exists w'. split; [done|]. destruct Hrows as (-> & -> & _). by split_and!.
  - intros threadId body Hfail.
    unfold replyToThread, try_catch, bind, db_single_thread.
    destruct (fails env (DbSelectSingle THREADS threadId)) eqn:Hfs.
    + unfold throw, console_error. lazy beta iota zeta. rewrite (truthy_nonempty _ Hne).
      set (w1 := emit _ (emit _ _)).
      destruct (deleteFile_leaves env r w1 Hne) as (res & w' & -> & Hrows & Him & Hth).
      exists w'. split; [done|]. destruct Hrows as (-> & -> & _). by split_and!.
    + destruct Hfail as [?|[[thread Hrow] Hfail]]; [done|]. rewrite Hrow.
      unfold fresh_uuid, db_insert_post. cbn [p_id posts tick emit rng].
      assert (fails env (DbInsert POSTS (uuidv4 env (rng w)))
              || bool_decide (is_Some (posts w !! uuidv4 env (rng w))) = true) as ->.
      { destruct Hfail as [->|H]; [done|]. rewrite bool_decide_eq_true_2 by done.
        apply orb_true_r. }
      unfold throw, console_error. lazy beta iota zeta. rewrite (truthy_nonempty _ Hne).
      set (w1 := emit _ (emit _ _)).
      destruct (deleteFile_leaves env r w1 Hne) as (res & w' & -> & Hrows & Him & Hth).
      exists w'. split; [done|]. destruct Hrows as (-> & -> & _). by split_and!.
Qed.

Lemma insert_failure_removes_upload_witness :
  exists w',
    createThread (Node.env Fixture.inserts_fail true) Fixture.thread_value
      (Some Fixture.upload_A) Sample.world_abc
      = (Ret (mkResponse 500 (ErrorMessage "Failed to create thread")), w') /\
    stored IMAGES_BUCKET "A.jpg" Sample.world_abc /\
    ~ stored IMAGES_BUCKET "A.jpg" w' /\
    ~ stored THUMBNAILS_BUCKET "A.jpg" w' /\
    threads w' = threads Sample.world_abc.
Proof.
  destruct (insert_failure_removes_upload (Node.env Fixture.inserts_fail true)
              Fixture.upload_A Sample.world_abc) as [H _]; [discriminate|].
  destruct (H Fixture.thread_value) as (w' & Hrun & Hth & _ & Him & Htb); [by left|].
  exists w'. split; [exact Hrun|].
  split; [vm_compute; eauto|].
  change (images w' = delete "A.jpg" (images Sample.world_abc)) in Him.
  change (thumbnails w' = delete "A.jpg" (thumbnails Sample.world_abc)) in Htb.
  unfold stored. cbn [objects]. rewrite Him, Htb, !lookup_delete_eq.
  split; [by intros [? ?]|]. split; [by intros [? ?]|exact Hth].
Defined.

(** ** The upload of a file on disk *)

Lemma or_else_Some (s d : string) : s <> "" -> Js.or_else (Some s) d = s.
Proof. intros Hs. unfold Js.or_else. by rewrite (truthy_nonempty s Hs). Qed.

(** X15.  [uploadFileFromPath] is [uploadFile] on the file object
    that stands for the path.  For a path that exists, can be read and
    has a name, it returns what [uploadFile] returns for the file whose
    original name is the base name of the path, whose type is the one
    [getMimeType] gives that name, and whose buffer is the content: the
    same record or the same absence of one, the same objects in both
    buckets, the same draw of an identifier and the same calls with the
    same outcomes.  Only the lines written to the log may differ. *)
Theorem uploadFileFromPath_agrees (env : Env) (fs : Fs) (filePath : string)
    (isNsfw : bool) (w : World) (buf : bytes) (stats : Stats) :
  existsSync fs filePath = true ->
  readFileSync env filePath = Some buf ->
  statSync fs filePath = Some stats ->
  Path.basename filePath <> "" ->
  exists o w1 w2,
    uploadFileFromPath env fs (Some filePath) isNsfw w = (Ret o, w1) /\
    uploadFile env (Some (file_at env filePath buf stats)) isNsfw w = (Ret o, w2) /\
    images w1 = images w2 /\ thumbnails w1 = thumbnails w2 /\
    threads w1 = threads w2 /\ posts w1 = posts w2 /\ rng w1 = rng w2 /\
    calls (trace w1) = calls (trace w2).
Proof.
  intros Hexists Hread Hstat Hbase.
  assert (filePath <> "") as Hne by (intros ->; by apply Hbase).
  unfold uploadFileFromPath, uploadFile.
  rewrite (truthy_nonempty _ Hne).
  change (default "" (Some filePath)) with filePath.
  rewrite Hexists. cbn [negb orb].
  unfold try_catch, bind, fresh_uuid. rewrite Hread, Hstat.
  cbn [ret originalname mimetype size buffer file_at].
  rewrite (or_else_Some _ _ Hbase).
  destruct (storage_upload env IMAGES_BUCKET _ buf _ (tick w)) as [[[]|e] w3] eqn:Hup.
  - cbn [negb].
    destruct (Js.startsWith "image/" (getMimeType env (Path.basename filePath))).
    + destruct (sharp env 200 buf w3) as [[thumb|e] w4].
      * destruct (storage_upload env THUMBNAILS_BUCKET _ thumb _ w4) as [[[]|e] w5].
        -- eexists _, _, _. split; [reflexivity|]. split; [reflexivity|]. done.
        -- eexists _, _, _. split; [reflexivity|]. split; [reflexivity|]. done.
        -- eexists _, _, _. split; [reflexivity|]. split; [reflexivity|]. done.
      * eexists _, _, _. split; [reflexivity|]. split; [reflexivity|]. done.
    + eexists _, _, _. split; [reflexivity|]. split; [reflexivity|]. done.
  - cbn [negb]. eexists _, _, _. split; [reflexivity|]. split; [reflexivity|].
    simpl. unfold calls. by rewrite !omap_app.
  - eexists _, _, _. split; [reflexivity|]. split; [reflexivity|].
    simpl. unfold calls. by rewrite !omap_app.
Qed.

Lemma getMimeType_image (env : Env) (filename : string) :
  let ext := Str.toLowerCase (extname env filename) in
  (ext ∈ image_extensions -> Js.startsWith "image/" (getMimeType env filename) = true) /\
  (ext ∉ image_extensions -> getMimeType env filename = "application/octet-stream").
Proof.
  intros ext. unfold getMimeType. fold ext. unfold image_extensions, mimeTypes, property.
  split.
  - intros Hin. repeat (apply elem_of_cons in Hin as [->|Hin]; [reflexivity|]).
    by apply elem_of_nil in Hin.
  - intros Hout.
    repeat match goal with
           | |- context [String.eqb ?a ext] =>
               destruct (String.eqb_spec a ext) as [<-|?];
               [exfalso; apply Hout; repeat first [apply list_elem_of_here | apply list_elem_of_further]|]
           end.
    reflexivity.
Qed.

(** X16.  [uploadFileFromPath] goes by the extension of the name,
    not by the content.  A path that does not exist gives no record, with
    one line in the log and nothing else.  A record it returns carries the
    base name of the path and the type [getMimeType] finds for it: an
    image type for [.jpg], [.jpeg], [.png], [.gif], [.webp] and [.svg], in
    any letter case, and [application/octet-stream] for every other
    extension, in which case there is no thumbnail and the thumbnail bucket
    is left as it was. *)
Theorem uploadFileFromPath_by_extension (env : Env) (fs : Fs) (filePath : string)
    (isNsfw : bool) (w : World) :
  (existsSync fs filePath = false ->
     uploadFileFromPath env fs (Some filePath) isNsfw w
       = (Ret None, emits [ConsoleError "File not found:"] w)) /\
  (forall r w',
     uploadFileFromPath env fs (Some filePath) isNsfw w = (Ret (Some r), w') ->
     let ext := Str.toLowerCase (extname env (Path.basename filePath)) in
     fileName r = Some (Path.basename filePath) /\
     fileType r = getMimeType env (Path.basename filePath) /\
     (ext ∈ image_extensions -> Js.startsWith "image/" (fileType r) = true) /\
     (ext ∉ image_extensions ->
        fileType r = "application/octet-stream" /\ thumbnailPath r = None /\
        thumbnails w' = thumbnails w)).
Proof.
  split.
  - intros Hno. unfold uploadFileFromPath.
    destruct (Js.truthy (Some filePath)); [|done].
    change (default "" (Some filePath)) with filePath. by rewrite Hno.
  - intros r w' Hrun ext.
    destruct (getMimeType_image env (Path.basename filePath)) as [Himg Hoct].
    fold ext in Himg, Hoct.
    unfold uploadFileFromPath in Hrun.
    destruct (negb (Js.truthy (Some filePath)) || _); [discriminate Hrun|].
    change (default "" (Some filePath)) with filePath in Hrun.
    unfold try_catch, bind, fresh_uuid in Hrun.
    destruct (readFileSync env filePath) as [buf|]; [|discriminate Hrun].
    destruct (statSync fs filePath) as [stats|]; [|discriminate Hrun].
    cbn [ret] in Hrun. rewrite storage_upload_run in Hrun.
    destruct (upload_refused env IMAGES_BUCKET _ _ (tick w)); [discriminate Hrun|].
    cbn [negb] in Hrun.
    destruct (Js.startsWith "image/" (getMimeType env (Path.basename filePath))) eqn:Hi.
    + assert (ext ∈ image_extensions) as Hin.
      { destruct (decide (ext ∈ image_extensions)) as [|Hout]; [done|].
        rewrite (Hoct Hout) in Hi. discriminate Hi. }
      destruct (sharp env 200 buf _) as [[thumb|e] w4];
        [destruct (storage_upload env THUMBNAILS_BUCKET _ thumb _ w4) as [[[]|e] w5]|];
        try discriminate Hrun; injection Hrun as <- <-; cbn [fileName fileType];
        (split; [done|]); (split; [done|]); (split; [by intros _|]); by intros Hout.
    + injection Hrun as <- <-. cbn [fileName fileType thumbnailPath].
      split; [done|]. split; [done|]. split; [intros Hin; by specialize (Himg Hin)|].
      intros Hout. split; [by apply Hoct|]. split; [done|]. by destruct isNsfw.
Qed.



Lemma uploadFileFromPath_agrees_witness :
  exists r w1 w2,
    uploadFileFromPath Fixture.env_on_disk Fixture.disk_with_upload
      (Some "uploads/9b2d6c1e.JPG") false Sample.empty_world = (Ret (Some r), w1) /\
    uploadFile Fixture.env_on_disk
      (Some (file_at Fixture.env_on_disk "uploads/9b2d6c1e.JPG"
               [Byte.xff; Byte.xd8; Byte.x00] (mkStats 3 false)))
      false Sample.empty_world = (Ret (Some r), w2) /\
    fileType r = "image/jpeg" /\ images w1 = images w2 /\ thumbnails w1 = thumbnails w2.
Proof.
  destruct (uploadFileFromPath_agrees Fixture.env_on_disk Fixture.disk_with_upload
              "uploads/9b2d6c1e.JPG" false Sample.empty_world
              [Byte.xff; Byte.xd8; Byte.x00] (mkStats 3 false))
    as (o & w1 & w2 & Hrun & Hup & Him & Hth & _); try reflexivity.
  - vm_compute. discriminate.
  - assert (exists r, o = Some r /\ fileType r = "image/jpeg") as (r & -> & Hty).
    { pose proof Hrun as Hnf. vm_compute in Hnf. injection Hnf as Ho _.
      eexists. split; [symmetry; exact Ho|reflexivity]. }
    exists r, w1, w2. split; [exact Hrun|]. split; [exact Hup|].
    split; [exact Hty|]. split; [exact Him|exact Hth].
Defined.

(** ** The tokens of [generateTripcode] *)

Lemma replace_all_chars (c d x : ascii) (s : string) :
  x ∈ chars (Js.replace_all c d s) -> x = d \/ (x ∈ chars s /\ x <> c).
Proof.
  unfold chars. induction s as [|a s IH]; simpl; [by intros ?%elem_of_nil|].
  intros [->|Hin]%elem_of_cons.
  - destruct (Ascii.eqb_spec a c) as [->|Hne]; [by left|].
    right. split; [apply list_elem_of_here|done].
  - destruct (IH Hin) as [->|[Hs Hne]]; [by left|].
    right. split; [by apply list_elem_of_further|done].
Qed.

Lemma length_substring (n m : nat) (s : string) :
  String.length (String.substring n m s) <= m.
Proof.
  revert n m. induction s as [|a s IH]; intros [|n] [|m]; simpl; try lia.
  - specialize (IH 0 m). lia.
  - apply IH.
  - apply IH.
Qed.

Lemma length_replace_all (c d : ascii) (s : string) :
  String.length (Js.replace_all c d s) = String.length s.
Proof. induction s as [|a s IH]; simpl; [done|]. by rewrite IH. Qed.

(** X17.  A tripcode is safe to print and to compare: whatever the
    digest, a token that [generateTripcode] returns belongs to a password
    that is not empty, has at most 10 characters, and holds none of [+],
    [/] and [=]. *)
Theorem tripcode_alphabet (env : Env) (password : option string) (token : string) :
  generateTripcode env password = Some token ->
  Js.truthy password = true /\
  String.length token <= 10 /\
  forall c, c ∈ chars token -> c <> "+"%char /\ c <> "/"%char /\ c <> "="%char.
Proof.
  unfold generateTripcode. destruct (Js.truthy password); [|done].
  cbn [negb]. intros [= <-]. split; [done|]. split.
  - rewrite !length_replace_all. apply length_substring.
  - intros c Hc.
    apply replace_all_chars in Hc as [->|[Hc H3]]; [by split_and!|].
    apply replace_all_chars in Hc as [->|[Hc H2]]; [by split_and!|].
    apply replace_all_chars in Hc as [->|[Hc H1]]; [by split_and!|].
    done.
Qed.

Lemma tripcode_alphabet_witness :
  generateTripcode (Node.env Sample.no_faults true) (Some "h") = Some ",bT6,Xs.sq" /\
  String.length ",bT6,Xs.sq" <= 10 /\
  "+"%char ∉ chars ",bT6,Xs.sq".
Proof.
  assert (generateTripcode (Node.env Sample.no_faults true) (Some "h") = Some ",bT6,Xs.sq")
    as Hgen by (vm_compute; reflexivity).
  destruct (tripcode_alphabet _ _ _ Hgen) as (_ & Hlen & Hchars).
  split; [exact Hgen|]. split; [exact Hlen|].
  intros Hin. destruct (Hchars _ Hin) as [H _]. exact (H eq_refl).
Defined.

(** ** Running the reconciler again *)

(** What one run of the reconciler leaves, when its four reads succeed. *)
Lemma cleanup_run (env : Env) (w : World) :
  fails env (StorageList IMAGES_BUCKET) = false ->
  fails env (StorageList THUMBNAILS_BUCKET) = false ->
  fails env (DbSelectPaths THREADS) = false ->
  fails env (DbSelectPaths POSTS) = false ->
  exists w',
    cleanupOrphanedFiles env w =
      (Ret (length (filter (removed_by_sweep env IMAGES_BUCKET (valid_paths w))
                           (keys env IMAGES_BUCKET w))
            + length (filter (removed_by_sweep env THUMBNAILS_BUCKET (valid_paths w))
                             (keys env THUMBNAILS_BUCKET w))), w') /\
    same_rows w w' /\
    forall b k, objects b w' !! k =
      if decide (k ∈ keys env b w /\ removed_by_sweep env b (valid_paths w) k)
      then None else objects b w !! k.
Proof.
  intros Hli Hlt Hqt Hqp.
  unfold cleanupOrphanedFiles, try_catch, bind, storage_list, db_select_storage_paths.
  rewrite Hli. cbn [objects images thumbnails emit]. rewrite Hlt.
  cbn [threads posts emit]. rewrite Hqt, Hqp.
  change (add_paths (add_paths ∅ _) _) with (valid_paths w).
  change (list_names env IMAGES_BUCKET (map_to_list (images w)).*1)
    with (keys env IMAGES_BUCKET w).
  change (list_names env THUMBNAILS_BUCKET (map_to_list (thumbnails w)).*1)
    with (keys env THUMBNAILS_BUCKET w).
  set (w4 := emit _ (emit _ (emit _ (emit _ w)))).
  destruct (sweep_run env IMAGES_BUCKET (valid_paths w) (keys env IMAGES_BUCKET w) 0 w4)
    as (w5 & -> & Hrows5 & Hoth5 & Hobj5 & _).
  destruct (sweep_run env THUMBNAILS_BUCKET (valid_paths w) (keys env THUMBNAILS_BUCKET w)
              (0 + length (filter (removed_by_sweep env IMAGES_BUCKET (valid_paths w))
                                  (keys env IMAGES_BUCKET w))) w5)
    as (w6 & -> & Hrows6 & Hoth6 & Hobj6 & _).
  exists w6. split; [done|].
  split; [unfold same_rows in *; subst w4; simpl in *; intuition congruence|].
  intros [] k.
  - rewrite (Hoth6 IMAGES_BUCKET) by done. by rewrite Hobj5.
  - rewrite Hobj6. by rewrite (Hoth5 THUMBNAILS_BUCKET) by done.
Qed.

Lemma valid_paths_same_rows (w w' : World) :
  same_rows w w' -> valid_paths w' = valid_paths w.
Proof. intros (Ht & Hp & _). unfold valid_paths. by rewrite Ht, Hp. Qed.

Lemma filter_none {A} (P : A -> Prop) `{forall x, Decision (P x)} (l : list A) :
  (forall x, x ∈ l -> ~ P x) -> filter P l = [].
Proof.
  induction l as [|a l IH]; intros Hno; [done|].
  rewrite filter_cons_False by (apply Hno, list_elem_of_here).
  apply IH. intros x Hx. apply Hno. by apply list_elem_of_further.
Qed.

Lemma filter_nil_inv {A} (P : A -> Prop) `{forall x, Decision (P x)} (l : list A) :
  length (filter P l) = 0 -> forall x, x ∈ l -> ~ P x.
Proof.
  induction l as [|a l IH]; intros Hlen x Hx; [by apply elem_of_nil in Hx|].
  destruct (decide (P a)) as [Ha|Ha].
  - rewrite filter_cons_True in Hlen by done. discriminate Hlen.
  - rewrite filter_cons_False in Hlen by done.
    apply elem_of_cons in Hx as [->|Hx]; [done|]. by apply IH.
Qed.

(** X18.  A second run of the reconciler picks up what the first left.
    The store lists every key and the four reads of each run succeed; the
    store may answer the removals of the second run otherwise than those
    of the first.  After the first run an object is stored when it was
    stored and is referenced, or its removal failed; after the second, when
    it was stored after the first and is referenced, or its removal failed
    again.  The second run returns 0 exactly when every object the first
    left is referenced or is refused again (so, when no removal of the
    first run failed, or when the store answers as it did), and then it
    leaves both buckets as they are; no run touches a row. *)
Theorem cleanup_twice (env env2 : Env) (w : World) :
  lists_all env -> lists_all env2 ->
  reads_succeed env -> reads_succeed env2 ->
  exists n w1 m w2,
    cleanupOrphanedFiles env w = (Ret n, w1) /\
    (forall b k,
       stored b k w1 <->
       stored b k w /\ (referenced w k \/ fails env (StorageRemove b k) = true)) /\
    cleanupOrphanedFiles env2 w1 = (Ret m, w2) /\
    same_rows w w2 /\
    (forall b k,
       stored b k w2 <->
       stored b k w1 /\ (referenced w k \/ fails env2 (StorageRemove b k) = true)) /\
    (m = 0 <->
     forall b k, stored b k w1 ->
       referenced w k \/ fails env2 (StorageRemove b k) = true) /\
    (m = 0 -> images w2 = images w1 /\ thumbnails w2 = thumbnails w1).
Proof.
  intros Hall Hall2 (Hli & Hlt & Hqt & Hqp) (Hli2 & Hlt2 & Hqt2 & Hqp2).
  destruct (cleanup_run env w Hli Hlt Hqt Hqp) as (w1 & Hrun1 & Hrows1 & Hobj1).
  destruct (cleanup_run env2 w1 Hli2 Hlt2 Hqt2 Hqp2) as (w2 & Hrun2 & Hrows2 & Hobj2).
  rewrite (valid_paths_same_rows _ _ Hrows1) in Hrun2, Hobj2.
  assert (forall (e : Env) (v v' : World),
            lists_all e ->
            (forall b k, objects b v' !! k =
               if decide (k ∈ keys e b v /\ removed_by_sweep e b (valid_paths w) k)
               then None else objects b v !! k) ->
            forall b k,
              stored b k v' <->
              stored b k v /\ (referenced w k \/ fails e (StorageRemove b k) = true))
    as Hkept.
  { intros e v v' He Hobj b k. unfold stored. rewrite Hobj. unfold removed_by_sweep.
    rewrite <- elem_of_valid_paths.
    destruct (decide _) as [(Hin & Hnv & Hf)|Hn].
    - split; [by intros [? ?]|]. intros [_ [?|?]]; [done|congruence].
    - split.
      + intros Hs. split; [done|].
        destruct (decide (k ∈ valid_paths w)) as [|Hnv]; [by left|]. right.
        destruct (fails e (StorageRemove b k)) eqn:Hf; [done|].
        exfalso. apply Hn. split; [|done]. by apply (listed_stored e b k v He).
      + by intros [? _]. }
  pose proof (Hkept env w w1 Hall Hobj1) as Hkept1.
  pose proof (Hkept env2 w1 w2 Hall2 Hobj2) as Hkept2.
  set (m := length (filter (removed_by_sweep env2 IMAGES_BUCKET (valid_paths w))
                      (keys env2 IMAGES_BUCKET w1))
            + length (filter (removed_by_sweep env2 THUMBNAILS_BUCKET (valid_paths w))
                        (keys env2 THUMBNAILS_BUCKET w1))) in *.
  assert (m = 0 <->
          forall b k, k ∈ keys env2 b w1 -> ~ removed_by_sweep env2 b (valid_paths w) k)
    as Hzero.
  { split.
    - intros Hm b k Hin.
      assert (length (filter (removed_by_sweep env2 b (valid_paths w)) (keys env2 b w1)) = 0)
        as Hb by (subst m; destruct b; lia).
      exact (filter_nil_inv _ _ Hb k Hin).
    - intros Hnone. subst m. rewrite !filter_none by (intros k Hin; by apply Hnone).
      reflexivity. }
  eexists _, w1, m, w2. split; [exact Hrun1|]. split; [exact Hkept1|].
  split; [exact Hrun2|].
  split; [unfold same_rows in *; intuition congruence|].
  split; [exact Hkept2|]. split.
  - rewrite Hzero. split.
    + intros Hnone b k Hs.
      destruct (decide (k ∈ valid_paths w)) as [Hv|Hnv];
        [left; by apply elem_of_valid_paths|]. right.
      destruct (fails env2 (StorageRemove b k)) eqn:Hf; [done|].
      exfalso. apply (Hnone b k); [by apply (listed_stored env2 b k w1 Hall2)|done].
    + intros Hcond b k Hin [Hnv Hf].
      apply (listed_stored env2 b k w1 Hall2), Hcond in Hin as [Hr|Hf']; [|congruence].
      by apply Hnv, elem_of_valid_paths.
  - intros Hm. pose proof (proj1 Hzero Hm) as Hnone.
    assert (forall b, objects b w2 = objects b w1) as Hsame.
    { intros b. apply map_eq. intros k. rewrite Hobj2.
      destruct (decide _) as [[Hin Hrm]|]; [|done]. by apply Hnone in Hrm. }
    split; [apply (Hsame IMAGES_BUCKET)|apply (Hsame THUMBNAILS_BUCKET)].
Qed.

Lemma cleanup_twice_witness :
  exists n w1 m w2,
    cleanupOrphanedFiles (Node.env Sample.images_stuck true) Sample.world_abc = (Ret n, w1) /\
    stored IMAGES_BUCKET "B.jpg" w1 /\
    cleanupOrphanedFiles (Node.env Sample.no_faults true) w1 = (Ret m, w2) /\
    m <> 0 /\
    ~ stored IMAGES_BUCKET "B.jpg" w2 /\ stored IMAGES_BUCKET "A.jpg" w2.
Proof.
  destruct (cleanup_twice (Node.env Sample.images_stuck true)
              (Node.env Sample.no_faults true) Sample.world_abc)
    as (n & w1 & m & w2 & Hrun1 & Hkept1 & Hrun2 & _ & Hkept2 & Hzero & _).
  { intros b names. reflexivity. }
  { intros b names. reflexivity. }
  { repeat split. }
  { repeat split. }
  assert (bool_decide ("A.jpg" ∈ valid_paths Sample.world_abc) = true) as HA
    by (vm_compute; reflexivity).
  assert (bool_decide ("B.jpg" ∈ valid_paths Sample.world_abc) = false) as HB
    by (vm_compute; reflexivity).
  apply bool_decide_eq_true in HA. apply bool_decide_eq_false in HB.
  rewrite elem_of_valid_paths in HA, HB.
  assert (stored IMAGES_BUCKET "B.jpg" w1) as HB1.
  { apply (proj2 (Hkept1 IMAGES_BUCKET "B.jpg")).
    split; [vm_compute; eauto|]. right. reflexivity. }
  assert (stored IMAGES_BUCKET "A.jpg" w1) as HA1.
  { apply (proj2 (Hkept1 IMAGES_BUCKET "A.jpg")).
    split; [vm_compute; eauto|]. left. exact HA. }
  exists n, w1, m, w2. split; [exact Hrun1|]. split; [exact HB1|].
  split; [exact Hrun2|]. split.
  { intros Hm. destruct (proj1 Hzero Hm IMAGES_BUCKET "B.jpg" HB1) as [Hr|Hf];
      [exact (HB Hr)|discriminate Hf]. }
  split.
  { intros Hs. destruct (proj1 (Hkept2 IMAGES_BUCKET "B.jpg") Hs) as [_ [Hr|Hf]];
      [exact (HB Hr)|discriminate Hf]. }
  apply (proj2 (Hkept2 IMAGES_BUCKET "A.jpg")). split; [exact HA1|]. left. exact HA.
Defined.

(** ** The NSFW flag, from the request to the row *)

Lemma validateThread_status (has_file : bool) (body : ThreadBody) (res : response) :
  validateThread has_file body = inl res -> status res = 400.
Proof.
  unfold validateThread. destruct (thread_schema body); [by intros [= <-]|].
  destruct (_ && _); [by intros [= <-]|done].
Qed.

Lemma validateThread_flag (has_file : bool) (body : ThreadBody) (value : ThreadValue) :
  validateThread has_file body = inr value ->
  plain_flag (is_nsfw body) -> v_is_nsfw value = nsfw_requested (is_nsfw body).
Proof.
  unfold validateThread, thread_schema.
  destruct (Joi.string_ "subject" _ _); [done|].
  destruct (Joi.string_ "comment" _ _); [done|].
  destruct (Joi.string_ "name" _ _); [done|].
  destruct (Joi.string_ "password" _ _); [done|].
  destruct (Joi.boolean_ "is_nsfw" _) as [e|flag] eqn:Hflag; [done|].
  destruct (_ && _); [done|]. intros [= <-] Hplain. cbn [v_is_nsfw].
  unfold plain_flag in Hplain.
  repeat (apply elem_of_cons in Hplain as [Heq|Hplain];
          [rewrite Heq in Hflag |- *; simpl in Hflag; simpl; congruence|]).
  by apply elem_of_nil in Hplain.
Qed.

(** When the row is not taken, [createThread] answers 500. *)
Lemma createThread_refused (env : Env) (body : ThreadValue)
    (fileData : option UploadedFile) (w : World) :
  fails env (DbInsert THREADS (uuidv4 env (rng w)))
  || bool_decide (is_Some (threads w !! uuidv4 env (rng w))) = true ->
  exists w',
    createThread env body fileData w =
      (Ret (mkResponse 500 (ErrorMessage "Failed to create thread")), w').
Proof.
  intros Hfail.
  unfold createThread, try_catch, bind, fresh_uuid, db_insert_thread.
  destruct fileData as [r|]; cbn [t_id threads tick]; rewrite Hfail;
    unfold throw, console_error; lazy beta iota zeta.
  - destruct (Js.truthy (Some (storagePath r))); [|by eexists].
    set (w1 := emit _ (emit _ _)).
    destruct (deleteFile_effect env (Some (storagePath r)) (thumbnailPath r) w1)
      as (res & w' & -> & _). by eexists.
  - by eexists.
Qed.

Lemma createThread_inserted (env : Env) (body : ThreadValue)
    (fileData : option UploadedFile) (w w' : World) (msg : string) (row : Thread) :
  createThread env body fileData w = (Ret (mkResponse 201 (Created msg row)), w') ->
  t_storage_path row = storagePath <$> fileData /\
  t_is_nsfw row = v_is_nsfw body /\
  images w' = images w /\ thumbnails w' = thumbnails w.
Proof.
  intros Hrun.
  destruct (fails env (DbInsert THREADS (uuidv4 env (rng w)))
            || bool_decide (is_Some (threads w !! uuidv4 env (rng w)))) eqn:Hfail.
  { destruct (createThread_refused env body fileData w Hfail) as (w0 & H).
    rewrite H in Hrun. discriminate Hrun. }
  apply orb_false_iff in Hfail as [Hf Hfree].
  apply bool_decide_eq_false in Hfree. apply eq_None_not_Some in Hfree.
  destruct (createThread_created env body fileData w Hf Hfree)
    as (row' & w1 & H & _ & _ & Hn & _ & Hs & _ & _ & _ & Hi & Ht & _).
  rewrite H in Hrun. injection Hrun as _ <- <-. done.
Qed.

(** X19.  The row and the key agree on the NSFW flag.  When
    [POST /thread] with a file answers 201, the [storage_path] of the row
    is the key the upload made from the flag that [processUpload] read off
    the raw body, the original is stored under it, and, for a flag that is
    absent, a boolean or one of the strings [true] and [false], the
    [is_nsfw] of the row is that same flag: the row is marked NSFW exactly
    when the key is under [nsfw/]. *)
Theorem nsfw_flag_and_prefix (env : Env) (file : File) (body : ThreadBody)
    (w w' : World) (msg : string) (row : Thread) :
  post_thread env (Some file) body w = (Ret (mkResponse 201 (Created msg row)), w') ->
  let key := upload_key env file (nsfw_requested (is_nsfw body)) w in
  t_storage_path row = Some key /\
  stored IMAGES_BUCKET key w' /\
  (plain_flag (is_nsfw body) -> t_is_nsfw row = nsfw_requested (is_nsfw body)).
Proof.
  intros Hrun key. unfold post_thread, bind in Hrun.
  destruct (uploadFile env (Some file) (nsfw_requested (is_nsfw body)) w)
    as [[[r|]|e] w1] eqn:Hup.
  - rewrite (processUpload_uploaded _ _ _ _ _ _ Hup) in Hrun.
    change (bool_decide (is_Some (Some file))) with true in Hrun.
    destruct (validateThread true body) as [res|value] eqn:Hv.
    { apply validateThread_status in Hv. injection Hrun as -> _. discriminate Hv. }
    apply createThread_inserted in Hrun as (Hs & Hn & Hi & _).
    destruct (uploadFile_done _ _ _ _ _ _ Hup) as (Hkey & _ & Hst & _).
    change (t_storage_path row = Some (storagePath r)) in Hs.
    fold key in Hkey. rewrite Hkey in Hs, Hst.
    split; [done|]. split; [unfold stored in *; cbn [objects] in *; by rewrite Hi|].
    intros Hplain. rewrite Hn. by apply (validateThread_flag true).
  - unfold processUpload, bind in Hrun.
    change (match is_nsfw body with
            | JString s => String.eqb s "true"
            | JBool b => b
            | _ => false
            end) with (nsfw_requested (is_nsfw body)) in Hrun.
    rewrite Hup in Hrun. discriminate Hrun.
  - unfold processUpload, bind in Hrun.
    change (match is_nsfw body with
            | JString s => String.eqb s "true"
            | JBool b => b
            | _ => false
            end) with (nsfw_requested (is_nsfw body)) in Hrun.
    rewrite Hup in Hrun. discriminate Hrun.
Qed.

(** The flag in upper case: the row says NSFW, the key has no prefix. *)
Example nsfw_flag_upper_case :
  match post_thread (Node.env Sample.no_faults true) (Some Sample.cat_jpeg)
          Fixture.shouted_body Sample.empty_world with
  | (Ret (mkResponse 201 (Created _ row)), w') =>
      t_is_nsfw row = true /\
      t_storage_path row = Some "6f1c2a9e-5b7d-4c3a-9e21-000000000000.jpg" /\
      keys (Node.env Sample.no_faults true) IMAGES_BUCKET w'
        = ["6f1c2a9e-5b7d-4c3a-9e21-000000000000.jpg"]
  | _ => False
  end.
Proof. vm_compute. by repeat split. Qed.

Lemma nsfw_flag_and_prefix_witness :
  exists row w',
    post_thread (Node.env Sample.no_faults true) (Some Sample.cat_jpeg)
      Sample.nsfw_thread_body Sample.empty_world
      = (Ret (mkResponse 201 (Created "Thread created successfully" row)), w') /\
    t_is_nsfw row = true /\
    t_storage_path row = Some "nsfw/6f1c2a9e-5b7d-4c3a-9e21-000000000000.jpg".
Proof.
  destruct (post_thread (Node.env Sample.no_faults true) (Some Sample.cat_jpeg)
              Sample.nsfw_thread_body Sample.empty_world) as [o w'] eqn:Hrun.
  assert (exists row, o = Ret (mkResponse 201 (Created "Thread created successfully" row)))
    as [row ->].
  { vm_compute in Hrun. injection Hrun as <- _. eexists. reflexivity. }
  destruct (nsfw_flag_and_prefix _ _ _ _ _ _ _ Hrun) as (Hs & _ & Hn).
  exists row, w'. split; [reflexivity|]. split; [|exact Hs].
  apply Hn. unfold plain_flag. simpl.
  do 3 apply list_elem_of_further. apply list_elem_of_here.
Defined.

(** ** What multer is configured with *)

(** A completed upload of an image has asked sharp for the resize. *)
Lemma uploadFile_resizes (env : Env) (file : File) (isNsfw : bool) (w w' : World)
    (r : UploadedFile) :
  uploadFile env (Some file) isNsfw w = (Ret (Some r), w') ->
  is_image file = true ->
  exists ok, Called (SharpResize 200) ok ∈ trace w' /\
             (ok = false -> thumbnailPath r = None).
Proof.
  intros Hrun Hi.
  destruct (file_bytes env file) as [buf|] eqn:Hb.
  2:{ rewrite (uploadFile_unreadable _ _ _ _ Hb) in Hrun. discriminate. }
  set (key := upload_key env file isNsfw w).
  destruct (upload_refused env IMAGES_BUCKET key (mimetype file) w) eqn:Hr.
  { rewrite (uploadFile_original_refused _ _ _ _ _ Hb Hr) in Hrun. discriminate. }
  destruct (sharp_resize env 200 buf) as [thumb|] eqn:Hs.
  2:{ rewrite (uploadFile_sharp_fails _ _ _ _ _ Hb Hr Hi Hs) in Hrun.
      injection Hrun as <- <-. exists false. simpl.
      split; [|done]. rewrite <- ?app_assoc. apply elem_of_app. right. simpl. in_events. }
  destruct (upload_refused env THUMBNAILS_BUCKET key "image/jpeg" w) eqn:Ht.
  - rewrite (uploadFile_thumbnail_refused _ _ _ _ _ _ Hb Hr Hi Hs Ht) in Hrun.
    injection Hrun as <- <-. exists true. simpl.
    split; [|done]. rewrite <- ?app_assoc. apply elem_of_app. right. simpl. in_events.
  - rewrite (uploadFile_complete _ _ _ _ _ _ Hb Hr Hi Hs Ht) in Hrun.
    injection Hrun as <- <-. exists true. simpl.
    split; [|done]. rewrite <- ?app_assoc. apply elem_of_app. right. simpl. in_events.
Qed.

(** The double of a safe integer is the integer. *)
Lemma to_double_safe (z : Z) : Str.safe z = true -> Str.to_double z = Str.Finite z.
Proof.
  intros [Hlo Hhi]%safe_bounds. unfold Str.to_double, Str.MAX_SAFE_INTEGER in *.
  destruct (Z.ltb_spec (Z.abs z) (2 ^ 53)) as [|Hge]; [reflexivity|]. lia.
Qed.

(** The double of a positive integer is positive, or the positive infinity. *)
Lemma to_double_positive (z : Z) :
  (1 <= z)%Z ->
  match Str.to_double z with
  | Str.Finite v => (1 <= v)%Z
  | Str.Infinity negative => negative = false
  end.
Proof.
  intros Hz. unfold Str.to_double. rewrite (Z.abs_eq z) by lia.
  destruct (Z.ltb_spec z (2 ^ 53)) as [|Hbig]; [done|].
  destruct (Z.ltb_spec z 0) as [|_]; [lia|].
  set (e := (Z.log2 z - 52)%Z).
  assert (53 <= Z.log2 z)%Z as Hlog.
  { change 53%Z with (Z.log2 (2 ^ 53)). by apply Z.log2_le_mono. }
  assert (1 <= e)%Z as He by (subst e; lia).
  assert (2 ^ e <= z)%Z as Hpow.
  { transitivity (2 ^ Z.log2 z)%Z.
    - apply Z.pow_le_mono_r; subst e; lia.
    - apply Z.log2_spec. lia. }
  assert (0 < 2 ^ e)%Z as Hpos by (apply Z.pow_pos_nonneg; lia).
  set (q := Z.shiftr z e).
  assert (1 <= q)%Z as Hq.
  { subst q. rewrite Z.shiftr_div_pow2 by lia.
    apply Z.div_le_lower_bound; lia. }
  match goal with |- context [Z.shiftl ?x e] => set (q' := x) end.
  assert (1 <= q')%Z as Hq' by (subst q'; destruct (_ || _); lia).
  destruct (Z.leb_spec (2 ^ 1024) (Z.shiftl q' e)); [reflexivity|].
  rewrite Z.shiftl_mul_pow2 by lia. nia.
Qed.

(** X20.  With [ALLOWED_FILE_TYPES] unset or empty, the filter of the
    upload middleware lets a file through exactly when its type is one of
    [image/jpeg], [image/png], [image/gif] and [image/webp].  Each is an
    image type for the pipeline, so every completed upload of a file it
    lets through has asked sharp for the 200-pixel resize, and has no
    thumbnail when the resize failed.  The size limit handed to multer is
    the double of the integer that [MAX_FILE_SIZE] spells: that integer
    when it is safe and not zero, at least 1 or the positive infinity when
    the variable holds no minus sign, and the default, 5 MiB, when the
    variable is unset, spells no number or spells zero. *)
Theorem default_filter_images_only (env : Env) (ALLOWED_FILE_TYPES : option string)
    (file : File) :
  Js.truthy ALLOWED_FILE_TYPES = false ->
  (fileFilter ALLOWED_FILE_TYPES file = true <-> mimetype file ∈ default_types) /\
  (fileFilter ALLOWED_FILE_TYPES file = true ->
   is_image file = true /\
   forall isNsfw w r w',
     uploadFile env (Some file) isNsfw w = (Ret (Some r), w') ->
     exists ok, Called (SharpResize 200) ok ∈ trace w' /\
                (ok = false -> thumbnailPath r = None)) /\
  (forall MAX_FILE_SIZE,
     (unsigned MAX_FILE_SIZE ->
      match fileSize_limit MAX_FILE_SIZE with
      | Str.Finite z => (1 <= z)%Z
      | Str.Infinity negative => negative = false
      end) /\
     (forall z, Str.parseInt MAX_FILE_SIZE = Str.Int z -> Str.safe z = true ->
        fileSize_limit MAX_FILE_SIZE =
          Str.Finite (if (z =? 0)%Z then 5 * 1024 * 1024 else z)) /\
     (Str.parseInt MAX_FILE_SIZE = Str.NaN ->
        fileSize_limit MAX_FILE_SIZE = Str.Finite (5 * 1024 * 1024))).
Proof.
  intros Hunset.
  assert (fileFilter ALLOWED_FILE_TYPES file = Str.includes (mimetype file) default_types)
    as Hfilter.
  { unfold fileFilter, Js.or_else. by rewrite Hunset. }
  assert (Str.includes (mimetype file) default_types = true <->
          mimetype file ∈ default_types) as Hiff.
  { unfold Str.includes, default_types. cbn [existsb]. split.
    - intros Hok.
      repeat (apply orb_true_iff in Hok as [Hok|Hok];
              [apply String.eqb_eq in Hok as ->;
               repeat first [apply list_elem_of_here | apply list_elem_of_further]|]).
      discriminate Hok.
    - intros Hin.
      repeat (apply elem_of_cons in Hin as [->|Hin]; [reflexivity|]).
      by apply elem_of_nil in Hin. }
  split; [by rewrite Hfilter|]. split.
  - intros Hok. rewrite Hfilter in Hok. apply Hiff in Hok as Hin.
    assert (is_image file = true) as Himg.
    { unfold is_image, default_types in *.
      repeat (apply elem_of_cons in Hin as [->|Hin]; [reflexivity|]).
      by apply elem_of_nil in Hin. }
    split; [done|]. intros isNsfw w r w' Hrun. by eapply uploadFile_resizes.
  - intros cfg. unfold fileSize_limit. split; [|split].
    + intros Hu. destruct (Str.parseInt cfg) as [|z] eqn:Hp; [done|].
      apply parseInt_unsigned in Hp; [|done].
      destruct (Z.eqb_spec z 0) as [->|Hz]; [done|].
      pose proof (to_double_positive z) as Hd.
      destruct (Str.to_double z) as [[|v|v]|[]]; try done; lia.
    + intros z -> Hs. rewrite (to_double_safe z Hs). by destruct z.
    + by intros ->.
Qed.

Lemma default_filter_images_only_witness :
  fileFilter None Sample.cat_jpeg = true /\
  fileFilter None Sample.notes_txt = false /\
  fileSize_limit (Some "9007199254740993") = Str.Finite 9007199254740992 /\
  exists r w' ok,
    uploadFile (Node.env Sample.no_faults true) (Some Sample.cat_jpeg) false
      Sample.empty_world = (Ret (Some r), w') /\
    Called (SharpResize 200) ok ∈ trace w'.
Proof.
  destruct (default_filter_images_only (Node.env Sample.no_faults true) None Sample.cat_jpeg)
    as (Hiff & Hres & _); [reflexivity|].
  assert (fileFilter None Sample.cat_jpeg = true) as Hok.
  { apply Hiff. apply list_elem_of_here. }
  split; [exact Hok|]. split; [reflexivity|]. split; [vm_compute; reflexivity|].
  destruct (Hres Hok) as [_ Hresize].
  destruct (uploadFile (Node.env Sample.no_faults true) (Some Sample.cat_jpeg) false
              Sample.empty_world) as [o w'] eqn:Hrun.
  assert (exists r, o = Ret (Some r)) as [r ->].
  { vm_compute in Hrun. injection Hrun as <- _. eexists. reflexivity. }
  destruct (Hresize false Sample.empty_world r w' Hrun) as (ok & Hok' & _).
  exists r, w', ok. split; [reflexivity|exact Hok'].
Defined.

(** ** Earlier lemmas, on concrete inputs *)

Lemma upload_then_delete_witness :
  exists r w1 w2,
    uploadFile (Node.env Sample.no_faults true) (Some Sample.cat_jpeg) false
      Sample.empty_world = (Ret (Some r), w1) /\
    stored THUMBNAILS_BUCKET (storagePath r) w1 /\
    deleteFile (Node.env Sample.no_faults true) (Some (storagePath r)) (thumbnailPath r) w1
      = (Ret true, w2) /\
    ~ stored IMAGES_BUCKET (storagePath r) w2 /\
    ~ stored THUMBNAILS_BUCKET (storagePath r) w2.
Proof.
  set (env := Node.env Sample.no_faults true).
  destruct (uploadFile env (Some Sample.cat_jpeg) false Sample.empty_world)
    as [o w1] eqn:Hup.
  assert (exists r, o = Ret (Some r) /\
            storagePath r = "6f1c2a9e-5b7d-4c3a-9e21-000000000000.jpg" /\
            thumbnailPath r =
              Some ("https://darkchan.supabase.co/storage/v1/object/public/"
                    ++ "board-thumbnails/6f1c2a9e-5b7d-4c3a-9e21-000000000000.jpg"))
    as (r & -> & Hkey & Hurl).
  { vm_compute in Hup. injection Hup as <- _. eexists. split; [reflexivity|]. by split. }
  destruct (uploadFile_done _ _ _ _ _ _ Hup) as (_ & _ & _ & _ & _ & _ & _ & Hthumb & _).
  destruct (Hthumb _ Hurl) as [_ Hst].
  destruct (upload_then_delete env Sample.cat_jpeg false Sample.empty_world w1 r Hup)
    as (w2 & Hdel & Hgone & Hgone' & _).
  - rewrite Hkey. reflexivity.
  - reflexivity.
  - reflexivity.
  - intros url Hu. rewrite Hurl in Hu. injection Hu as <-. rewrite Hkey.
    split; vm_compute; reflexivity.
  - exists r, w1, w2. split; [reflexivity|]. split; [exact Hst|]. split; [exact Hdel|].
    split; [exact Hgone|]. apply Hgone'. rewrite Hurl. eexists. reflexivity.
Defined.

Lemma cleanup_read_failure_witness :
  exists w',
    cleanupOrphanedFiles (Node.env listing_fails true) Sample.world_abc
      = (Ret 0, w') /\
    images w' = images Sample.world_abc /\ thumbnails w' = thumbnails Sample.world_abc.
Proof.
  destruct (cleanup_read_failure (Node.env listing_fails true) Sample.world_abc)
    as (evs & Hrun & _); [by left|].
  eexists. split; [exact Hrun|]. by rewrite emits_images, emits_thumbnails.
Defined.

Lemma post_thread_comment_only_witness :
  exists row w',
    post_thread (Node.env Sample.no_faults true) None (body_with_comment (JString "hello"))
      Sample.empty_world
      = (Ret (mkResponse 201 (Created "Thread created successfully" row)), w') /\
    t_comment row = Some "hello" /\ t_storage_path row = None /\ images w' = ∅.
Proof.
  destruct (post_thread_comment_only (Node.env Sample.no_faults true)
              (body_with_comment (JString "hello"))
              {| v_subject := None; v_comment := Some "hello"; v_name := "Anonymous";
                 v_password := None; v_is_nsfw := false |} Sample.empty_world)
    as (row & w' & Hrun & _ & Hc & _ & _ & _ & _ & _ & Hs & _ & Hi & _); try reflexivity.
  exists row, w'. split; [exact Hrun|]. split; [exact Hc|]. split; [exact Hs|exact Hi].
Defined.

(** ** The password of a deletion *)

(** X21.  The check the handlers make themselves is the one of
    [validateDelete], which no route uses: for a password that is a string
    or is absent, [validateDelete] rejects the body, with status 400,
    exactly when [deleteThread] answers 400, that is for an absent and for
    an empty password. *)
Theorem validateDelete_agrees (env : Env) (id : string) (password : option string)
    (w : World) :
  (exists res, validateDelete (password_value password) = inl res /\ status res = 400)
  <-> deleteThread_status env id password w = 400.
Proof.
  unfold validateDelete, deleteThread_status, password_value, Joi.string_.
  destruct password as [s|]; cbn [Js.truthy negb Joi.required Joi.allow_empty_null
                                  Joi.min Joi.max].
  - destruct (String.eqb s ""); cbn [negb].
    + split; [done|]. intros _. by eexists.
    + split; [by intros (res & [=] & _)|].
      destruct (fails env _); [done|]. destruct (threads w !! id) as [thread|]; [|done].
      destruct (_ || _); [done|]. by destruct (fails env _).
  - split; [done|]. intros _. by eexists.
Qed.

(** ** A failed upload *)

(** X22.  A failed upload ends the request before the body is
    looked at.  When the bytes of the file cannot be read, or the image
    bucket refuses the original, [POST /thread] and [POST /thread/:id/reply]
    answer 500, whatever the body holds, and no object and no row is
    written. *)
Theorem failed_upload_stops_request (env : Env) (file : File) (w : World) :
  (forall body,
     file_bytes env file = None
     \/ upload_refused env IMAGES_BUCKET
          (upload_key env file (nsfw_requested (is_nsfw body)) w) (mimetype file) w = true ->
     exists w',
       post_thread env (Some file) body w =
         (Ret (mkResponse 500 (ErrorMessage "Failed to upload file")), w') /\
       nothing_removed w w') /\
  (forall guid threadId body,
     file_bytes env file = None
     \/ upload_refused env IMAGES_BUCKET
          (upload_key env file (nsfw_requested (b_is_nsfw body)) w) (mimetype file) w = true ->
     exists w',
       reply_route env guid threadId (Some file) body w =
         (Ret (inr (mkResponse 500 (ErrorMessage "Failed to upload file"))), w') /\
       nothing_removed w w').
Proof.
  assert (forall flag,
            file_bytes env file = None
            \/ upload_refused env IMAGES_BUCKET
                 (upload_key env file (nsfw_requested flag) w) (mimetype file) w = true ->
            exists w',
              processUpload env (Some file) flag w =
                (Ret (inl (mkResponse 500 (ErrorMessage "Failed to upload file"))), w') /\
              nothing_removed w w') as Hup.
  { intros flag Hfail. unfold processUpload, bind.
    change (match flag with
            | JString s => String.eqb s "true"
            | JBool b => b
            | _ => false
            end) with (nsfw_requested flag).
    destruct (file_bytes env file) as [buf|] eqn:Hb.
    - destruct Hfail as [?|Hr]; [done|].
      rewrite (uploadFile_original_refused _ _ _ _ _ Hb Hr).
      eexists. split; [reflexivity|]. done.
    - rewrite (uploadFile_unreadable _ _ _ _ Hb).
      eexists. split; [reflexivity|]. done. }
  split.
  - intros body Hfail. destruct (Hup _ Hfail) as (w' & Hrun & Hsame).
    exists w'. split; [|done]. unfold post_thread, bind. by rewrite Hrun.
  - intros guid threadId body Hfail. destruct (Hup _ Hfail) as (w' & Hrun & Hsame).
    exists w'. split; [|done]. unfold reply_route, bind. by rewrite Hrun.
Qed.

Lemma failed_upload_stops_request_witness :
  exists w',
    post_thread (Node.env Sample.images_down true) (Some Sample.cat_jpeg)
      Sample.nsfw_thread_body Sample.empty_world
      = (Ret (mkResponse 500 (ErrorMessage "Failed to upload file")), w') /\
    images w' = ∅ /\ threads w' = ∅.
Proof.
  destruct (failed_upload_stops_request (Node.env Sample.images_down true)
              Sample.cat_jpeg Sample.empty_world) as [H _].
  destruct (H Sample.nsfw_thread_body) as (w' & Hrun & Hi & _ & Ht & _); [by right|].
  exists w'. split; [exact Hrun|]. split; [exact Hi|exact Ht].
Defined.

(** ** A reply, then its deletion *)

(** The row [replyToThread] inserts, when the thread exists and the store
    takes the row. *)
Lemma replyToThread_created (env : Env) (threadId : string) (body : PostValue)
    (fileData : option UploadedFile) (w : World) :
  let id := uuidv4 env (rng w) in
  fails env (DbSelectSingle THREADS threadId) = false ->
  is_Some (threads w !! threadId) ->
  fails env (DbInsert POSTS id) = false ->
  posts w !! id = None ->
  exists row w1,
    replyToThread env threadId body fileData w =
      (Ret (mkResponse 201 (Replied "Reply posted successfully" row)), w1) /\
    p_id row = id /\ p_thread_id row = threadId /\
    p_tripcode row = generateTripcode env (r_password body) /\
    p_storage_path row = storagePath <$> fileData /\
    p_file_path row = filePath <$> fileData /\
    p_thumbnail_path row = fileData ≫= thumbnailPath /\
    posts w1 = <[id := row]> (posts w) /\ threads w1 = threads w /\
    images w1 = images w /\ thumbnails w1 = thumbnails w.
Proof.
  intros id Hfs [thread Hrow] Hfi Hfree.
  unfold replyToThread, try_catch, bind, db_single_thread, fresh_uuid, db_insert_post,
    db_bump_thread.
  rewrite Hfs, Hrow.
  destruct fileData as [r|]; cbn [p_id posts tick emit rng]; fold id;
    rewrite Hfi, Hfree; cbn [orb bool_decide];
    (destruct (fails env (DbUpdateBump threadId));
     (eexists _, _; split; [reflexivity|]); cbn;
     (split_and!; try done);
     unfold generateTripcode; by destruct (Js.truthy (r_password body))).
Qed.

(** X23.  A reply posted under a password can be deleted with
    that password.  When the thread exists and the store takes the row,
    [replyToThread] answers 201 with a post of that thread, whether or not
    the update of [bumped_at] goes through; [deletePost] with the same
    password then answers 200, the table of posts is what it was before
    the reply, and the counts of the thread have been moved by the stored
    procedure, the image count by -1 exactly when the reply carried a
    file. *)
Theorem reply_then_deletePost (env : Env) (threadId : string) (body : PostValue)
    (fileData : option UploadedFile) (w : World) (p : string) :
  r_password body = Some p ->
  Js.truthy (generateTripcode env (Some p)) = true ->
  let id := uuidv4 env (rng w) in
  fails env (DbSelectSingle THREADS threadId) = false ->
  is_Some (threads w !! threadId) ->
  fails env (DbInsert POSTS id) = false ->
  posts w !! id = None ->
  fails env (DbSelectSingle POSTS id) = false ->
  fails env (DbDelete POSTS id) = false ->
  exists row w1 w2,
    replyToThread env threadId body fileData w =
      (Ret (mkResponse 201 (Replied "Reply posted successfully" row)), w1) /\
    posts w1 = <[id := row]> (posts w) /\ p_thread_id row = threadId /\
    deletePost env id (Some p) w1 =
      (Ret (mkResponse 200 (Message "Post deleted successfully")), w2) /\
    posts w2 = posts w /\
    threads w2 =
      (if fails env (DbRpc "update_thread_counts" threadId) then threads w
       else alter (update_thread_counts env
                     (if Js.truthy (filePath <$> fileData) then (-1)%Z else 0%Z) (-1)%Z)
                  threadId (threads w)).
Proof.
  intros Hpw Htrip id Hfs Hthread Hfi Hfree Hfsp Hfd.
  destruct (replyToThread_created env threadId body fileData w Hfs Hthread Hfi Hfree)
    as (row & w1 & Hrun & Hid & Htid & Htc & _ & Hfp & _ & Hps & Hth & _).
  fold id in Hid, Hps. rewrite Hpw in Htc.
  assert (posts w1 !! id = Some row) as Hrow by (rewrite Hps; apply lookup_insert_eq).
  assert (Js.truthy (Some p) = true) as Hp.
  { unfold generateTripcode in Htrip. by destruct (Js.truthy (Some p)). }
  destruct (deletePost_deleted env id (Some p) w1 row Hrow Hp)
    as (w2 & Hdel & Hps2 & Hth2 & _); try done.
  { by rewrite Htc. }
  { rewrite Htc. unfold verifyTripcode. by apply bool_decide_eq_true. }
  exists row, w1, w2. split; [done|]. split; [done|]. split; [done|]. split; [done|].
  split.
  - rewrite Hps2, Hps. by apply delete_insert_id.
  - rewrite Hth2. unfold threads_after_deletePost. by rewrite Htid, Hth, Hfp.
Qed.

Lemma reply_then_deletePost_witness :
  exists row w1 w2,
    replyToThread (Node.env Sample.no_faults true) "thread-1" Sample.nsfw_reply None
      Sample.world_abc
      = (Ret (mkResponse 201 (Replied "Reply posted successfully" row)), w1) /\
    deletePost (Node.env Sample.no_faults true) "6f1c2a9e-5b7d-4c3a-9e21-000000000000"
      (Some "replypass") w1
      = (Ret (mkResponse 200 (Message "Post deleted successfully")), w2) /\
    posts w2 = ∅.
Proof.
  destruct (reply_then_deletePost (Node.env Sample.no_faults true) "thread-1"
              Sample.nsfw_reply None Sample.world_abc "replypass")
    as (row & w1 & w2 & Hrun & _ & _ & Hdel & Hps & _); try reflexivity.
  - vm_compute. eauto.
  - exists row, w1, w2. split; [exact Hrun|]. split; [exact Hdel|exact Hps].
Defined.

(** ** The reconciler and the files of a thread *)

Lemma createThread_inserted_row (env : Env) (body : ThreadValue)
    (fileData : option UploadedFile) (w w' : World) (msg : string) (row : Thread) :
  createThread env body fileData w = (Ret (mkResponse 201 (Created msg row)), w') ->
  threads w' !! t_id row = Some row /\
  t_storage_path row = storagePath <$> fileData /\
  t_thumbnail_path row = fileData ≫= thumbnailPath /\
  images w' = images w /\ thumbnails w' = thumbnails w.
Proof.
  intros Hrun.
  destruct (fails env (DbInsert THREADS (uuidv4 env (rng w)))
            || bool_decide (is_Some (threads w !! uuidv4 env (rng w)))) eqn:Hfail.
  { destruct (createThread_refused env body fileData w Hfail) as (w0 & H).
    rewrite H in Hrun. discriminate Hrun. }
  apply orb_false_iff in Hfail as [Hf Hfree].
  apply bool_decide_eq_false in Hfree. apply eq_None_not_Some in Hfree.
  destruct (createThread_created env body fileData w Hf Hfree)
    as (row' & w1 & H & Hid & _ & _ & _ & Hs & Htp & Hth & _ & Hi & Ht & _).
  rewrite H in Hrun. injection Hrun as _ <- <-.
  split; [rewrite Hth, Hid; apply lookup_insert_eq|done].
Qed.

Lemma upload_key_nonempty (env : Env) (file : File) (isNsfw : bool) (w : World) :
  uuidv4 env (rng w) <> "" -> upload_key env file isNsfw w <> "".
Proof.
  intros Hne. unfold upload_key, nsfw_prefix.
  destruct (uuidv4 env (rng w)) as [|c s]; [done|]. by destruct isNsfw.
Qed.

(** X24.  The reconciler does not touch the files of a thread that was
    just created.  When [POST /thread] with a file answers 201, the key in
    the [storage_path] of the row is referenced, and a run of
    [cleanupOrphanedFiles] whose reads succeed leaves the object under
    that key as it is in both buckets: the original is still stored, and
    so is the thumbnail when the row has one, for NSFW keys as for the
    others.  (The identifier drawn is not the empty string.) *)
Theorem created_files_survive_cleanup (env : Env) (file : File) (body : ThreadBody)
    (w w1 : World) (msg : string) (row : Thread) :
  post_thread env (Some file) body w = (Ret (mkResponse 201 (Created msg row)), w1) ->
  uuidv4 env (rng w) <> "" ->
  fails env (StorageList IMAGES_BUCKET) = false ->
  fails env (StorageList THUMBNAILS_BUCKET) = false ->
  fails env (DbSelectPaths THREADS) = false ->
  fails env (DbSelectPaths POSTS) = false ->
  exists key n w2,
    t_storage_path row = Some key /\ referenced w1 key /\
    cleanupOrphanedFiles env w1 = (Ret n, w2) /\
    stored IMAGES_BUCKET key w2 /\
    images w2 !! key = images w1 !! key /\
    thumbnails w2 !! key = thumbnails w1 !! key /\
    (is_Some (t_thumbnail_path row) -> stored THUMBNAILS_BUCKET key w2).
Proof.
  intros Hrun Huuid Hli Hlt Hqt Hqp. unfold post_thread, bind in Hrun.
  destruct (uploadFile env (Some file) (nsfw_requested (is_nsfw body)) w)
    as [[[r|]|e] w0] eqn:Hup.
  2,3: unfold processUpload, bind in Hrun;
       change (match is_nsfw body with
               | JString s => String.eqb s "true"
               | JBool b => b
               | _ => false
               end) with (nsfw_requested (is_nsfw body)) in Hrun;
       rewrite Hup in Hrun; discriminate Hrun.
  rewrite (processUpload_uploaded _ _ _ _ _ _ Hup) in Hrun.
  change (bool_decide (is_Some (Some file))) with true in Hrun.
  destruct (validateThread true body) as [res|value] eqn:Hv.
  { apply validateThread_status in Hv. injection Hrun as -> _. discriminate Hv. }
  apply createThread_inserted_row in Hrun as (Hrow & Hs & Htp & Hi & Ht).
  change (t_storage_path row = Some (storagePath r)) in Hs.
  change (t_thumbnail_path row = thumbnailPath r) in Htp.
  destruct (uploadFile_done _ _ _ _ _ _ Hup) as (Hkey & _ & Hst & _ & _ & _ & _ & Hthumb & _).
  assert (referenced w1 (storagePath r)) as Href.
  { split; [rewrite Hkey; by apply upload_key_nonempty|]. left. eauto. }
  destruct (cleanup_run env w1 Hli Hlt Hqt Hqp) as (w2 & Hclean & _ & Hobj).
  assert (forall b, objects b w2 !! storagePath r = objects b w1 !! storagePath r) as Hkeep.
  { intros b. rewrite Hobj. destruct (decide _) as [[_ [Hnv _]]|]; [|done].
    exfalso. by apply Hnv, elem_of_valid_paths. }
  eexists (storagePath r), _, w2. split; [done|]. split; [done|]. split; [exact Hclean|].
  pose proof (Hkeep IMAGES_BUCKET) as Hki. pose proof (Hkeep THUMBNAILS_BUCKET) as Hkt.
  unfold stored in *. cbn [objects] in *.
  rewrite Hki, Hkt, Hi, Ht. split; [done|]. split; [done|]. split; [done|].
  rewrite Htp. intros [url Hurl]. by destruct (Hthumb url Hurl).
Qed.

Lemma created_files_survive_cleanup_witness :
  exists row w1 n w2,
    post_thread (Node.env Sample.no_faults true) (Some Sample.cat_jpeg)
      Sample.nsfw_thread_body Sample.world_abc
      = (Ret (mkResponse 201 (Created "Thread created successfully" row)), w1) /\
    cleanupOrphanedFiles (Node.env Sample.no_faults true) w1 = (Ret n, w2) /\
    stored IMAGES_BUCKET "nsfw/6f1c2a9e-5b7d-4c3a-9e21-000000000000.jpg" w2 /\
    stored THUMBNAILS_BUCKET "nsfw/6f1c2a9e-5b7d-4c3a-9e21-000000000000.jpg" w2.
Proof.
  destruct (post_thread (Node.env Sample.no_faults true) (Some Sample.cat_jpeg)
              Sample.nsfw_thread_body Sample.world_abc) as [o w1] eqn:Hrun.
  assert (exists row, o = Ret (mkResponse 201 (Created "Thread created successfully" row)) /\
            t_storage_path row = Some "nsfw/6f1c2a9e-5b7d-4c3a-9e21-000000000000.jpg" /\
            is_Some (t_thumbnail_path row))
    as (row & -> & Hpath & Hthumb).
  { vm_compute in Hrun. injection Hrun as <- _. eexists. split; [reflexivity|].
    split; [reflexivity|]. eexists. reflexivity. }
  destruct (created_files_survive_cleanup _ _ _ _ _ _ _ Hrun)
    as (key & n & w2 & Hkey & _ & Hclean & Hs & _ & _ & Ht); try reflexivity.
  { discriminate. }
  rewrite Hpath in Hkey. injection Hkey as <-.
  exists row, w1, n, w2. split; [reflexivity|]. split; [exact Hclean|].
  split; [exact Hs|exact (Ht Hthumb)].
Defined.

(** ** From the URL of a thumbnail back to its key *)

Lemma append_cons (c : ascii) (a b : string) : String c a ++ b = String c (a ++ b).
Proof. reflexivity. Qed.

Lemma append_empty (b : string) : "" ++ b = b.
Proof. reflexivity. Qed.

Lemma append_assoc' (a b c : string) : (a ++ b) ++ c = a ++ (b ++ c).
Proof. induction a as [|x a IH]; [done|]. by rewrite !append_cons, IH. Qed.

Lemma chars_app (a b : string) : chars (a ++ b) = (chars a ++ chars b)%list.
Proof.
  unfold chars. induction a as [|x a IH]; [done|].
  rewrite append_cons. simpl. by rewrite IH.
Qed.

Lemma string_of_chars (s : string) : string_of_list_ascii (chars s) = s.
Proof. apply string_of_list_ascii_of_string. Qed.

Lemma encodeURI_app (a b : string) :
  Node.encodeURI (a ++ b) = Node.encodeURI a ++ Node.encodeURI b.
Proof.
  induction a as [|x a IH]; [done|].
  rewrite append_cons. cbn [Node.encodeURI]. rewrite IH.
  by destruct (Node.uri_plain x).
Qed.

Lemma encodeURI_plain (s : string) :
  forallb Node.uri_plain (chars s) = true -> Node.encodeURI s = s.
Proof.
  unfold chars. induction s as [|x s IH]; [done|].
  cbn [list_ascii_of_string forallb Node.encodeURI].
  intros [Hx Hs]%andb_true_iff. by rewrite Hx, IH.
Qed.

Lemma prefix_app (a b : string) : String.prefix a (a ++ b) = true.
Proof.
  induction a as [|x a IH]; [by destruct b|].
  rewrite append_cons. cbn [String.prefix].
  by destruct (Ascii.ascii_dec x x).
Qed.

Lemma substring_all (s : string) : String.substring 0 (String.length s) s = s.
Proof. induction s as [|x s IH]; [done|]. simpl. by rewrite IH. Qed.

Lemma strip_prefix_app (p s : string) : Node.strip_prefix p (p ++ s) = Some s.
Proof.
  unfold Node.strip_prefix. rewrite prefix_app. f_equal.
  induction p as [|x p IH].
  - rewrite append_empty. simpl. rewrite Nat.sub_0_r. apply substring_all.
  - rewrite append_cons. simpl. apply IH.
Qed.

Lemma take_while_stop (f : ascii -> bool) (l1 l2 : list ascii) (c : ascii) :
  forallb f l1 = true -> f c = false ->
  Node.take_while f (l1 ++ c :: l2) = l1.
Proof.
  intros H1 Hc. induction l1 as [|x l1 IH]; simpl.
  - by rewrite Hc.
  - simpl in H1. apply andb_true_iff in H1 as [-> H1]. by rewrite IH.
Qed.

Lemma take_while_all (f : ascii -> bool) (l : list ascii) :
  forallb f l = true -> Node.take_while f l = l.
Proof.
  induction l as [|x l IH]; [done|]. simpl.
  intros [-> H]%andb_true_iff. by rewrite IH.
Qed.

Lemma split_last_reset (sep : ascii) (a acc b : string) :
  Js.split_last sep acc (a ++ String sep b) = Js.split_last sep "" b.
Proof.
  revert acc. induction a as [|x a IH]; intros acc.
  - rewrite append_empty. simpl. by rewrite Ascii.eqb_refl.
  - rewrite append_cons. simpl. destruct (Ascii.eqb x sep); apply IH.
Qed.

Lemma split_last_segment (sep : ascii) (acc s : string) :
  forallb (Node.other sep) (chars s) = true ->
  Js.split_last sep acc s = acc ++ s.
Proof.
  unfold chars. revert acc. induction s as [|x s IH]; intros acc.
  - intros _. simpl. induction acc as [|y acc IHa]; [done|].
    by rewrite append_cons, <- IHa.
  - cbn [list_ascii_of_string forallb]. intros [Hx Hs]%andb_true_iff. simpl.
    unfold Node.other in Hx. apply negb_true_iff in Hx.
    rewrite Ascii.eqb_sym, Hx, IH by done.
    by rewrite append_assoc'.
Qed.

Lemma segment_chars (key : string) :
  forallb segment_char (chars key) = true ->
  forallb Node.uri_plain (chars key) = true /\
  forallb (Node.other "/") (chars key) = true /\
  forallb (fun c => Node.other "?" c && Node.other "#" c) (chars key) = true.
Proof.
  induction (chars key) as [|x l IH]; [done|]. simpl.
  intros [Hx Hl]%andb_true_iff. destruct (IH Hl) as (-> & -> & ->).
  unfold segment_char in Hx.
  apply andb_true_iff in Hx as [[[-> ->]%andb_true_iff ->]%andb_true_iff ->]. done.
Qed.

(** The public URL of a key of plain characters is the address of the
    bucket followed by the key. *)
Lemma publicUrl_plain (fails : call -> bool) (cascade : bool) (key : string) :
  forallb Node.uri_plain (chars key) = true ->
  publicUrl (Node.env fails cascade) THUMBNAILS_BUCKET key =
    "https://" ++ "darkchan.supabase.co"
      ++ "/storage/v1/object/public/board-thumbnails/" ++ key.
Proof.
  intros Hplain. cbn [publicUrl Node.env]. unfold Node.getPublicUrl.
  cbn [bucket_name].
  change ("https://darkchan.supabase.co" ++ "/storage/v1/object/public/"
            ++ "board-thumbnails" ++ "/" ++ key)
    with ("https://darkchan.supabase.co/storage/v1/object/public/board-thumbnails/" ++ key).
  rewrite encodeURI_app, (encodeURI_plain key Hplain).
  reflexivity.
Qed.

(** The path of such a URL. *)
Lemma URL_pathname_public (key : string) :
  forallb (fun c => Node.other "?" c && Node.other "#" c) (chars key) = true ->
  Node.URL_pathname
    ("https://" ++ "darkchan.supabase.co"
       ++ "/storage/v1/object/public/board-thumbnails/" ++ key)
  = Some ("/storage/v1/object/public/board-thumbnails/" ++ key).
Proof.
  intros Hkey. unfold Node.URL_pathname. rewrite strip_prefix_app.
  change (list_ascii_of_string ?s) with (chars s).
  rewrite chars_app.
  change (chars ("/storage/v1/object/public/board-thumbnails/" ++ key))
    with ("/"%char :: chars ("storage/v1/object/public/board-thumbnails/" ++ key)).
  rewrite take_while_stop by reflexivity.
  change (chars "darkchan.supabase.co") with (list_ascii_of_string "darkchan.supabase.co").
  cbn [list_ascii_of_string].
  rewrite (drop_app_length
             (list_ascii_of_string "darkchan.supabase.co")).
  change ("/"%char :: chars ("storage/v1/object/public/board-thumbnails/" ++ key))
    with (chars ("/storage/v1/object/public/board-thumbnails/" ++ key)).
  rewrite take_while_all.
  - rewrite chars_app. cbn [chars list_ascii_of_string app].
    f_equal. change (list_ascii_of_string key) with (chars key).
    rewrite <- (string_of_chars key) at 2. reflexivity.
  - rewrite chars_app, forallb_app, Hkey. reflexivity.
Qed.

Lemma thumbnail_key_public (fails : call -> bool) (cascade : bool) (dir key : string) :
  forallb Node.uri_plain (chars (dir ++ key)) = true ->
  forallb (fun c => Node.other "?" c && Node.other "#" c) (chars (dir ++ key)) = true ->
  (dir = "" \/ exists d, dir = d ++ "/") ->
  forallb (Node.other "/") (chars key) = true ->
  thumbnail_key (Node.env fails cascade)
    (publicUrl (Node.env fails cascade) THUMBNAILS_BUCKET (dir ++ key)) = Some key.
Proof.
  intros Hplain Hpath Hdir Hseg.
  rewrite (publicUrl_plain _ _ _ Hplain). unfold thumbnail_key.
  change ("https://" ++ ?r) with ("http" ++ "s://" ++ r) at 1.
  unfold Js.startsWith. rewrite prefix_app.
  change ("http" ++ "s://" ++ ?r) with ("https://" ++ r).
  cbn [URL_pathname Node.env]. rewrite (URL_pathname_public _ Hpath).
  cbn [fmap option_fmap option_map]. f_equal. unfold Js.last_segment.
  destruct Hdir as [->|[d ->]].
  - rewrite append_empty.
    change ("/storage/v1/object/public/board-thumbnails/" ++ key)
      with ("/storage/v1/object/public/board-thumbnails" ++ String "/" key).
    rewrite split_last_reset. by apply split_last_segment.
  - rewrite <- !append_assoc'.
    change ((("/storage/v1/object/public/board-thumbnails/" ++ d) ++ "/") ++ key)
      with ((("/storage/v1/object/public/board-thumbnails/" ++ d) ++ "/") ++ key).
    rewrite append_assoc'. change ("/" ++ key) with (String "/" key).
    rewrite split_last_reset. by apply split_last_segment.
Qed.

Lemma longer_key (key : string) : key <> "nsfw/" ++ key.
Proof.
  intros H. apply (f_equal String.length) in H.
  change (String.length ("nsfw/" ++ key)) with (5 + String.length key) in H. lia.
Qed.

(** [deleteFile] on a stored key and a thumbnail reference whose key is
    [key]: both removals are attempted and the answer is [true]. *)
Lemma deleteFile_with_thumbnail (env : Env) (k url key : string) (w : World) :
  k <> "" -> url <> "" -> thumbnail_key env url = Some key ->
  exists w',
    deleteFile env (Some k) (Some url) w = (Ret true, w') /\
    images w' = after_remove env IMAGES_BUCKET k (images w) /\
    thumbnails w' = after_remove env THUMBNAILS_BUCKET key (thumbnails w).
Proof.
  intros Hkne Hurl Hkey.
  destruct (deleteFile_effect env (Some k) (Some url) w)
    as (res & w' & Hrun & _ & Hres & Him & Hth).
  rewrite (truthy_nonempty _ Hkne) in Him.
  rewrite (truthy_nonempty _ Hurl) in Hth, Hres.
  change (default "" (Some url)) with url in Hth, Hres.
  rewrite Hkey in Hth.
  assert (res = true) as ->.
  { destruct res; [reflexivity|]. destruct Hres as [Hres _].
    destruct (Hres eq_refl) as [_ Hnone]. congruence. }
  exists w'. split; [exact Hrun|]. split; [exact Him|exact Hth].
Qed.

Lemma publicUrl_nonempty (fails : call -> bool) (cascade : bool) (key : string) :
  forallb Node.uri_plain (chars key) = true ->
  publicUrl (Node.env fails cascade) THUMBNAILS_BUCKET key <> "".
Proof.
  intros Hplain. rewrite (publicUrl_plain _ _ _ Hplain).
  change ("https://" ++ ?r) with (String "h" ("ttps://" ++ r)). discriminate.
Qed.

(** X25.  [deleteFile] finds the thumbnail of a key by the last segment of
    its public URL.  For a key made of one segment of characters that the
    URL spells as they are, the URL of the thumbnail leads back to the key,
    and [deleteFile] asks for the removal of the original and of the
    thumbnail under that key.  For the same key under the NSFW prefix the
    URL leads back to the key without the prefix: the original is removed
    under the prefixed key, the removal of the thumbnail is asked for under
    the bare key, and the thumbnail stored under the prefixed key stays. *)
Theorem deleteFile_finds_thumbnail (fails : call -> bool) (cascade : bool)
    (key : string) (w : World) :
  let env := Node.env fails cascade in
  one_segment key ->
  (thumbnail_key env (publicUrl env THUMBNAILS_BUCKET key) = Some key /\
   exists w',
     deleteFile env (Some key) (Some (publicUrl env THUMBNAILS_BUCKET key)) w
       = (Ret true, w') /\
     images w' = after_remove env IMAGES_BUCKET key (images w) /\
     thumbnails w' = after_remove env THUMBNAILS_BUCKET key (thumbnails w)) /\
  (thumbnail_key env (publicUrl env THUMBNAILS_BUCKET ("nsfw/" ++ key)) = Some key /\
   exists w',
     deleteFile env (Some ("nsfw/" ++ key))
       (Some (publicUrl env THUMBNAILS_BUCKET ("nsfw/" ++ key))) w = (Ret true, w') /\
     images w' = after_remove env IMAGES_BUCKET ("nsfw/" ++ key) (images w) /\
     thumbnails w' = after_remove env THUMBNAILS_BUCKET key (thumbnails w) /\
     thumbnails w' !! ("nsfw/" ++ key) = thumbnails w !! ("nsfw/" ++ key)).
Proof.
  cbv zeta. generalize (publicUrl_nonempty fails cascade).
  generalize (thumbnail_key_public fails cascade).
  generalize (Node.env fails cascade). intros env Hpublic Hurl.
  intros (Hne & _ & _ & Hseg).
  destruct (segment_chars key Hseg) as (Hplain & Hslash & Hpath).
  assert (thumbnail_key env (publicUrl env THUMBNAILS_BUCKET key) = Some key) as Hk.
  { rewrite <- (append_empty key) at 1.
    apply Hpublic; [exact Hplain|exact Hpath|by left|exact Hslash]. }
  assert (forallb Node.uri_plain (chars ("nsfw/" ++ key)) = true) as Hplain'.
  { rewrite chars_app, forallb_app, Hplain. reflexivity. }
  assert (thumbnail_key env (publicUrl env THUMBNAILS_BUCKET ("nsfw/" ++ key)) = Some key)
    as Hk'.
  { apply Hpublic; [exact Hplain'| |right; by exists "nsfw"|exact Hslash].
    rewrite chars_app, forallb_app, Hpath. reflexivity. }
  split.
  - split; [exact Hk|].
    apply deleteFile_with_thumbnail; [exact Hne|by apply Hurl|exact Hk].
  - split; [exact Hk'|].
    destruct (deleteFile_with_thumbnail env ("nsfw/" ++ key)
                (publicUrl env THUMBNAILS_BUCKET ("nsfw/" ++ key)) key w)
      as (w' & Hrun & Him & Hth); [discriminate|by apply Hurl|exact Hk'|].
    exists w'. split; [exact Hrun|]. split; [exact Him|]. split; [exact Hth|].
    rewrite Hth. unfold after_remove.
    match goal with |- context [if ?b then _ else _] => destruct b end; [reflexivity|].
    apply lookup_delete_ne. apply longer_key.
Qed.

Lemma deleteFile_finds_thumbnail_witness :
  one_segment "6f1c2a9e-5b7d-4c3a-9e21-000000000000.jpg" /\
  thumbnail_key (Node.env Sample.no_faults true)
    (publicUrl (Node.env Sample.no_faults true) THUMBNAILS_BUCKET
       "nsfw/6f1c2a9e-5b7d-4c3a-9e21-000000000000.jpg")
  = Some "6f1c2a9e-5b7d-4c3a-9e21-000000000000.jpg".
Proof.
  assert (one_segment "6f1c2a9e-5b7d-4c3a-9e21-000000000000.jpg") as Hseg.
  { split; [discriminate|]. split; [discriminate|]. split; [discriminate|].
    vm_compute. reflexivity. }
  split; [exact Hseg|].
  exact (proj1 (proj2 (deleteFile_finds_thumbnail Sample.no_faults true
                         "6f1c2a9e-5b7d-4c3a-9e21-000000000000.jpg"
                         Sample.empty_world Hseg))).
Defined.
